(** * Café roster scheduler: a shallow embedding of the assignment engine

    This development embeds the constraint-driven core of the scheduler
    (requirement resolution, scoring, the greedy per-slot loop with its
    backtracking swap and weekend fallback, and the validators) and proves
    properties of it.

    Modelling conventions.
    - Python floats are modelled by exact rationals [Q]; the one irrational
      primitive the code uses (the square root inside the pandas standard
      deviation) is a section variable [fsqrt] about which nothing is assumed.
    - A calendar date is its proleptic Gregorian ordinal
      ([datetime.date.toordinal()]); the [YYYY-MM-DD] strings that key
      [cfg.overrides] are in bijection with those ordinals.
    - An ["HH:MM"] string is taken as already split into hour and minute.
      The engine's assignments keep the local (date, time) pair of their
      start and end; the DataFrame validators see each time with the UTC
      offset its ISO string carries, in minutes, and take dates in UTC
      where the code converts to UTC.
    - A pandas DataFrame is the list of its rows in row order; the
      assignments frame without columns, which an empty schedule gives, is
      told apart from a frame with columns and no rows.
    - Non-finite floats (NaN, infinities) are not modelled: a skill of the
      employees table is a number, or absent.
    - The mutable ledger [weekly_hours] is a [gmap Z Q] read with default 0
      (a [defaultdict(float)]), [assigned_today] is a [gset Z]. *)

From Stdlib Require Import ZArith QArith Qminmax Lqa Lia String Ascii.
From stdpp Require Import base option list sorting gmap sets strings.

Local Open Scope string_scope.
Local Open Scope list_scope.
Local Open Scope Z_scope.

(** ** Exceptions and results *)

Inductive coverage_reason :=
  | NoEligibleEmployees
  | InsufficientStaffWithinCaps
  | EvenAfterWeekendFallback.

Inductive exn :=
  | RuntimeError (day : Z) (role : string) (why : coverage_reason)
  | AttributeError (name : string)
  | NameError (name : string)
  | ValueError (msg : string)
  | KeyError (key : Z)
  | ColumnKeyError (column : string)
  | TypeError (msg : string)
  | IndexError.

Inductive result (A : Type) :=
  | Ok (a : A)
  | Raise (e : exn)
  | OutOfFuel.
Arguments Ok {A} a.
Arguments Raise {A} e.
Arguments OutOfFuel {A}.

Definition bind {A B} (r : result A) (k : A -> result B) : result B :=
  match r with
  | Ok a => k a
  | Raise e => Raise e
  | OutOfFuel => OutOfFuel
  end.

Notation "'do' x <- r ; k" := (bind r (fun x => k))
  (at level 10, x name, r at level 100, k at level 200).

(** ** Ordered dictionaries

    A Python [dict] keeps insertion order, and the engine iterates
    [req_map.items()] in that order, so dictionaries with string or date
    keys are association lists.  Assigning to an existing key keeps its
    position; assigning to a new key appends.  A later binding of a key
    replaces an earlier one, as in a dict display. *)

Definition dict (K V : Type) := list (K * V).

Fixpoint dict_get {K V} `{EqDecision K} (k : K) (d : dict K V) : option V :=
  match d with
  | [] => None
  | (k', v) :: d' =>
      match dict_get k d' with
      | Some v' => Some v'
      | None => if decide (k' = k) then Some v else None
      end
  end.

Definition dict_has {K V} `{EqDecision K} (k : K) (d : dict K V) : bool :=
  bool_decide (is_Some (dict_get k d)).

Definition dict_set {K V} `{EqDecision K} (k : K) (v : V) (d : dict K V) : dict K V :=
  if dict_has k d
  then map (fun kv => if decide (fst kv = k) then (fst kv, v) else kv) d
  else d ++ [(k, v)].

(** [for k, v in overlay.items(): base[k] = v] *)
Definition dict_update {K V} `{EqDecision K} (base overlay : dict K V) : dict K V :=
  fold_left (fun acc kv => dict_set (fst kv) (snd kv) acc) overlay base.

(** ** Strings, dates and times *)

Definition upper_ascii (c : ascii) : ascii :=
  let n := nat_of_ascii c in
  if (Nat.leb 97 n && Nat.leb n 122)%bool then ascii_of_nat (n - 32) else c.

Fixpoint upper (s : string) : string :=
  match s with
  | EmptyString => EmptyString
  | String c s' => String (upper_ascii c) (upper s')
  end.

Definition day_names : list string :=
  ["Monday"; "Tuesday"; "Wednesday"; "Thursday"; "Friday"; "Saturday"; "Sunday"].

(** [date.weekday()] is [(toordinal() + 6) % 7], Monday being 0. *)
Definition weekday (d : Z) : Z := (d + 6) mod 7.

Definition day_name (d : Z) : string :=
  nth (Z.to_nat (weekday d)) day_names "Sunday".

Record hm := HM { hour : Z; minute : Z }.

Record datetime := DateTime { dt_date : Z; dt_time : hm }.

Definition minutes_of (t : hm) : Z := 60 * hour t + minute t.

(** [(b - a).total_seconds() / 3600.0] *)
Definition hours_between (a b : datetime) : Q :=
  ((dt_date b - dt_date a) * 1440 + (minutes_of (dt_time b) - minutes_of (dt_time a))) # 60.

(** data_io.local_day_bounds *)
Definition local_day_bounds (day : Z) (start_hm end_hm : hm) : datetime * datetime :=
  (DateTime day start_hm, DateTime day end_hm).

Definition slot_hours_of (day : Z) (start_hm end_hm : hm) : Q :=
  let '(sdt, edt) := local_day_bounds day start_hm end_hm in hours_between sdt edt.

(** ** Configuration (config.py) *)

Record Weights := {
  manager_weight : Q;
  coffee : Q;
  sandwich : Q;
  speed : Q;
  customer_service : Q;
  fairness_penalty_per_std_above_median : Q
}.

Record HoursCaps := { max_hours_per_week_per_employee : Z }.

Record DefaultShift := { ds_start : hm; ds_end : hm; duration_hours : Z }.

(** One entry of [cfg.hours_policy]; a missing key is [None]. *)
Record HoursPolicy := {
  target_min : option Q;
  target_max : option Q;
  hard_cap : option Q
}.

Record HoursPenalties := {
  per_hour_below_target : option Q;
  per_hour_above_target : option Q
}.

Record WeekendFallback := {
  enabled : option bool;
  min_required : option Z;
  allow_single_full_shift : option bool
}.

(** The value stored under a key of [cfg.role_time_windows[role]]: the code
    tests [isinstance] for a dict with optional start and end, or a list of
    complete windows. *)
Inductive window_value :=
  | WDict (w_start w_end : option hm)
  | WList (ws : list (hm * hm))
  | WOther.

Record RoleWindows := {
  rw_weekday : option window_value;
  rw_weekend_staggered : option window_value;
  rw_weekend : option window_value
}.

(** [weekend_requirements] is not a declared field of the dataclass: [None]
    stands for a config object without that attribute. *)
Record SchedulerConfig := {
  default_shift : DefaultShift;
  default_requirements : dict string Z;
  weekend_requirements : option (dict string Z);
  overrides : dict Z (dict string Z);
  hours_caps : HoursCaps;
  weights : Weights;
  busy_days : list string;
  role_time_windows : dict string RoleWindows;
  hours_policy : dict string HoursPolicy;
  hours_penalties : HoursPenalties;
  global_hard_cap : option Q;
  schedule_busy_days_first : bool;
  weekend_fallback : dict string WeekendFallback
}.

(** ** Requirement resolution *)

Definition is_weekend (date : Z) : bool :=
  bool_decide (day_name date ∈ ["Saturday"; "Sunday"]).

Definition apply_overrides (date : Z) (cfg : SchedulerConfig) (req : dict string Z)
  : dict string Z :=
  match dict_get date (overrides cfg) with
  | Some ov => dict_update req ov
  | None => req
  end.

Module Baseline.
(** engine_baseline.build_requirements_for_day *)
Definition build_requirements_for_day (date : Z) (cfg : SchedulerConfig)
  : result (dict string Z) :=
  let req := default_requirements cfg in
  do req <- (if is_weekend date
          then match weekend_requirements cfg with
               | Some wr => Ok (dict_update req wr)
               | None => Raise (AttributeError "weekend_requirements")
               end
          else Ok req);
  Ok (apply_overrides date cfg req).
End Baseline.

Module Services.
(** services/requirements.build_requirements_for_day *)
Definition build_requirements_for_day (date : Z) (cfg : SchedulerConfig)
  : dict string Z :=
  let req := default_requirements cfg in
  let req :=
    if is_weekend date
    then dict_update req (default [] (weekend_requirements cfg))
    else req in
  apply_overrides date cfg req.
End Services.

(** The layered lookup the requirement map is compared with: the override
    for the date if it binds the role, else the weekend count on a Saturday
    or Sunday if it binds the role, else the default. *)
Definition layered_requirement (date : Z) (cfg : SchedulerConfig) (role : string)
  : option Z :=
  let base := dict_get role (default_requirements cfg) in
  let wk :=
    if is_weekend date
    then match dict_get role (default [] (weekend_requirements cfg)) with
         | Some c => Some c
         | None => base
         end
    else base in
  match dict_get date (overrides cfg) with
  | Some ov => match dict_get role ov with Some c => Some c | None => wk end
  | None => wk
  end.

(** The same layering with the overlay keyed on the configured busy-day set
    instead of Saturday and Sunday. *)
Definition is_busy_day (date : Z) (cfg : SchedulerConfig) : bool :=
  bool_decide (day_name date ∈ busy_days cfg).

Definition layered_requirement_busy (date : Z) (cfg : SchedulerConfig) (role : string)
  : option Z :=
  let base := dict_get role (default_requirements cfg) in
  let wk :=
    if is_busy_day date cfg
    then match dict_get role (default [] (weekend_requirements cfg)) with
         | Some c => Some c
         | None => base
         end
    else base in
  match dict_get date (overrides cfg) with
  | Some ov => match dict_get role ov with Some c => Some c | None => wk end
  | None => wk
  end.

(** ** Employees *)

(** A row of the employees table.  A skill that is [None] stands, for the
    engine, for a column the table does not have ([row.get(col, 0)] is
    then 0 on every row) and, for the service layer, for a null attribute
    of the employee object ([employee.skill or 0.0]).  An empty cell of a
    column the table has is a NaN, which is not modelled. *)
Record Employee := {
  employee_id : Z;
  primary_role : string;
  skill_coffee : option Q;
  skill_sandwich : option Q;
  customer_service_rating : option Q;
  skill_speed : option Q
}.

Definition skill (s : option Q) : Q := default 0%Q s.

(** constraints.is_role_eligible *)
Definition ROLES : list string := ["MANAGER"; "BARISTA"; "WAITER"; "SANDWICH"].

Definition is_role_eligible (primary required : string) : bool :=
  let primary := upper primary in
  let required := upper required in
  if negb (bool_decide (required ∈ ROLES)) then false
  else if String.eqb primary "SANDWICH" then String.eqb required "SANDWICH"
  else if String.eqb primary "BARISTA" then String.eqb required "BARISTA"
  else if String.eqb primary "WAITER" then String.eqb required "WAITER"
  else if String.eqb primary "MANAGER" then String.eqb required "MANAGER"
  else false.

(** ** Rational helpers *)

Definition Qleb (a b : Q) : bool := Qle_bool a b.
Definition Qltb (a b : Q) : bool := negb (Qle_bool b a).

Definition Qsum (l : list Q) : Q := foldr Qplus 0%Q l.

Definition Qmin_list (x : Q) (l : list Q) : Q := foldr Qmin x l.

#[global] Instance Qle_dec_inst (x y : Q) : Decision (x <= y)%Q.
Proof.
  destruct (Qle_bool x y) eqn:E.
  - left. apply Qle_bool_iff. exact E.
  - right. intros H. apply Qle_bool_iff in H. congruence.
Defined.

(** ** Scoring (scoring.py) *)

(** scoring.role_fitness *)
Definition role_fitness (row : Employee) (role : string) (w : Weights) : Q :=
  let role := upper role in
  if String.eqb role "MANAGER" then manager_weight w
  else if String.eqb role "BARISTA" then
    (coffee w * skill (skill_coffee row)
     + speed w * skill (skill_speed row)
     + customer_service w * skill (customer_service_rating row))%Q
  else if String.eqb role "WAITER" then
    (customer_service w * skill (customer_service_rating row)
     + speed w * skill (skill_speed row))%Q
  else if String.eqb role "SANDWICH" then
    (sandwich w * skill (skill_sandwich row))%Q
  else 0%Q.

(** [Series.median()]: the middle value of the sorted values, or the mean
    of the two middle values. *)
Definition median (values : list Q) : Q :=
  let sorted := merge_sort Qle values in
  let n := length sorted in
  if Nat.even n
  then ((nth (n / 2 - 1) sorted 0 + nth (n / 2) sorted 0) / 2)%Q
  else nth (n / 2) sorted 0%Q.

Definition mean (values : list Q) : Q :=
  (Qsum values / inject_Z (Z.of_nat (length values)))%Q.

Definition variance (values : list Q) : Q :=
  let mu := mean values in
  mean (map (fun x => (x - mu) * (x - mu))%Q values).

(** [scoring.hours_deviation_penalty] *)
Definition policy_is_empty (pol : HoursPolicy) : bool :=
  match target_min pol, target_max pol, hard_cap pol with
  | None, None, None => true
  | _, _, _ => false
  end.

Definition hours_deviation_penalty (current_hours : Q) (role : string)
  (policy : dict string HoursPolicy) (penalties : HoursPenalties) : Q :=
  match dict_get role policy with
  | None => 0%Q
  | Some pol =>
      if policy_is_empty pol then 0%Q
      else
        let tmin := default 0%Q (target_min pol) in
        let tmax := default (inject_Z 1000000000) (target_max pol) in
        let below := Qmax 0 (tmin - current_hours) in
        let above := Qmax 0 (current_hours - tmax) in
        (below * default 0 (per_hour_below_target penalties)
         + above * default 0 (per_hour_above_target penalties))%Q
  end.

(** The target-band formula in the words of the specification. *)
Definition target_band_penalty (tmin tmax below_rate above_rate h : Q) : Q :=
  (Qmax 0 (tmin - h) * below_rate + Qmax 0 (h - tmax) * above_rate)%Q.

(** The cohort rotation formula in the words of the specification. *)
Definition rotation_penalty (hours_e min_cohort factor : Q) : Q :=
  (Qmax 0 (hours_e - min_cohort) * factor)%Q.

(** ** Scoring (services/scoring.py) *)

Module ServicesScoring.

Definition weight (weights : dict string Q) (key : string) (dflt : Q) : Q :=
  default dflt (dict_get key weights).

(** calculate_role_fitness *)
Definition calculate_role_fitness (employee : Employee) (role : string)
  (weights : dict string Q) : Q :=
  let role := upper role in
  if String.eqb role "MANAGER" then weight weights "manager_weight" 1
  else if String.eqb role "BARISTA" then
    (weight weights "coffee" 1 * skill (skill_coffee employee)
     + weight weights "speed" (1#2) * skill (skill_speed employee)
     + weight weights "customer_service" (1#2) * skill (customer_service_rating employee))%Q
  else if String.eqb role "WAITER" then
    (weight weights "customer_service" (1#2) * skill (customer_service_rating employee)
     + weight weights "speed" (1#2) * skill (skill_speed employee))%Q
  else if String.eqb role "SANDWICH" then
    (weight weights "sandwich" 1 * skill (skill_sandwich employee))%Q
  else 0%Q.

Definition cohort_values (cohort_hours : gmap Z Q) : list Q :=
  (map_to_list cohort_hours).*2.

(** [min(cohort_hours.values())] of a non-empty dict *)
Definition min_hours (cohort_hours : gmap Z Q) : Q :=
  match cohort_values cohort_hours with
  | [] => 0%Q
  | v :: vs => Qmin_list v vs
  end.

(** calculate_fairness_penalty *)
Definition calculate_fairness_penalty (emp_id : Z) (current_hours : Q)
  (cohort_hours : gmap Z Q) (penalty_per_std : Q) : Q :=
  if (size cohort_hours <=? 1)%nat then 0%Q
  else
    let min_hours := min_hours cohort_hours in
    if Qleb current_hours min_hours then 0%Q
    else
      let hours_above_min := (current_hours - min_hours)%Q in
      (penalty_per_std * hours_above_min)%Q.

(** calculate_hours_deviation_penalty *)
Definition calculate_hours_deviation_penalty (current_hours : Q) (role : string)
  (policy : dict string HoursPolicy) (penalties : HoursPenalties) : Q :=
  let role_policy := dict_get (upper role) policy in
  let target_min := default 0%Q (role_policy ≫= target_min) in
  let target_max := default 40%Q (role_policy ≫= target_max) in
  if Qltb current_hours target_min then
    let deficit := (target_min - current_hours)%Q in
    (deficit * default (1#2) (per_hour_below_target penalties))%Q
  else if Qltb target_max current_hours then
    let excess := (current_hours - target_max)%Q in
    (excess * default (3#4) (per_hour_above_target penalties))%Q
  else 0%Q.

(** calculate_employee_score *)
Definition calculate_employee_score (employee : Employee) (role : string)
  (current_hours : Q) (role_cohort_hours : gmap Z Q) (weights : dict string Q)
  (policy : dict string HoursPolicy) (penalties : HoursPenalties) : Q :=
  let fitness := calculate_role_fitness employee role weights in
  let fairness_penalty :=
    calculate_fairness_penalty (employee_id employee) current_hours role_cohort_hours
      (weight weights "fairness_penalty_per_std_above_median" (1#4)) in
  let hours_penalty :=
    calculate_hours_deviation_penalty current_hours role policy penalties in
  (fitness - fairness_penalty - hours_penalty)%Q.

End ServicesScoring.

(** ** The greedy engine (engine_baseline.py) *)

Record Shift := { s_shift_id : Z; s_date : Z }.

Record Assignment := {
  shift_id : Z;
  emp_id : Z;
  start_time : datetime;
  end_time : datetime;
  asg_role : string;
  shift_type : option string;
  day_type : option string
}.

(** The date an assignment falls on and its actual duration in hours. *)
Definition asg_date (a : Assignment) : Z := dt_date (start_time a).
Definition asg_hours (a : Assignment) : Q := hours_between (start_time a) (end_time a).

(** Reading and updating the [defaultdict(float)] ledger. *)
Definition wh_get (weekly_hours : gmap Z Q) (e : Z) : Q := default 0%Q (weekly_hours !! e).
Definition wh_add (weekly_hours : gmap Z Q) (e : Z) (h : Q) : gmap Z Q :=
  <[e := (wh_get weekly_hours e + h)%Q]> weekly_hours.

(** [Series.idxmax()] followed by [.loc]: the first row attaining the
    maximal score. *)
Fixpoint idxmax_from {A} (best : A) (best_score : Q) (l : list (A * Q)) : A :=
  match l with
  | [] => best
  | (x, s) :: l' =>
      if Qltb best_score s then idxmax_from x s l' else idxmax_from best best_score l'
  end.

Definition idxmax {A} (l : list (A * Q)) : option A :=
  match l with
  | [] => None
  | (x, s) :: l' => Some (idxmax_from x s l')
  end.

(** [l * n] on Python lists *)
Definition list_times {A} (l : list A) (n : Z) : list A :=
  concat (replicate (Z.to_nat n) l).

(** [lst[i] = v], which raises IndexError out of range *)
Definition list_assign {A} (l : list A) (i : nat) (v : A) : result (list A) :=
  if (i <? length l)%nat then Ok (<[i := v]> l) else Raise IndexError.

Definition role_hard_cap (cfg : SchedulerConfig) (role : string) : Q :=
  default (inject_Z (max_hours_per_week_per_employee (hours_caps cfg)))
          (dict_get role (hours_policy cfg) ≫= hard_cap).

Definition role_cohort (employees : list Employee) (role : string) : list Employee :=
  filter (fun e => upper (primary_role e) = role) employees.

(** Lines 122-177: the time windows of a role on a day, with the shift-type
    label, replicated or cycled to the needed count. *)
Definition first_two (v : option window_value) : option (list (hm * hm)) :=
  match v with
  | Some (WList ws) => if (2 <=? length ws)%nat then Some (take 2 ws) else None
  | _ => None
  end.

Definition base_time_patterns (cfg : SchedulerConfig) (role : string) (busy : bool)
  : list (hm * hm) * string :=
  let default_start := ds_start (default_shift cfg) in
  let default_end := ds_end (default_shift cfg) in
  let role_windows := dict_get role (role_time_windows cfg) in
  if bool_decide (role ∈ ["BARISTA"; "WAITER"]) then
    if busy then
      match first_two (role_windows ≫= rw_weekend_staggered) with
      | Some ws => (ws, "weekend_double")
      | None => ([(default_start, default_end); (default_start, default_end)], "weekend_double")
      end
    else
      match role_windows ≫= rw_weekday with
      | Some (WDict (Some s) (Some e)) => ([(s, e)], "weekday_single")
      | _ => ([(default_start, default_end)], "weekday_single")
      end
  else if String.eqb role "SANDWICH" then
    if busy then
      match first_two (role_windows ≫= rw_weekend) with
      | Some ws => (ws, "weekend_double")
      | None => ([(HM 5 0, HM 13 30); (HM 6 0, HM 13 30)], "weekend_double")
      end
    else
      match role_windows ≫= rw_weekday with
      | Some (WList (p :: _)) => ([p], "weekday_single")
      | _ => ([(HM 5 0, HM 12 0)], "weekday_single")
      end
  else ([(default_start, default_end)], if busy then "weekend_single" else "weekday_single").

Definition replicate_patterns (time_patterns : list (hm * hm)) (needed : Z) : list (hm * hm) :=
  let len := Z.of_nat (length time_patterns) in
  if (len =? 1) && (1 <? needed) then list_times time_patterns needed
  else if (2 <=? len) && (len <? needed) then
    let reps := (needed + len - 1) / len in
    take (Z.to_nat needed) (list_times time_patterns reps)
  else time_patterns.

(** What is fixed while one role of one day is being filled. *)
Record RoleCtx := {
  cx_cfg : SchedulerConfig;
  cx_day : Z;
  cx_day_type : string;
  cx_shift_ids : list Z;
  cx_role : string;
  cx_needed : Z;
  cx_candidates : list Employee;
  cx_fairness : dict Z Q;
  cx_time_patterns : list (hm * hm);
  cx_shift_type_label : string
}.

(** The mutable state of the slot loop. *)
Record LoopState := {
  weekly_hours : gmap Z Q;
  assignments : list Assignment;
  assigned_today : gset Z;
  round_robin : list Z;
  slots_assigned : Z;
  backtrack_buffer : list (nat * Assignment)
}.

Definition eligible_mask (cx : RoleCtx) (wh : gmap Z Q) (today : gset Z)
  (start_hm end_hm : hm) (r : Employee) : bool :=
  let e := employee_id r in
  if bool_decide (e ∈ today) then false
  else
    let slot_hours := slot_hours_of (cx_day cx) start_hm end_hm in
    let role_cap := role_hard_cap (cx_cfg cx) (cx_role cx) in
    if Qltb role_cap (wh_get wh e + slot_hours) then false
    else
      match global_hard_cap (cx_cfg cx) with
      | Some g =>
          if Qltb g (wh_get wh e + slot_hours) then false
          else is_role_eligible (primary_role r) (cx_role cx)
      | None => is_role_eligible (primary_role r) (cx_role cx)
      end.

Definition fairness_of (cx : RoleCtx) (e : Z) : Q :=
  default 0%Q (dict_get e (cx_fairness cx)).

Inductive score_branch := HardCapBreach | SoftScore.

Definition score_row_branch (cx : RoleCtx) (wh : gmap Z Q)
  (start_hm end_hm : hm) (r : Employee) : score_branch :=
  let post_hours := (wh_get wh (employee_id r) + slot_hours_of (cx_day cx) start_hm end_hm)%Q in
  if Qltb (role_hard_cap (cx_cfg cx) (cx_role cx)) post_hours then HardCapBreach else SoftScore.

Definition score_row (cx : RoleCtx) (wh : gmap Z Q)
  (start_hm end_hm : hm) (r : Employee) : Q :=
  let post_hours := (wh_get wh (employee_id r) + slot_hours_of (cx_day cx) start_hm end_hm)%Q in
  match score_row_branch cx wh start_hm end_hm r with
  | HardCapBreach => (-1000)%Q
  | SoftScore =>
      let hours_pen :=
        hours_deviation_penalty post_hours (cx_role cx)
          (hours_policy (cx_cfg cx)) (hours_penalties (cx_cfg cx)) in
      (role_fitness r (cx_role cx) (weights (cx_cfg cx))
       - fairness_of cx (employee_id r) - hours_pen)%Q
  end.

(** Line 209: the candidate pool of a slot. *)
Definition slot_pool (cx : RoleCtx) (wh : gmap Z Q) (today : gset Z)
  (start_hm end_hm : hm) : list Employee :=
  filter (fun r => eligible_mask cx wh today start_hm end_hm r = true) (cx_candidates cx).

(** Lines 266-272: the strict re-filter on the role hard cap. *)
Definition strict_pool (cx : RoleCtx) (wh : gmap Z Q)
  (start_hm end_hm : hm) (pool : list Employee) : list Employee :=
  filter (fun rr =>
            Qleb (wh_get wh (employee_id rr) + slot_hours_of (cx_day cx) start_hm end_hm)
                 (role_hard_cap (cx_cfg cx) (cx_role cx)) = true) pool.

(** Lines 279-300: the strictly filtered pool with the score of each row,
    from which [idxmax] selects. *)
Definition scored_pool (cx : RoleCtx) (wh : gmap Z Q) (today : gset Z)
  (start_hm end_hm : hm) : list (Employee * Q) :=
  map (fun r => (r, score_row cx wh start_hm end_hm r))
      (strict_pool cx wh start_hm end_hm (slot_pool cx wh today start_hm end_hm)).

(** Lines 213-255: the backtracking swap, over the buffer most recent first. *)
Fixpoint backtrack_swap (cx : RoleCtx) (start_hm end_hm : hm) (st : LoopState)
  (buffer_rev : list (nat * Assignment)) : result (option LoopState) :=
  match buffer_rev with
  | [] => Ok None
  | (idx, prev) :: rest =>
      let prev_emp_id := emp_id prev in
      let alt_pool := filter (fun r => employee_id r ≠ prev_emp_id) (cx_candidates cx) in
      let alt_pool :=
        filter (fun r => eligible_mask cx (weekly_hours st) (assigned_today st)
                           start_hm end_hm r = true) alt_pool in
      let alt_scores :=
        map (fun r => (r, (role_fitness r (cx_role cx) (weights (cx_cfg cx))
                           - fairness_of cx (employee_id r))%Q)) alt_pool in
      match idxmax alt_scores with
      | None => backtrack_swap cx start_hm end_hm st rest
      | Some best_row =>
          let best_emp_id := employee_id best_row in
          let prev_hours := asg_hours prev in
          let wh := wh_add (weekly_hours st) prev_emp_id (- prev_hours) in
          if negb (bool_decide (prev_emp_id ∈ assigned_today st))
          then Raise (KeyError prev_emp_id)
          else
            let today := assigned_today st ∖ {[prev_emp_id]} in
            let slot_hours2 := slot_hours_of (cx_day cx) start_hm end_hm in
            let wh := wh_add wh best_emp_id slot_hours2 in
            let today := today ∪ {[best_emp_id]} in
            let swapped_asg :=
              {| shift_id := shift_id prev; emp_id := best_emp_id;
                 start_time := start_time prev; end_time := end_time prev;
                 asg_role := cx_role cx; shift_type := None; day_type := None |} in
            do asgs <- list_assign (assignments st) idx swapped_asg;
            do buf <- list_assign (backtrack_buffer st) idx (idx, swapped_asg);
            Ok (Some {| weekly_hours := wh; assignments := asgs; assigned_today := today;
                        round_robin := round_robin st;
                        slots_assigned := slots_assigned st;
                        backtrack_buffer := buf |})
      end
  end.

(** Lines 186-325: the body of [while slots_assigned < needed]. *)
Definition slot_step (cx : RoleCtx) (st : LoopState) : result LoopState :=
  let rr := match round_robin st with [] => cx_shift_ids cx | _ => round_robin st end in
  match rr with
  | [] => Raise IndexError
  | current_shift_id :: rr' =>
      let '(start_hm, end_hm) :=
        default (ds_start (default_shift (cx_cfg cx)), ds_end (default_shift (cx_cfg cx)))
                (cx_time_patterns cx !! Z.to_nat (slots_assigned st)) in
      let st := {| weekly_hours := weekly_hours st; assignments := assignments st;
                   assigned_today := assigned_today st; round_robin := rr';
                   slots_assigned := slots_assigned st;
                   backtrack_buffer := backtrack_buffer st |} in
      match slot_pool cx (weekly_hours st) (assigned_today st) start_hm end_hm with
      | [] =>
          do swapped <- backtrack_swap cx start_hm end_hm st (rev (backtrack_buffer st));
          match swapped with
          | None => Raise (RuntimeError (cx_day cx) (cx_role cx) InsufficientStaffWithinCaps)
          | Some st' => Ok st'
          end
      | _ :: _ =>
          match idxmax (scored_pool cx (weekly_hours st) (assigned_today st)
                          start_hm end_hm) with
          | None => Raise (RuntimeError (cx_day cx) (cx_role cx) InsufficientStaffWithinCaps)
          | Some chosen =>
              let e := employee_id chosen in
              let '(start_dt, end_dt) := local_day_bounds (cx_day cx) start_hm end_hm in
              let assign :=
                {| shift_id := current_shift_id; emp_id := e;
                   start_time := start_dt; end_time := end_dt;
                   asg_role := cx_role cx;
                   shift_type := Some (cx_shift_type_label cx);
                   day_type := Some (cx_day_type cx) |} in
              Ok {| weekly_hours := wh_add (weekly_hours st) e (hours_between start_dt end_dt);
                    assignments := assignments st ++ [assign];
                    assigned_today := assigned_today st ∪ {[e]};
                    round_robin := rr';
                    slots_assigned := slots_assigned st + 1;
                    backtrack_buffer :=
                      backtrack_buffer st ++ [(length (assignments st), assign)] |}
          end
      end
  end.

(** Lines 185-325: [while slots_assigned < needed].  The loop has no bound
    in the source; [fuel] counts its iterations (a swap retries the slot
    without filling it, a commit fills it). *)
Fixpoint slot_loop (cx : RoleCtx) (fuel : nat) (st : LoopState) : result LoopState :=
  if negb (slots_assigned st <? cx_needed cx) then Ok st
  else
    match fuel with
    | O => OutOfFuel
    | S fuel' =>
        do st' <- slot_step cx st;
        slot_loop cx fuel' st'
    end.

(** Lines 327-385: the weekend fallback block that follows the slot loop. *)
Definition fb_score (cx : RoleCtx) (wh : gmap Z Q) (r : Employee) : Q :=
  let start_hm_fb := ds_start (default_shift (cx_cfg cx)) in
  let end_hm_fb := ds_end (default_shift (cx_cfg cx)) in
  let post_h := (wh_get wh (employee_id r) + slot_hours_of (cx_day cx) start_hm_fb end_hm_fb)%Q in
  (role_fitness r (cx_role cx) (weights (cx_cfg cx))
   - fairness_of cx (employee_id r)
   - hours_deviation_penalty post_h (cx_role cx)
       (hours_policy (cx_cfg cx)) (hours_penalties (cx_cfg cx)))%Q.

Definition fallback_guard (cx : RoleCtx) (busy : bool) (st : LoopState) : bool :=
  (slots_assigned st <? cx_needed cx) && busy
  && default false (dict_get (cx_role cx) (weekend_fallback (cx_cfg cx)) ≫= enabled).

Definition fallback_attempt (cx : RoleCtx) (st : LoopState) : result LoopState :=
  let start_hm_fb := ds_start (default_shift (cx_cfg cx)) in
  let end_hm_fb := ds_end (default_shift (cx_cfg cx)) in
  let fb_pool :=
    filter (fun r => eligible_mask cx (weekly_hours st) (assigned_today st)
                       start_hm_fb end_hm_fb r = true) (cx_candidates cx) in
  match idxmax (map (fun r => (r, fb_score cx (weekly_hours st) r)) fb_pool) with
  | None => Ok st
  | Some rbest =>
      let emp_fb := employee_id rbest in
      let '(sdt_fb2, edt_fb2) := local_day_bounds (cx_day cx) start_hm_fb end_hm_fb in
      match cx_shift_ids cx with
      | [] => Raise IndexError
      | first_shift :: _ =>
          let assign_fb :=
            {| shift_id := first_shift; emp_id := emp_fb;
               start_time := sdt_fb2; end_time := edt_fb2;
               asg_role := cx_role cx;
               shift_type := Some "weekend_fallback_single";
               day_type := Some (cx_day_type cx) |} in
          Ok {| weekly_hours := wh_add (weekly_hours st) emp_fb (hours_between sdt_fb2 edt_fb2);
                assignments := assignments st ++ [assign_fb];
                assigned_today := assigned_today st ∪ {[emp_fb]};
                round_robin := round_robin st;
                slots_assigned := slots_assigned st + 1;
                backtrack_buffer := backtrack_buffer st |}
      end
  end.

Definition weekend_fallback_block (cx : RoleCtx) (busy : bool) (st : LoopState)
  : result LoopState :=
  if fallback_guard cx busy st then
    let fb := dict_get (cx_role cx) (weekend_fallback (cx_cfg cx)) in
    let min_req := default 1 (fb ≫= min_required) in
    let allow_single := default false (fb ≫= allow_single_full_shift) in
    do st <- (if allow_single && (slots_assigned st <? cx_needed cx)
              then fallback_attempt cx st else Ok st);
    if slots_assigned st <? min_req
    then Raise (RuntimeError (cx_day cx) (cx_role cx) EvenAfterWeekendFallback)
    else Ok st
  else Ok st.

(** What survives from one role of a day to the next, and from day to day. *)
Record DayState := {
  d_weekly_hours : gmap Z Q;
  d_assignments : list Assignment;
  d_assigned_today : gset Z
}.

Definition role_ctx (employees : list Employee) (cfg : SchedulerConfig) (day : Z)
  (busy : bool) (shift_ids : list Z) (fairness_by_role : dict string (dict Z Q))
  (role : string) (needed : Z) : RoleCtx :=
  let '(time_patterns, label) := base_time_patterns cfg role busy in
  {| cx_cfg := cfg; cx_day := day;
     cx_day_type := if busy then "weekend" else "weekday";
     cx_shift_ids := shift_ids; cx_role := role; cx_needed := needed;
     cx_candidates := role_cohort employees role;
     cx_fairness := default [] (dict_get role fairness_by_role);
     cx_time_patterns := replicate_patterns time_patterns needed;
     cx_shift_type_label := label |}.

(** Lines 109-385: one [(role, needed)] item of the day's requirement map.
    The slot loop is given [needed] iterations. *)
Definition process_role (employees : list Employee) (cfg : SchedulerConfig) (day : Z)
  (busy : bool) (shift_ids : list Z) (fairness_by_role : dict string (dict Z Q))
  (ds : DayState) (item : string * Z) : result DayState :=
  let '(role, needed) := item in
  if needed =? 0 then Ok ds
  else
    let cx := role_ctx employees cfg day busy shift_ids fairness_by_role role needed in
    match cx_candidates cx with
    | [] => Raise (RuntimeError day role NoEligibleEmployees)
    | _ :: _ =>
        do st <- slot_loop cx (Z.to_nat needed)
                   {| weekly_hours := d_weekly_hours ds; assignments := d_assignments ds;
                      assigned_today := d_assigned_today ds; round_robin := shift_ids;
                      slots_assigned := 0; backtrack_buffer := [] |};
        do st <- weekend_fallback_block cx busy st;
        Ok {| d_weekly_hours := weekly_hours st; d_assignments := assignments st;
              d_assigned_today := assigned_today st |}
    end.

Fixpoint process_roles (employees : list Employee) (cfg : SchedulerConfig) (day : Z)
  (busy : bool) (shift_ids : list Z) (fairness_by_role : dict string (dict Z Q))
  (ds : DayState) (req_items : list (string * Z)) : result DayState :=
  match req_items with
  | [] => Ok ds
  | item :: rest =>
      do ds <- process_role employees cfg day busy shift_ids fairness_by_role ds item;
      process_roles employees cfg day busy shift_ids fairness_by_role ds rest
  end.

(** [shifts_df.sort_values(["date", "shift_id"])] *)
Definition shift_le (a b : Shift) : Prop :=
  s_date a < s_date b ∨ (s_date a = s_date b ∧ s_shift_id a ≤ s_shift_id b).

#[global] Instance shift_le_dec : RelDecision shift_le.
Proof. intros a b. unfold shift_le. apply _. Defined.

(** [unique()]: the distinct values in order of first appearance *)
Fixpoint unique (l : list Z) : list Z :=
  match l with
  | [] => []
  | x :: l' => x :: filter (fun y => y ≠ x) (unique l')
  end.

(** Lines 70-74: the sort key [(0 if busy else 1, Timestamp(d))] *)
Definition busy_key_le (cfg : SchedulerConfig) (a b : Z) : Prop :=
  let flag d := if is_busy_day d cfg then 0 else 1 in
  flag a < flag b ∨ (flag a = flag b ∧ a ≤ b).

#[global] Instance busy_key_le_dec cfg : RelDecision (busy_key_le cfg).
Proof. intros a b. unfold busy_key_le. apply _. Defined.

Definition schedule_days (shifts_sorted : list Shift) (cfg : SchedulerConfig) : list Z :=
  let days := unique (map s_date shifts_sorted) in
  if schedule_busy_days_first cfg then merge_sort (busy_key_le cfg) days else days.

Section Engine.

(** The floating-point square root used by [Series.std]. *)
Variable fsqrt : Q -> Q.

Definition std (values : list Q) : Q := fsqrt (variance values).

(** scoring.fairness_penalty: standard deviations above the cohort median *)
Definition fairness_penalty (hours_series : dict Z Q) (role : string) (w : Weights)
  : dict Z Q :=
  match hours_series with
  | [] => []
  | _ :: _ =>
      let med := median hours_series.*2 in
      let sd := std hours_series.*2 in
      if Qeq_bool sd 0 then map (fun kv => (fst kv, 0%Q)) hours_series
      else
        map (fun kv =>
               let z := Qmax 0 ((snd kv - med) / sd) in
               (fst kv, (z * fairness_penalty_per_std_above_median w)%Q)) hours_series
  end.

(** Lines 96-99: the hours of a role cohort, keyed by employee id *)
Definition hours_series_of (employees : list Employee) (wh : gmap Z Q) (role : string)
  : dict Z Q :=
  fold_left (fun acc row => dict_set (employee_id row) (wh_get wh (employee_id row)) acc)
            (role_cohort employees role) [].

(** Lines 94-100 *)
Definition fairness_by_role_of (employees : list Employee) (cfg : SchedulerConfig)
  (wh : gmap Z Q) (req_map : dict string Z) : dict string (dict Z Q) :=
  fold_left (fun acc item =>
               dict_set (fst item)
                 (fairness_penalty (hours_series_of employees wh (fst item)) (fst item)
                                   (weights cfg)) acc)
            req_map [].

(** [Series.astype(int)] (line 105) on an integer column: the id as a
    64-bit signed integer.  An id above [2^63 - 1], which makes the column
    one of unsigned 64-bit integers, wraps around. *)
Definition astype_int (x : Z) : Z := (x + 2 ^ 63) mod 2 ^ 64 - 2 ^ 63.

(** Lines 79-385: one day of the week. *)
Definition process_day (employees : list Employee) (shifts_sorted : list Shift)
  (cfg : SchedulerConfig) (acc : gmap Z Q * list Assignment) (day : Z)
  : result (gmap Z Q * list Assignment) :=
  let busy := is_busy_day day cfg in
  let day_shifts := filter (fun s => s_date s = day) shifts_sorted in
  match day_shifts with
  | [] => Ok acc
  | _ :: _ =>
      do req_map <- Baseline.build_requirements_for_day day cfg;
      let fairness_by_role := fairness_by_role_of employees cfg (fst acc) req_map in
      let shift_ids := map (fun s => astype_int (s_shift_id s)) day_shifts in
      do ds <- process_roles employees cfg day busy shift_ids fairness_by_role
                 {| d_weekly_hours := fst acc; d_assignments := snd acc;
                    d_assigned_today := ∅ |} req_map;
      Ok (d_weekly_hours ds, d_assignments ds)
  end.

Fixpoint process_days (employees : list Employee) (shifts_sorted : list Shift)
  (cfg : SchedulerConfig) (acc : gmap Z Q * list Assignment) (days : list Z)
  : result (gmap Z Q * list Assignment) :=
  match days with
  | [] => Ok acc
  | day :: rest =>
      do acc <- process_day employees shifts_sorted cfg acc day;
      process_days employees shifts_sorted cfg acc rest
  end.

(** engine_baseline.greedy_schedule *)
Definition greedy_schedule (employees_df : list Employee) (shifts_df : list Shift)
  (cfg : SchedulerConfig) : result (list Assignment) :=
  let shifts_df := merge_sort shift_le shifts_df in
  let days := schedule_days shifts_df cfg in
  do final <- process_days employees_df shifts_df cfg (∅, []) days;
  Ok (snd final).

End Engine.

(** ** The validators *)

Definition dt_lt (a b : datetime) : bool :=
  (dt_date a <? dt_date b)
  || ((dt_date a =? dt_date b) && (minutes_of (dt_time a) <? minutes_of (dt_time b))).

(** The number of assignment rows of a role on a date
    ([groupby(["date", "role"]).size()]). *)
Definition assignment_count (assignments_df : list Assignment) (date : Z) (role : string) : Z :=
  Z.of_nat (length (filter (fun a => asg_date a = date ∧ asg_role a = role) assignments_df)).



(** *** Time-stamped rows

    greedy_schedule writes each time of an assignment as an ISO-8601 string
    with the UTC offset of [cfg.timezone] (lines 307-308,
    [data_io.to_iso_with_tz]), and the DataFrame validators parse these
    strings back.  A parsed time is the local date and time together with
    its offset, in minutes east of UTC. *)
Record stamp := Stamp { st_local : datetime; st_offset : Z }.

(** The instant of a time stamp, in minutes. *)
Definition utc_minutes (s : stamp) : Z :=
  dt_date (st_local s) * 1440 + minutes_of (dt_time (st_local s)) - st_offset s.

(** [.dt.tz_convert(None)] followed by [.dt.date] or by
    [.dt.strftime("%Y-%m-%d")]: the date of the instant in UTC. *)
Definition utc_date (s : stamp) : Z := utc_minutes s / 1440.

(** [a < b] on time-zone-aware timestamps compares instants. *)
Definition stamp_lt (a b : stamp) : bool := utc_minutes a <? utc_minutes b.

(** A row of the assignments DataFrame: the fields of the assignment with
    the offsets its two time strings carry. *)
Record Row := {
  r_assignment : Assignment;
  r_start_offset : Z;
  r_end_offset : Z
}.

Definition row_start (r : Row) : stamp :=
  Stamp (start_time (r_assignment r)) (r_start_offset r).
Definition row_end (r : Row) : stamp :=
  Stamp (end_time (r_assignment r)) (r_end_offset r).

(** [(end_time - start_time).dt.total_seconds() / 3600.0] *)
Definition row_hours (r : Row) : Q :=
  (utc_minutes (row_end r) - utc_minutes (row_start r)) # 60.

(** data_io.to_iso_with_tz, for a zone given by its offset [tz] at each
    local time. *)
Definition to_iso_with_tz (tz : datetime -> Z) (dt : datetime) : stamp :=
  Stamp dt (tz dt).

Definition row_of (tz : datetime -> Z) (a : Assignment) : Row :=
  {| r_assignment := a;
     r_start_offset := st_offset (to_iso_with_tz tz (start_time a));
     r_end_offset := st_offset (to_iso_with_tz tz (end_time a)) |}.

(** The range of a 64-bit signed integer, on which [astype(int)] changes
    nothing. *)
Definition int64 (x : Z) : Prop := - 2 ^ 63 ≤ x < 2 ^ 63.

#[global] Instance int64_dec (x : Z) : Decision (int64 x).
Proof. unfold int64. apply _. Defined.

(** A time of day [datetime.time] accepts. *)
Definition valid_time (t : hm) : Prop := 0 ≤ hour t < 24 ∧ 0 ≤ minute t < 60.

#[global] Instance valid_time_dec (t : hm) : Decision (valid_time t).
Proof. unfold valid_time. apply _. Defined.

(** A DataFrame of assignments: [None] is the frame without columns, which
    is what [pd.DataFrame([])] builds. *)
Definition frame := option (list Row).

(** Lines 387-402 of engine_baseline.py: the DataFrame greedy_schedule
    returns for its list of assignments. *)
Definition assignments_frame (tz : datetime -> Z) (assignments : list Assignment) : frame :=
  match assignments with
  | [] => None
  | _ :: _ => Some (map (row_of tz) assignments)
  end.

(** The number of rows of a role whose start falls on a date in UTC
    (validator.py lines 90-91). *)
Definition utc_count (rows : list Row) (date : Z) (role : string) : Z :=
  Z.of_nat (length (filter (fun r => utc_date (row_start r) = date
                                     ∧ asg_role (r_assignment r) = role) rows)).

Module Validator.

(** Names a module binds; the values the validator would read from them. *)
Inductive pyval :=
  | VCaps (caps : dict string Q)
  | VCap (cap : option Q)
  | VObject.

(** validator.py binds these names at module level and no others. *)
Definition module_globals : dict string pyval :=
  [("annotations", VObject); ("Dict", VObject); ("pd", VObject);
   ("has_overlap", VObject); ("within_cafe_hours", VObject);
   ("validate_assignments", VObject); ("summarize_assignments", VObject)].

(** The parameters and local variables of [validate_assignments]. *)
Definition function_locals : list string :=
  ["employees_df"; "shifts_df"; "assignments_df"; "start_hm"; "end_hm";
   "requirements_by_date"; "emp_ids"; "shift_ids"; "emp_roles"; "merged";
   "non_sandwich"; "invalid_starts"; "invalid_ends"; "invalid_minutes";
   "sandwich_assignments"; "invalid_sandwich_ends"; "ts"; "weekly"; "row";
   "role"; "cap"; "weekly_emp"; "counts"; "date_str"; "role_req"; "needed"; "got"].

(** The built-in names the function uses. *)
Definition builtins : dict string pyval :=
  [("set", VObject); ("int", VObject); ("float", VObject); ("str", VObject);
   ("len", VObject); ("ValueError", VObject)].

(** Loading a name that is not local: module globals, then builtins, else
    NameError. *)
Definition load_name (globals : dict string pyval) (name : string) : result pyval :=
  match dict_get name globals with
  | Some v => Ok v
  | None =>
      match dict_get name builtins with
      | Some v => Ok v
      | None => Raise (NameError name)
      end
  end.

Definition check (ok : bool) (msg : string) : result unit :=
  if ok then Ok tt else Raise (ValueError msg).

(** [assignments_df[column]]: KeyError on the frame without columns. *)
Definition column (assignments_df : frame) (name : string) : result (list Row) :=
  match assignments_df with
  | Some rows => Ok rows
  | None => Raise (ColumnKeyError name)
  end.

(** [pd.to_datetime] of a column of strings that all carry one offset is a
    time-zone-aware column; of strings with several offsets it is a column
    of objects, on which the [.dt] accessor raises AttributeError. *)
Definition one_offset (offsets : list Z) : bool :=
  match offsets with
  | [] => true
  | o :: rest => forallb (Z.eqb o) rest
  end.

Definition dt_accessor (offsets : list Z) : result unit :=
  if one_offset offsets then Ok tt else Raise (AttributeError "dt").

(** Lines 19-24 *)
Definition referential_integrity (employees_df : list Employee) (shifts_df : list Shift)
  (assignments_df : frame) : result unit :=
  let emp_ids := map employee_id employees_df in
  let shift_ids := map s_shift_id shifts_df in
  do rows <- column assignments_df "emp_id";
  do _ <- check (forallb (fun r => bool_decide (emp_id (r_assignment r) ∈ emp_ids)) rows)
            "Assignments reference unknown employee ids";
  check (forallb (fun r => bool_decide (shift_id (r_assignment r) ∈ shift_ids)) rows)
        "Assignments reference unknown shift ids".

(** [assignments_df.merge(emp_roles, how="left")]: one row per matching
    employee row, the role upper-cased; an unmatched assignment keeps a
    null role. *)
Definition merge_roles (employees_df : list Employee) (rows : list Row)
  : list (Row * option string) :=
  flat_map (fun r =>
              match filter (fun e => employee_id e = emp_id (r_assignment r)) employees_df with
              | [] => [(r, None)]
              | es => map (fun e => (r, Some (upper (primary_role e)))) es
              end) rows.

(** Lines 33-60.  The hour and the minute of a time-zone-aware column are
    those of the local time.  The two time columns of [merged] are
    converted as a whole, so the [.dt] accessor of a subset fails when the
    whole column holds several offsets. *)
Definition cafe_hours (merged : list (Row * option string)) : result unit :=
  let start_offsets := map (fun m => r_start_offset (fst m)) merged in
  let end_offsets := map (fun m => r_end_offset (fst m)) merged in
  let non_sandwich := filter (fun m => snd m ≠ Some "SANDWICH") merged in
  let sandwich_assignments := filter (fun m => snd m = Some "SANDWICH") merged in
  do _ <- match non_sandwich with
          | [] => Ok tt
          | _ :: _ =>
              do _ <- dt_accessor start_offsets;
              do _ <- check (forallb (fun m => negb (hour (dt_time (start_time
                                                 (r_assignment (fst m)))) <? 7)) non_sandwich)
                        "Non-SANDWICH shifts start before cafe hours (07:00)";
              do _ <- dt_accessor end_offsets;
              do _ <- check (forallb (fun m => negb (15 <? hour (dt_time (end_time
                                                 (r_assignment (fst m)))))) non_sandwich)
                        "Non-SANDWICH shifts end after cafe hours (15:00)";
              check (forallb (fun m => minute (dt_time (end_time (r_assignment (fst m)))) =? 0)
                             non_sandwich)
                    "Non-SANDWICH shifts don't end on the hour"
          end;
  match sandwich_assignments with
  | [] => Ok tt
  | _ :: _ =>
      do _ <- dt_accessor end_offsets;
      check (forallb (fun m => negb (15 <? hour (dt_time (end_time (r_assignment (fst m))))))
                     sandwich_assignments)
            "SANDWICH shifts end after cafe closing (15:00)"
  end.

(** constraints.has_overlap: rows sorted by (emp_id, date, start_time),
    where the date is the UTC date of the start and times compare as
    instants; within a group, a row starting before the previous row's
    end. *)
Definition overlap_key_le (a b : Row) : Prop :=
  emp_id (r_assignment a) < emp_id (r_assignment b)
  ∨ (emp_id (r_assignment a) = emp_id (r_assignment b)
     ∧ (utc_date (row_start a) < utc_date (row_start b)
        ∨ (utc_date (row_start a) = utc_date (row_start b)
           ∧ utc_minutes (row_start a) ≤ utc_minutes (row_start b)))).

#[global] Instance overlap_key_le_dec : RelDecision overlap_key_le.
Proof. intros a b. unfold overlap_key_le. apply _. Defined.

Fixpoint adjacent_overlap (l : list Row) : bool :=
  match l with
  | a :: (b :: _) as l' =>
      ((emp_id (r_assignment a) =? emp_id (r_assignment b))
       && (utc_date (row_start a) =? utc_date (row_start b))
       && stamp_lt (row_start b) (row_end a))
      || adjacent_overlap l'
  | _ => false
  end.

Definition has_overlap (assignments_df : frame) : result bool :=
  match assignments_df with
  | None | Some [] => Ok false
  | Some rows =>
      do _ <- dt_accessor (map r_start_offset rows);
      Ok (adjacent_overlap (merge_sort overlap_key_le rows))
  end.

(** Lines 69-71: the hours column. *)
Definition hours_column (rows : list Row) : result unit :=
  do _ <- dt_accessor (map r_start_offset rows);
  dt_accessor (map r_end_offset rows).

(** Lines 72-82: the per-role weekly cap, entered when [per_role_caps] is
    truthy. *)
Definition hours_of_emp (rows : list (Row * option string)) (e : Z) (role : option string) : Q :=
  Qsum (map (fun m => row_hours (fst m))
            (filter (fun m => emp_id (r_assignment (fst m)) = e ∧ snd m = role) rows)).

Definition role_caps_check (employees_df : list Employee) (rows : list Row)
  (per_role_caps : dict string Q) : result unit :=
  let merged := merge_roles employees_df rows in
  check (forallb (fun m =>
                    match snd m with
                    | None => true
                    | Some role =>
                        match dict_get (upper role) per_role_caps with
                        | None => true
                        | Some cap =>
                            negb (Qltb (cap + (1 # 1000000))
                                       (hours_of_emp merged (emp_id (r_assignment (fst m)))
                                                     (snd m)))
                        end
                    end) merged)
        "Weekly hours exceed hard cap for role".

(** Lines 83-86 *)
Definition global_cap_check (rows : list Row) (cap : Q) : result unit :=
  check (forallb (fun a =>
                    negb (Qltb (cap + (1 # 1000000))
                               (Qsum (map row_hours
                                        (filter (fun b => emp_id (r_assignment b)
                                                          = emp_id (r_assignment a)) rows)))))
                 rows)
        "Weekly hours exceed global hard cap for some employees".

(** Lines 92-98: one (role, needed) item of one date *)
Definition coverage_pair_ok (rows : list Row) (date : Z) (item : string * Z) : bool :=
  utc_count rows date (fst item) =? snd item.

(** [.dt.tz_convert(None)] (line 90): a column without rows converts to a
    column without time zone, on which tz_convert raises TypeError. *)
Definition tz_convert (offsets : list Z) : result unit :=
  do _ <- dt_accessor offsets;
  match offsets with
  | [] => Raise (TypeError "tz_convert")
  | _ :: _ => Ok tt
  end.

(** Lines 88-98: the rows are counted under the UTC date of their start. *)
Definition coverage_check (rows : list Row)
  (requirements_by_date : option (dict Z (dict string Z))) : result unit :=
  match requirements_by_date with
  | None => Ok tt
  | Some reqs =>
      do _ <- tz_convert (map r_start_offset rows);
      check (forallb (fun dr => forallb (coverage_pair_ok rows (fst dr)) (snd dr)) reqs)
            "Coverage mismatch"
  end.

(** validator.validate_assignments, run in a module whose global names are
    [globals]. *)
Definition validate_assignments_in (globals : dict string pyval)
  (employees_df : list Employee) (shifts_df : list Shift)
  (assignments_df : frame) (start_hm end_hm : hm)
  (requirements_by_date : option (dict Z (dict string Z))) : result unit :=
  do _ <- referential_integrity employees_df shifts_df assignments_df;
  do rows <- column assignments_df "emp_id";
  do _ <- cafe_hours (merge_roles employees_df rows);
  do overlap <- has_overlap assignments_df;
  do _ <- check (negb overlap)
            "Overlapping assignments detected for an employee within a day";
  do _ <- hours_column rows;
  do per_role_caps <- load_name globals "per_role_caps";
  do _ <- match per_role_caps with
          | VCaps (_ :: _ as caps) => role_caps_check employees_df rows caps
          | _ => Ok tt
          end;
  do global_hard_cap <- load_name globals "global_hard_cap";
  do _ <- match global_hard_cap with
          | VCap (Some cap) => global_cap_check rows cap
          | _ => Ok tt
          end;
  coverage_check rows requirements_by_date.

Definition validate_assignments := validate_assignments_in module_globals.

End Validator.

Module CpSatValidator.

(** [assign.role or "UNKNOWN"] *)
Definition role_or_unknown (a : Assignment) : string :=
  if String.eqb (asg_role a) "" then "UNKNOWN" else asg_role a.

(** [assignments_by_date[shift_date].get(role, 0)] *)
Definition actual_count (assignments : list Assignment) (date : Z) (role : string) : Z :=
  Z.of_nat (length (filter (fun a => asg_date a = date ∧ role_or_unknown a = role) assignments)).

Record coverage_error := {
  ce_date : Z; ce_role : string; ce_expected : Z; ce_got : Z
}.

(** ai/validator.py lines 56-70: the errors the coverage step appends *)
Definition pair_errors (assignments : list Assignment) (date : Z) (item : string * Z)
  : list coverage_error :=
  let role := upper (fst item) in
  let required_count := snd item in
  let actual := actual_count assignments date role in
  if actual =? required_count then []
  else [{| ce_date := date; ce_role := role; ce_expected := required_count; ce_got := actual |}].

Definition coverage_errors (assignments : list Assignment) (shifts : list Shift)
  (cfg : SchedulerConfig) : list coverage_error :=
  flat_map (fun date =>
              flat_map (pair_errors assignments date)
                       (Services.build_requirements_for_day date cfg))
           (unique (map s_date shifts)).

End CpSatValidator.

(** ** Properties of a schedule *)

(** The rows of a cohort are in ascending order of employee id. *)
Definition id_le (a b : Employee) : Prop := employee_id a ≤ employee_id b.

(** The number of assignments of employee [e] on date [d]. *)
Definition count_on (e d : Z) (asgs : list Assignment) : nat :=
  length (filter (fun a => emp_id a = e ∧ asg_date a = d) asgs).

(** The sum of the actual durations of the assignments of employee [e]. *)
Definition total_hours (e : Z) (asgs : list Assignment) : Q :=
  Qsum (map asg_hours (filter (fun a => emp_id a = e) asgs)).

Definition has_assignment (e : Z) (asgs : list Assignment) : Prop :=
  exists a, a ∈ asgs /\ emp_id a = e.

(** What holds of the ledger and the assignment list between two days of a
    run: [seen] are the days already processed. *)
Record week_inv (employees : list Employee) (cfg : SchedulerConfig) (seen : list Z)
  (wh : gmap Z Q) (asgs : list Assignment) : Prop := {
  wk_dates : forall a, a ∈ asgs -> asg_date a ∈ seen;
  wk_unique : forall e d, (count_on e d asgs <= 1)%nat;
  wk_ledger : forall e, wh_get wh e == total_hours e asgs;
  wk_cap : NoDup (map employee_id employees) ->
           forall r, r ∈ employees -> has_assignment (employee_id r) asgs ->
             (wh_get wh (employee_id r) <= role_hard_cap cfg (upper (primary_role r)))%Q
}.

(** What holds while the roles of [day] are being filled. *)
Record day_inv (employees : list Employee) (cfg : SchedulerConfig) (day : Z)
  (seen : list Z) (wh : gmap Z Q) (asgs : list Assignment) (today : gset Z) : Prop := {
  dy_today : forall a, a ∈ asgs -> asg_date a = day -> emp_id a ∈ today;
  dy_week : week_inv employees cfg (day :: seen) wh asgs
}.

(** A role context built from the employees table for [cfg] and [day]. *)
Definition cx_ok (employees : list Employee) (cfg : SchedulerConfig) (day : Z)
  (cx : RoleCtx) : Prop :=
  cx_cfg cx = cfg /\ cx_day cx = day
  /\ forall r, r ∈ cx_candidates cx -> r ∈ employees /\ upper (primary_role r) = cx_role cx.

(** The day invariant read off the state of the slot loop and off the
    state carried between roles. *)
Definition loop_inv (employees : list Employee) (cfg : SchedulerConfig) (day : Z)
  (seen : list Z) (st : LoopState) : Prop :=
  day_inv employees cfg day seen (weekly_hours st) (assignments st) (assigned_today st).

Definition ds_inv (employees : list Employee) (cfg : SchedulerConfig) (day : Z)
  (seen : list Z) (ds : DayState) : Prop :=
  day_inv employees cfg day seen (d_weekly_hours ds) (d_assignments ds) (d_assigned_today ds).

(** ** Sample inputs

    The employees and week of tests/test_engine.py, the default
    configuration of config.py, and a rational stand-in for the square root
    with which the examples are run. *)

Definition approx_sqrt (q : Q) : Q :=
  Z.sqrt (Qnum q * 1000000 * 1000000 / Z.pos (Qden q)) # 1000000.

Definition mk_emp (id : Z) (role : string) (coffee_s sandwich_s cs speed_s : option Q)
  : Employee :=
  {| employee_id := id; primary_role := role; skill_coffee := coffee_s;
     skill_sandwich := sandwich_s; customer_service_rating := cs;
     skill_speed := speed_s |}.

Definition employees_basic : list Employee :=
  [ mk_emp 1 "MANAGER" None None None None;
    mk_emp 2 "BARISTA" (Some 5%Q) None (Some 3%Q) (Some 4%Q);
    mk_emp 3 "BARISTA" (Some 4%Q) None (Some 4%Q) (Some 3%Q);
    mk_emp 4 "WAITER" None None (Some 5%Q) (Some 3%Q);
    mk_emp 5 "SANDWICH" None (Some 5%Q) None None ].

Definition default_cfg : SchedulerConfig :=
  {| default_shift := {| ds_start := HM 7 0; ds_end := HM 15 0; duration_hours := 8 |};
     default_requirements := [("MANAGER", 1); ("BARISTA", 2); ("WAITER", 1); ("SANDWICH", 1)];
     weekend_requirements := None;
     overrides := [];
     hours_caps := {| max_hours_per_week_per_employee := 40 |};
     weights := {| manager_weight := 1; coffee := 1; sandwich := 1; speed := 1 # 2;
                   customer_service := 1 # 2;
                   fairness_penalty_per_std_above_median := 1 # 4 |};
     busy_days := ["Saturday"; "Sunday"];
     role_time_windows := [];
     hours_policy := [];
     hours_penalties := {| per_hour_below_target := Some (1 # 2)%Q;
                           per_hour_above_target := Some (3 # 4)%Q |};
     global_hard_cap := None;
     schedule_busy_days_first := false;
     weekend_fallback := [] |}.

(** 2025-09-01 (a Monday) has ordinal 739495. *)
Definition monday : Z := 739495.
Definition friday : Z := 739499.
Definition saturday : Z := 739500.

Definition shifts_5_days : list Shift :=
  [ {| s_shift_id := 1; s_date := 739495 |}; {| s_shift_id := 2; s_date := 739496 |};
    {| s_shift_id := 3; s_date := 739497 |}; {| s_shift_id := 4; s_date := 739498 |};
    {| s_shift_id := 5; s_date := 739499 |} ].

Definition with_requirements (cfg : SchedulerConfig) (dflt : dict string Z)
  (wkend : option (dict string Z)) (busy : list string) : SchedulerConfig :=
  {| default_shift := default_shift cfg; default_requirements := dflt;
     weekend_requirements := wkend; overrides := overrides cfg;
     hours_caps := hours_caps cfg; weights := weights cfg; busy_days := busy;
     role_time_windows := role_time_windows cfg; hours_policy := hours_policy cfg;
     hours_penalties := hours_penalties cfg; global_hard_cap := global_hard_cap cfg;
     schedule_busy_days_first := schedule_busy_days_first cfg;
     weekend_fallback := weekend_fallback cfg |}.

Definition with_fallback (cfg : SchedulerConfig) (fb : dict string WeekendFallback)
  : SchedulerConfig :=
  {| default_shift := default_shift cfg; default_requirements := default_requirements cfg;
     weekend_requirements := weekend_requirements cfg; overrides := overrides cfg;
     hours_caps := hours_caps cfg; weights := weights cfg; busy_days := busy_days cfg;
     role_time_windows := role_time_windows cfg; hours_policy := hours_policy cfg;
     hours_penalties := hours_penalties cfg; global_hard_cap := global_hard_cap cfg;
     schedule_busy_days_first := schedule_busy_days_first cfg;
     weekend_fallback := fb |}.

(** A config whose busy day is Friday, with a busy-day count for BARISTA. *)
Definition cfg_friday_busy : SchedulerConfig :=
  with_requirements default_cfg [("BARISTA", 2)] (Some [("BARISTA", 3)]) ["Friday"].

(** The BARISTA slot context of a Monday under the default configuration,
    before anything has been assigned. *)
Definition barista_monday_cx (employees : list Employee) (cfg : SchedulerConfig) : RoleCtx :=
  role_ctx employees cfg monday false [1] [] "BARISTA" 1.

(** Two equally skilled baristas, listed with the higher id first. *)
Definition tie_employees : list Employee :=
  [ mk_emp 3 "BARISTA" (Some 4%Q) None (Some 4%Q) (Some 4%Q);
    mk_emp 2 "BARISTA" (Some 4%Q) None (Some 4%Q) (Some 4%Q) ].

Definition cfg_one_barista : SchedulerConfig :=
  with_requirements default_cfg [("BARISTA", 1)] None ["Saturday"; "Sunday"].

Definition policy_16_24 : dict string HoursPolicy :=
  [("BARISTA", {| target_min := Some 16%Q; target_max := Some 24%Q; hard_cap := Some 40%Q |})].

Definition with_hours_policy (cfg : SchedulerConfig) (p : dict string HoursPolicy)
  : SchedulerConfig :=
  {| default_shift := default_shift cfg; default_requirements := default_requirements cfg;
     weekend_requirements := weekend_requirements cfg; overrides := overrides cfg;
     hours_caps := hours_caps cfg; weights := weights cfg; busy_days := busy_days cfg;
     role_time_windows := role_time_windows cfg; hours_policy := p;
     hours_penalties := hours_penalties cfg; global_hard_cap := global_hard_cap cfg;
     schedule_busy_days_first := schedule_busy_days_first cfg;
     weekend_fallback := weekend_fallback cfg |}.

Definition barista_2 : Employee := mk_emp 2 "BARISTA" (Some 5%Q) None (Some 3%Q) (Some 4%Q).

Definition services_weights : dict string Q :=
  [("coffee", 1%Q); ("speed", 1 # 2); ("customer_service", 1 # 2)].

(** The schedule the engine returns for the test week. *)
Definition schedule_basic : list Assignment :=
  Eval vm_compute in
    match greedy_schedule approx_sqrt employees_basic shifts_5_days default_cfg with
    | Ok out => out
    | _ => []
    end.

(** Two baristas, a Monday configured as the busy day with three BARISTA
    slots, and the weekend fallback enabled for BARISTA with a minimum of
    one. *)
Definition barista_3 : Employee := mk_emp 3 "BARISTA" (Some 4%Q) None (Some 4%Q) (Some 3%Q).

Definition fallback_on : WeekendFallback :=
  {| enabled := Some true; min_required := Some 1; allow_single_full_shift := Some true |}.

Definition cfg_fallback : SchedulerConfig :=
  with_fallback (with_requirements default_cfg [("BARISTA", 3)] None ["Monday"])
                [("BARISTA", fallback_on)].

Definition monday_shift : list Shift := [{| s_shift_id := 1; s_date := monday |}].

Definition fallback_cx : RoleCtx :=
  role_ctx [barista_2; barista_3] cfg_fallback monday true [1]
    (fairness_by_role_of approx_sqrt [barista_2; barista_3] cfg_fallback ∅ [("BARISTA", 3)])
    "BARISTA" 3.

Definition fallback_st0 : LoopState :=
  {| weekly_hours := ∅; assignments := []; assigned_today := ∅; round_robin := [1];
     slots_assigned := 0; backtrack_buffer := [] |}.


Definition saturday_shift : list Shift := [{| s_shift_id := 6; s_date := saturday |}].

Definition one_barista_saturday : list Assignment :=
  [{| shift_id := 6; emp_id := 2;
      start_time := DateTime saturday (HM 7 0); end_time := DateTime saturday (HM 15 0);
      asg_role := "BARISTA"; shift_type := Some "weekend_double";
      day_type := Some "weekend" |}].

(** The offsets of two zones: UTC, and Australia/Sydney outside daylight
    saving (the dates of the samples are in September). *)
Definition utc_zone : datetime -> Z := fun _ => 0.
Definition sydney_standard : datetime -> Z := fun _ => 600.

(** The requirements by date that tests/test_engine.py passes to the
    validator for the test week. *)
Definition requirements_basic : dict Z (dict string Z) :=
  map (fun s => (s_date s, default_requirements default_cfg)) shifts_5_days.

(** validator.py's globals with the two names it reads but never binds. *)
Definition globals_with_caps : dict string Validator.pyval :=
  ("per_role_caps", Validator.VCaps [("BARISTA", 40%Q)])
  :: ("global_hard_cap", Validator.VCap (Some 50%Q))
  :: Validator.module_globals.


(** ** Configuration validation (config.py) *)

(** [a >= b] on zero-padded ["HH:MM"] strings, which order as the
    (hour, minute) pairs they spell. *)
Definition hm_ge (a b : hm) : bool :=
  (hour b <? hour a) || ((hour a =? hour b) && (minute b <=? minute a)).

Definition policy_complete (pol : HoursPolicy) : bool :=
  match target_min pol, target_max pol, hard_cap pol with
  | Some _, Some _, Some _ => true
  | _, _, _ => false
  end.

Definition policy_ordered (pol : HoursPolicy) : bool :=
  match target_min pol, target_max pol with
  | Some tmin, Some tmax => negb (Qltb tmax tmin)
  | _, _ => true
  end.

Definition raise_unless (ok : bool) (msg : string) : result unit :=
  if ok then Ok tt else Raise (ValueError msg).

(** Lines 182-187: each policy is checked for its keys, then for its
    order, before the next one is looked at. *)
Fixpoint validate_policies (policies : dict string HoursPolicy) : result unit :=
  match policies with
  | [] => Ok tt
  | (role, pol) :: rest =>
      do _ <- raise_unless (policy_complete pol) "hours_policy missing key";
      do _ <- raise_unless (policy_ordered pol) "hours_policy target_min > target_max";
      validate_policies rest
  end.

(** config._validate_config.  The [isinstance] test of lines 177-180 on the
    entries of [role_time_windows] holds by typing: an entry is a
    [RoleWindows] record. *)
Definition _validate_config (cfg : SchedulerConfig) : result unit :=
  do _ <- raise_unless (negb (duration_hours (default_shift cfg) <=? 0))
            "default_shift.duration_hours must be positive";
  do _ <- raise_unless (negb (hm_ge (ds_start (default_shift cfg)) (ds_end (default_shift cfg))))
            "default_shift.start must be before default_shift.end";
  do _ <- raise_unless (forallb (fun rc => negb (snd rc <? 0)) (default_requirements cfg))
            "default_requirements must be >= 0";
  do _ <- raise_unless
            (forallb (fun dm => forallb (fun rc => negb (snd rc <? 0)) (snd dm)) (overrides cfg))
            "override requirement must be >= 0";
  do _ <- raise_unless (negb (max_hours_per_week_per_employee (hours_caps cfg) <=? 0))
            "hours_caps.max_hours_per_week_per_employee must be positive";
  validate_policies (hours_policy cfg).


(** ** What a committed assignment records *)

(** The assignment lines 310-318 build for employee [e] on shift [sid]. *)
Definition slot_assignment (cx : RoleCtx) (sid e : Z) (start_hm end_hm : hm) : Assignment :=
  {| shift_id := sid; emp_id := e;
     start_time := DateTime (cx_day cx) start_hm;
     end_time := DateTime (cx_day cx) end_hm;
     asg_role := cx_role cx;
     shift_type := Some (cx_shift_type_label cx);
     day_type := Some (cx_day_type cx) |}.

(** What is known of an assignment [a] at the moment it is committed for
    [role] on [day], with ledger [wh]: the employee row it was chosen
    from, the caps that row was tested against, and the shift and window it
    was given. *)
Definition commit_facts (employees : list Employee) (cfg : SchedulerConfig) (day : Z)
  (shift_ids : list Z) (role : string) (wh : gmap Z Q) (a : Assignment) : Prop :=
  exists chosen start_hm end_hm,
    chosen ∈ employees
    /\ upper (primary_role chosen) = role
    /\ is_role_eligible (primary_role chosen) role = true
    /\ (wh_get wh (employee_id chosen) + slot_hours_of day start_hm end_hm
        <= role_hard_cap cfg role)%Q
    /\ (forall g, global_hard_cap cfg = Some g ->
          (wh_get wh (employee_id chosen) + slot_hours_of day start_hm end_hm <= g)%Q)
    /\ (start_hm, end_hm) ∈ fst (base_time_patterns cfg role (is_busy_day day cfg))
    /\ emp_id a = employee_id chosen
    /\ shift_id a ∈ shift_ids
    /\ start_time a = DateTime day start_hm
    /\ end_time a = DateTime day end_hm
    /\ asg_role a = role.

(** The shift ids of a day, as line 105 collects them: cast to 64-bit
    integers. *)
Definition day_shift_ids (shifts : list Shift) (day : Z) : list Z :=
  map (fun s => astype_int (s_shift_id s)) (filter (fun s => s_date s = day) shifts).

(** A property of the ledger and the assignment list that every commit
    preserves. *)
Definition commit_stable (employees : list Employee) (shifts : list Shift)
  (cfg : SchedulerConfig) (P : gmap Z Q -> list Assignment -> Prop) : Prop :=
  forall day role wh asgs a,
    P wh asgs ->
    commit_facts employees cfg day (day_shift_ids shifts day) role wh a ->
    P (wh_add wh (emp_id a) (asg_hours a)) (asgs ++ [a]).


(** An assignment is well formed for a table of employees and shifts: it
    names an employee row whose upper-cased primary role is the
    assignment's role, one of the four known roles; its shift id is the
    64-bit cast of the id of a shift of the date it starts and ends on; and
    its times are one of the role's windows for that day. *)
Definition asg_wf (employees : list Employee) (shifts : list Shift)
  (cfg : SchedulerConfig) (a : Assignment) : Prop :=
  (exists r, r ∈ employees /\ employee_id r = emp_id a
             /\ upper (primary_role r) = asg_role a)
  /\ asg_role a ∈ ROLES
  /\ (exists s, s ∈ shifts /\ astype_int (s_shift_id s) = shift_id a
                /\ s_date s = asg_date a)
  /\ dt_date (end_time a) = asg_date a
  /\ (dt_time (start_time a), dt_time (end_time a))
     ∈ fst (base_time_patterns cfg (asg_role a) (is_busy_day (asg_date a) cfg)).

(** The count the engine owes a role under a requirement map. *)
Definition required_of (req_map : dict string Z) (role : string) : Z :=
  match dict_get role req_map with
  | Some n => Z.max 0 n
  | None => 0
  end.

(** ** Hard constraints of the service layer (services/constraints.py) *)

Module ServicesConstraints.

(** can_assign_employee.  [shift_date] is not read by the function; the
    policy of a role without a [hard_cap] falls back on the global cap. *)
Definition can_assign_employee (employee : Employee) (role : string) (shift_hours : Q)
  (assigned_today : gset Z) (weekly_hours : gmap Z Q)
  (hours_policy : dict string HoursPolicy) (global_hard_cap : Q) : bool :=
  let emp_id := employee_id employee in
  if negb (String.eqb (upper (primary_role employee)) (upper role)) then false
  else if bool_decide (emp_id ∈ assigned_today) then false
  else
    let current_hours := wh_get weekly_hours emp_id in
    let post_assignment_hours := (current_hours + shift_hours)%Q in
    let role_hard_cap :=
      default global_hard_cap (dict_get (upper role) hours_policy ≫= hard_cap) in
    if Qltb role_hard_cap post_assignment_hours then false
    else if Qltb global_hard_cap post_assignment_hours then false
    else true.

(** Line 82: [{emp.employee_id: emp for emp in employees}]; the last row of
    an id is the one kept. *)
Definition emp_lookup (employees : list Employee) (e : Z) : option Employee :=
  dict_get e (map (fun emp => (employee_id emp, emp)) employees).

(** Lines 85-96: the assignments by employee, then by date, both in order
    of first appearance. *)
Definition emp_by_date (assignments : list Assignment)
  : list (Z * list (Z * list Assignment)) :=
  map (fun e =>
         let mine := filter (fun a => emp_id a = e) assignments in
         (e, map (fun d => (d, filter (fun a => asg_date a = d) mine))
                 (unique (map asg_date mine))))
      (unique (map emp_id assignments)).

(** Line 105 *)
Definition overlaps (a1 a2 : Assignment) : bool :=
  dt_lt (start_time a1) (end_time a2) && dt_lt (start_time a2) (end_time a1).

(** Lines 103-105: some [a1] overlaps an [a2] that comes later in the list. *)
Fixpoint pair_overlap (day_assigns : list Assignment) : bool :=
  match day_assigns with
  | [] => false
  | a1 :: rest => existsb (overlaps a1) rest || pair_overlap rest
  end.

(** Lines 121-123: the cap is looked up under the employee's role as
    stored, with 40 hours when the role has no policy or no [hard_cap]. *)
Definition hard_cap_of (cfg : SchedulerConfig) (emp : Employee) : Q :=
  default 40%Q (dict_get (primary_role emp) (hours_policy cfg) ≫= hard_cap).

(** Lines 132-146: the hours of the day, for every assignment of a known
    employee whose role is not SANDWICH; the minutes are not read. *)
Fixpoint cafe_hours_loop (employees : list Employee) (assignments : list Assignment)
  : result unit :=
  match assignments with
  | [] => Ok tt
  | assign :: rest =>
      do _ <- match emp_lookup employees (emp_id assign) with
              | Some emp =>
                  if negb (String.eqb (primary_role emp) "SANDWICH") then
                    do _ <- raise_unless (negb (hour (dt_time (start_time assign)) <? 7))
                              "Assignment starts before cafe hours (07:00)";
                    raise_unless (negb (15 <? hour (dt_time (end_time assign))))
                      "Assignment ends after cafe hours (15:00)"
                  else Ok tt
              | None => Ok tt
              end;
      cafe_hours_loop employees rest
  end.

(** validate_assignment_constraints *)
Definition validate_assignment_constraints (assignments : list Assignment)
  (employees : list Employee) (cfg : SchedulerConfig) : result unit :=
  do _ <- raise_unless
            (negb (existsb
                     (fun by_emp =>
                        existsb (fun by_date =>
                                   (1 <? length (snd by_date))%nat
                                   && pair_overlap (snd by_date))
                                (snd by_emp))
                     (emp_by_date assignments)))
            "Employee has overlapping assignments";
  do _ <- raise_unless
            (forallb (fun e =>
                        match emp_lookup employees e with
                        | Some emp =>
                            negb (Qltb (hard_cap_of cfg emp) (total_hours e assignments))
                        | None => true
                        end)
                     (unique (map emp_id assignments)))
            "Employee exceeds weekly hard cap";
  cafe_hours_loop employees assignments.

End ServicesConstraints.

(** ** Skills from history (ai/skill_loader.py) *)

Module SkillLoader.

(** The dict load_averaged_skills builds for an employee: the four keys are
    always present, and a skill without a numeric value stays [None]. *)
Record skill_dict := {
  coffee_rating : option Q;
  sandwich_rating : option Q;
  customer_service_rating : option Q;
  speed_rating : option Q
}.

(** [if skills[key] is not None: emp.attr = skills[key]] *)
Definition overwrite (average current : option Q) : option Q :=
  match average with
  | Some v => Some v
  | None => current
  end.

(** Lines 69-80: the body of the loop for one employee object. *)
Definition update_employee (emp : Employee) (skill_averages : gmap Z skill_dict) : Employee :=
  match skill_averages !! employee_id emp with
  | Some skills =>
      let 'Build_Employee id role emp_coffee emp_sandwich emp_service emp_speed := emp in
      Build_Employee id role
        (overwrite (coffee_rating skills) emp_coffee)
        (overwrite (sandwich_rating skills) emp_sandwich)
        (overwrite (customer_service_rating skills) emp_service)
        (overwrite (speed_rating skills) emp_speed)
  | None => emp
  end.

(** update_employee_skills_from_history: the objects of the list are
    updated in place; the list after the call is returned. *)
Definition update_employee_skills_from_history (employees : list Employee)
  (skill_averages : gmap Z skill_dict) : list Employee :=
  map (fun emp => update_employee emp skill_averages) employees.

End SkillLoader.

(** ** The verdict of validate_cp_sat_schedule (ai/validator.py) *)

Module CpSatVerdict.

(** Lines 72-84: the (employee, date) groups with more than one assignment. *)
Definition multiple_assignments (assignments : list Assignment) : list (Z * Z * nat) :=
  flat_map (fun by_emp =>
              flat_map (fun by_date =>
                          if (1 <? length (snd by_date))%nat
                          then [(fst by_emp, fst by_date, length (snd by_date))]
                          else [])
                       (snd by_emp))
           (ServicesConstraints.emp_by_date assignments).

(** Lines 86-96: the assignments with a role whose employee is known and
    has another primary role. *)
Definition role_mismatch (employees : list Employee) (assign : Assignment) : bool :=
  match ServicesConstraints.emp_lookup employees (emp_id assign) with
  | Some emp =>
      negb (String.eqb (asg_role assign) EmptyString)
      && negb (String.eqb (upper (primary_role emp)) (upper (asg_role assign)))
  | None => false
  end.

Definition role_mismatches (assignments : list Assignment) (employees : list Employee)
  : list Assignment :=
  filter (fun assign => role_mismatch employees assign = true) assignments.

(** [results['valid']] when the function returns: [false] after a
    ValueError of the constraint validator (the other steps are skipped),
    else whether steps 2 to 4 appended no error.  Steps 5 and 6 add
    warnings and statistics only. *)
Definition valid (assignments : list Assignment) (employees : list Employee)
  (shifts : list Shift) (cfg : SchedulerConfig) : result bool :=
  match ServicesConstraints.validate_assignment_constraints assignments employees cfg with
  | Raise (ValueError _) => Ok false
  | Raise e => Raise e
  | OutOfFuel => OutOfFuel
  | Ok _ =>
      Ok (bool_decide (CpSatValidator.coverage_errors assignments shifts cfg = [])
          && bool_decide (multiple_assignments assignments = [])
          && bool_decide (role_mismatches assignments employees = []))
  end.

End CpSatVerdict.

(** ** Further sample inputs *)

Definition with_global_cap (cfg : SchedulerConfig) (g : option Q) : SchedulerConfig :=
  {| default_shift := default_shift cfg; default_requirements := default_requirements cfg;
     weekend_requirements := weekend_requirements cfg; overrides := overrides cfg;
     hours_caps := hours_caps cfg; weights := weights cfg; busy_days := busy_days cfg;
     role_time_windows := role_time_windows cfg; hours_policy := hours_policy cfg;
     hours_penalties := hours_penalties cfg; global_hard_cap := g;
     schedule_busy_days_first := schedule_busy_days_first cfg;
     weekend_fallback := weekend_fallback cfg |}.


(** A BARISTA policy with a hard cap, and a global cap of 50 hours. *)
Definition cfg_policy_and_cap : SchedulerConfig :=
  with_global_cap (with_hours_policy default_cfg policy_16_24) (Some 50%Q).

(** Two assignments of employee 2 on one Saturday, the second starting
    before the first ends. *)
Definition overlapping_pair : list Assignment :=
  [{| shift_id := 6; emp_id := 2;
      start_time := DateTime saturday (HM 7 0); end_time := DateTime saturday (HM 15 0);
      asg_role := "BARISTA"; shift_type := None; day_type := None |};
   {| shift_id := 6; emp_id := 2;
      start_time := DateTime saturday (HM 12 0); end_time := DateTime saturday (HM 16 0);
      asg_role := "BARISTA"; shift_type := None; day_type := None |}].






(** A configuration that asks for no one: zero BARISTA slots a day. *)
Definition cfg_no_one_required : SchedulerConfig :=
  with_requirements default_cfg [("BARISTA", 0)] None ["Saturday"; "Sunday"].

(** The slot-loop state in which a role of a day starts. *)
Definition loop_start (shift_ids : list Z) : LoopState :=
  {| weekly_hours := ∅; assignments := []; assigned_today := ∅; round_robin := shift_ids;
     slots_assigned := 0; backtrack_buffer := [] |}.

(** The state of a slot loop whose two baristas are both taken today. *)
Definition baristas_taken : LoopState :=
  {| weekly_hours := ∅; assignments := one_barista_saturday; assigned_today := {[2; 3]};
     round_robin := [1]; slots_assigned := 1;
     backtrack_buffer := map (fun a => (0%nat, a)) one_barista_saturday |}.

(** Hours of two employees of a cohort. *)
Definition cohort_0_8 : gmap Z Q := <[1 := 0%Q]> (<[2 := 8%Q]> ∅).

(** * Properties *)

(** ** Dictionaries *)

Section DictLemmas.
Context {K V : Type} `{EqDecision K}.
Implicit Types (d : dict K V) (k : K) (v : V).

Lemma dict_get_app k d1 d2 :
  dict_get k (d1 ++ d2) =
  match dict_get k d2 with Some v => Some v | None => dict_get k d1 end.
Proof.
  induction d1 as [|[k' v'] d1 IH]; simpl.
  - destruct (dict_get k d2); reflexivity.
  - rewrite IH. destruct (dict_get k d2); reflexivity.
Qed.

Lemma dict_get_map_set k k' v d :
  dict_get k (map (fun kv => if decide (fst kv = k') then (fst kv, v) else kv) d) =
  match dict_get k d with
  | Some w => if decide (k' = k) then Some v else Some w
  | None => None
  end.
Proof.
  induction d as [|[k0 v0] d IH]; simpl; [reflexivity|].
  destruct (decide (k0 = k')) as [->|Hne]; simpl; rewrite IH;
    destruct (dict_get k d); simpl;
    repeat (destruct (decide _); simpl; subst; try congruence).
Qed.

Lemma dict_get_set k k' v d :
  dict_get k (dict_set k' v d) = if decide (k' = k) then Some v else dict_get k d.
Proof.
  unfold dict_set, dict_has. case_bool_decide as Hh.
  - rewrite dict_get_map_set. destruct (decide (k' = k)) as [->|].
    + destruct Hh as [w ->]. reflexivity.
    + destruct (dict_get k d); reflexivity.
  - rewrite dict_get_app. simpl. destruct (decide (k' = k)) as [->|]; [reflexivity|].
    reflexivity.
Qed.

Lemma dict_get_update k (base overlay : dict K V) :
  dict_get k (dict_update base overlay) =
  match dict_get k overlay with Some v => Some v | None => dict_get k base end.
Proof.
  unfold dict_update. revert base.
  induction overlay as [|[k' v'] ov IH]; intros base; simpl; [reflexivity|].
  rewrite IH, dict_get_set. destruct (dict_get k ov); [reflexivity|].
  destruct (decide (k' = k)); reflexivity.
Qed.

End DictLemmas.

(** ** Requirement resolution *)

Lemma services_requirements_layered date cfg role :
  dict_get role (Services.build_requirements_for_day date cfg)
  = layered_requirement date cfg role.
Proof.
  unfold Services.build_requirements_for_day, layered_requirement, apply_overrides.
  destruct (dict_get date (overrides cfg)) as [ov|].
  - rewrite dict_get_update. destruct (dict_get role ov); [reflexivity|].
    destruct (is_weekend date); [|reflexivity]. apply dict_get_update.
  - destruct (is_weekend date); [|reflexivity]. apply dict_get_update.
Qed.

Lemma baseline_requirements_services date cfg req :
  Baseline.build_requirements_for_day date cfg = Ok req ->
  req = Services.build_requirements_for_day date cfg.
Proof.
  unfold Baseline.build_requirements_for_day, Services.build_requirements_for_day.
  destruct (is_weekend date).
  - destruct (weekend_requirements cfg); simpl; congruence.
  - simpl. congruence.
Qed.

(** C6 (amended): the resolved requirement map is the defaults, overlaid
    role by role with the weekend requirements exactly when the date is a
    Saturday or Sunday (whatever [cfg.busy_days] says), then overlaid role by
    role with the override of the date; a role's count is always taken whole
    from the last layer that binds it.  This holds for the services resolver
    on every input and for the baseline resolver whenever it returns a map. *)
Theorem C6_requirements_layered_on_weekend :
  forall date cfg,
    (forall role,
        dict_get role (Services.build_requirements_for_day date cfg)
        = layered_requirement date cfg role)
    /\ (forall req,
           Baseline.build_requirements_for_day date cfg = Ok req ->
           forall role, dict_get role req = layered_requirement date cfg role).
Proof.
  intros date cfg. split.
  - intros role. apply services_requirements_layered.
  - intros req Hreq role. apply baseline_requirements_services in Hreq. subst req.
    apply services_requirements_layered.
Qed.

Lemma C6_requirements_layered_witness :
  Baseline.build_requirements_for_day monday default_cfg
  = Ok (default_requirements default_cfg)
  /\ dict_get "BARISTA" (default_requirements default_cfg)
     = layered_requirement monday default_cfg "BARISTA".
Proof.
  split; [reflexivity|].
  exact (proj2 (C6_requirements_layered_on_weekend monday default_cfg)
               (default_requirements default_cfg) eq_refl "BARISTA").
Defined.

(** C6 as stated fails: with Friday configured as the only busy day, the
    busy-day count of BARISTA (3) is not applied on a Friday, where both
    resolvers return the default (2), and is applied on a Saturday, which
    the configuration does not list as busy. *)
Lemma C6_busy_day_set_not_consulted :
  (is_busy_day friday cfg_friday_busy = true
   /\ layered_requirement_busy friday cfg_friday_busy "BARISTA" = Some 3
   /\ dict_get "BARISTA" (Services.build_requirements_for_day friday cfg_friday_busy) = Some 2
   /\ Baseline.build_requirements_for_day friday cfg_friday_busy = Ok [("BARISTA", 2)])
  /\ (is_busy_day saturday cfg_friday_busy = false
      /\ layered_requirement_busy saturday cfg_friday_busy "BARISTA" = Some 2
      /\ dict_get "BARISTA" (Services.build_requirements_for_day saturday cfg_friday_busy)
         = Some 3
      /\ Baseline.build_requirements_for_day saturday cfg_friday_busy = Ok [("BARISTA", 3)]).
Proof. vm_compute. repeat split; reflexivity. Qed.

(** ** Scoring *)

Lemma Qltb_false a b : Qltb a b = false <-> (b <= a)%Q.
Proof.
  unfold Qltb. rewrite negb_false_iff. apply Qle_bool_iff.
Qed.

Lemma Qltb_true a b : Qltb a b = true <-> (a < b)%Q.
Proof.
  unfold Qltb. rewrite negb_true_iff. split.
  - intros H. apply Qnot_le_lt. intros Hle. apply Qle_bool_iff in Hle. congruence.
  - intros H. destruct (Qle_bool b a) eqn:E; [|reflexivity].
    apply Qle_bool_iff in E. apply Qlt_not_le in H. contradiction.
Qed.

Lemma Qleb_true a b : Qleb a b = true <-> (a <= b)%Q.
Proof. apply Qle_bool_iff. Qed.

Lemma Qmax_0_nonpos x : (x <= 0)%Q -> Qmax 0 x == 0.
Proof. intros H. apply Q.max_l. exact H. Qed.

Lemma Qmax_0_nonneg x : (0 <= x)%Q -> Qmax 0 x == x.
Proof. intros H. apply Q.max_r. exact H. Qed.

Lemma Qmin_list_le x l y : y ∈ x :: l -> (Qmin_list x l <= y)%Q.
Proof.
  induction l as [|z l IH]; simpl; intros Hy.
  - apply list_elem_of_singleton in Hy. subst. apply Qle_refl.
  - assert (Hcases : y = z ∨ y ∈ x :: l).
    { rewrite !elem_of_cons in Hy. rewrite elem_of_cons. tauto. }
    destruct Hcases as [->|Hin].
    + apply Q.le_min_l.
    + eapply Qle_trans; [apply Q.le_min_r|]. apply IH, Hin.
Qed.

Lemma Qmin_list_attained x l : exists y, y ∈ x :: l /\ Qmin_list x l == y.
Proof.
  induction l as [|z l [y [Hy Heq]]]; simpl.
  - exists x. split; [left|reflexivity].
  - destruct (Q.min_spec z (Qmin_list x l)) as [[_ Hm]|[_ Hm]].
    + exists z. split; [right; left|exact Hm].
    + exists y. split.
      * rewrite !elem_of_cons in *. tauto.
      * rewrite Hm. exact Heq.
Qed.

Lemma cohort_values_lookup (cohort : gmap Z Q) k v :
  cohort !! k = Some v -> v ∈ ServicesScoring.cohort_values cohort.
Proof.
  intros H. unfold ServicesScoring.cohort_values.
  apply list_elem_of_fmap. exists (k, v). split; [reflexivity|].
  apply elem_of_map_to_list. exact H.
Qed.

Lemma cohort_values_inv (cohort : gmap Z Q) v :
  v ∈ ServicesScoring.cohort_values cohort -> exists k, cohort !! k = Some v.
Proof.
  unfold ServicesScoring.cohort_values. intros H.
  apply list_elem_of_fmap in H. destruct H as [[k w] [-> Hin]].
  exists k. apply elem_of_map_to_list. exact Hin.
Qed.

(** [min_hours] is the least value of a cohort map. *)
Lemma min_hours_le (cohort : gmap Z Q) k v :
  cohort !! k = Some v -> (ServicesScoring.min_hours cohort <= v)%Q.
Proof.
  intros H. apply cohort_values_lookup in H. unfold ServicesScoring.min_hours.
  destruct (ServicesScoring.cohort_values cohort) as [|x l].
  - inversion H.
  - apply Qmin_list_le. exact H.
Qed.

Lemma min_hours_attained (cohort : gmap Z Q) k v :
  cohort !! k = Some v ->
  exists k' v', cohort !! k' = Some v' /\ ServicesScoring.min_hours cohort == v'.
Proof.
  intros H. apply cohort_values_lookup in H. unfold ServicesScoring.min_hours.
  destruct (ServicesScoring.cohort_values cohort) as [|x l] eqn:E.
  - inversion H.
  - destruct (Qmin_list_attained x l) as [y [Hy Heq]].
    rewrite <- E in Hy. apply cohort_values_inv in Hy. destruct Hy as [k' Hk'].
    exists k', y. split; assumption.
Qed.

(** C3 (amended): in the services scorer, for every cohort hours map that
    holds employee e with hours h, the rotation penalty of e is
    max(0, h - min cohort hours) times the fairness factor, where the
    minimum is a lower bound of the cohort attained by some member; so an
    employee at the minimum gets 0 and the penalty is linear in the excess.
    (The baseline engine's fairness_penalty is a different measure:
    standard deviations above the cohort median.) *)
Theorem C3_services_rotation_penalty :
  forall (cohort : gmap Z Q) (e : Z) (h factor : Q),
    cohort !! e = Some h ->
    ServicesScoring.calculate_fairness_penalty e h cohort factor
    == rotation_penalty h (ServicesScoring.min_hours cohort) factor
    /\ (forall k v, cohort !! k = Some v -> (ServicesScoring.min_hours cohort <= v)%Q)
    /\ (exists k v, cohort !! k = Some v /\ ServicesScoring.min_hours cohort == v)
    /\ (h == ServicesScoring.min_hours cohort ->
        ServicesScoring.calculate_fairness_penalty e h cohort factor == 0)
    /\ ((ServicesScoring.min_hours cohort <= h)%Q ->
        (1 < size cohort)%nat ->
        ServicesScoring.calculate_fairness_penalty e h cohort factor
        == (h - ServicesScoring.min_hours cohort) * factor).
Proof.
  intros cohort e h factor He.
  pose proof (min_hours_le cohort e h He) as Hmin.
  assert (Hmain : ServicesScoring.calculate_fairness_penalty e h cohort factor
                  == rotation_penalty h (ServicesScoring.min_hours cohort) factor).
  { unfold ServicesScoring.calculate_fairness_penalty, rotation_penalty.
    destruct (size cohort <=? 1)%nat eqn:Hsz.
    - apply Nat.leb_le in Hsz.
      assert (Hh : ServicesScoring.min_hours cohort == h).
      { pose proof (cohort_values_lookup cohort e h He) as Hin.
        unfold ServicesScoring.min_hours.
        assert (Hlen : (length (ServicesScoring.cohort_values cohort) <= 1)%nat).
        { unfold ServicesScoring.cohort_values.
          rewrite length_fmap, length_map_to_list. exact Hsz. }
        destruct (ServicesScoring.cohort_values cohort) as [|x [|y l]].
        - inversion Hin.
        - apply list_elem_of_singleton in Hin. subst. simpl. reflexivity.
        - simpl in Hlen. lia. }
      rewrite Qmax_0_nonpos by (rewrite Hh; lra). lra.
    - destruct (Qleb h (ServicesScoring.min_hours cohort)) eqn:Hle.
      + apply Qleb_true in Hle. rewrite Qmax_0_nonpos by lra. lra.
      + rewrite Qmax_0_nonneg by lra. lra. }
  split; [exact Hmain|]. split; [|split; [|split]].
  - intros k v Hk. eapply min_hours_le, Hk.
  - destruct (min_hours_attained cohort e h He) as (k & v & Hk & Hv). eauto.
  - intros Heq. rewrite Hmain. unfold rotation_penalty.
    rewrite Qmax_0_nonpos by lra. lra.
  - intros Hge _. rewrite Hmain. unfold rotation_penalty.
    rewrite Qmax_0_nonneg by lra. reflexivity.
Qed.

Lemma C3_services_rotation_penalty_witness :
  ServicesScoring.calculate_fairness_penalty 3 30
    (<[1 := 10%Q]> (<[2 := 20%Q]> (<[3 := 30%Q]> ∅))) (1 # 4)
  == rotation_penalty 30
       (ServicesScoring.min_hours (<[1 := 10%Q]> (<[2 := 20%Q]> (<[3 := 30%Q]> ∅)))) (1 # 4).
Proof.
  exact (proj1 (C3_services_rotation_penalty
                  (<[1 := 10%Q]> (<[2 := 20%Q]> (<[3 := 30%Q]> ∅))) 3 30 (1 # 4) eq_refl)).
Defined.

(** C3 as stated fails for the baseline engine: of three baristas with 0, 8
    and 8 hours, the second is 8 hours above the cohort minimum (a rotation
    penalty of 2 at factor 1/4) but sits on the median, and fairness_penalty
    gives it 0. *)
Lemma C3_baseline_penalty_is_median_based :
  let employees := [ mk_emp 1 "BARISTA" None None None None;
                     mk_emp 2 "BARISTA" None None None None;
                     mk_emp 3 "BARISTA" None None None None ] in
  let wh : gmap Z Q := <[2 := 8%Q]> (<[3 := 8%Q]> ∅) in
  let series := hours_series_of employees wh "BARISTA" in
  series = [(1, 0%Q); (2, 8%Q); (3, 8%Q)]
  /\ exists p,
      dict_get 2 (fairness_penalty approx_sqrt series "BARISTA" (weights default_cfg)) = Some p
      /\ p == 0
      /\ rotation_penalty 8 0 (fairness_penalty_per_std_above_median (weights default_cfg)) == 2
      /\ ~ (p == rotation_penalty 8 0 (fairness_penalty_per_std_above_median (weights default_cfg))).
Proof.
  cbv zeta. split; [vm_compute; reflexivity|].
  eexists. split; [vm_compute; reflexivity|].
  split; [reflexivity|]. split; [reflexivity|]. intros H. vm_compute in H. discriminate H.
Qed.

(** ** The candidate pool of a slot *)

Lemma eligible_mask_true cx wh today start_hm end_hm r :
  eligible_mask cx wh today start_hm end_hm r = true ->
  (employee_id r ∉ today)
  /\ (wh_get wh (employee_id r) + slot_hours_of (cx_day cx) start_hm end_hm
      <= role_hard_cap (cx_cfg cx) (cx_role cx))%Q
  /\ (forall g, global_hard_cap (cx_cfg cx) = Some g ->
        (wh_get wh (employee_id r) + slot_hours_of (cx_day cx) start_hm end_hm <= g)%Q)
  /\ is_role_eligible (primary_role r) (cx_role cx) = true.
Proof.
  unfold eligible_mask. case_bool_decide as Hin; [discriminate|].
  destruct (Qltb (role_hard_cap _ _) _) eqn:Hcap; [discriminate|].
  apply Qltb_false in Hcap. intros H. split; [exact Hin|]. split; [exact Hcap|].
  destruct (global_hard_cap (cx_cfg cx)) as [g|].
  - destruct (Qltb g _) eqn:Hg; [discriminate|]. apply Qltb_false in Hg.
    split; [|exact H]. intros g' [= <-]. exact Hg.
  - split; [|exact H]. intros g' [=].
Qed.

Lemma slot_pool_elem cx wh today start_hm end_hm r :
  r ∈ slot_pool cx wh today start_hm end_hm <->
  eligible_mask cx wh today start_hm end_hm r = true /\ r ∈ cx_candidates cx.
Proof. unfold slot_pool. rewrite list_elem_of_filter. reflexivity. Qed.

Lemma scored_pool_elem cx wh today start_hm end_hm r sc :
  (r, sc) ∈ scored_pool cx wh today start_hm end_hm ->
  sc = score_row cx wh start_hm end_hm r
  /\ r ∈ slot_pool cx wh today start_hm end_hm.
Proof.
  unfold scored_pool, strict_pool. intros H.
  apply list_elem_of_fmap in H. destruct H as [r' [[= -> ->] Hin]].
  apply list_elem_of_filter in Hin. destruct Hin as [_ Hin]. split; [reflexivity|exact Hin].
Qed.

(** The strict re-filter removes nothing: it repeats a test of the mask. *)
Lemma strict_pool_id cx wh today start_hm end_hm :
  strict_pool cx wh start_hm end_hm (slot_pool cx wh today start_hm end_hm)
  = slot_pool cx wh today start_hm end_hm.
Proof.
  unfold strict_pool.
  assert (Hall : Forall (fun r => eligible_mask cx wh today start_hm end_hm r = true)
                        (slot_pool cx wh today start_hm end_hm)).
  { apply Forall_forall. intros r Hr. apply slot_pool_elem in Hr. tauto. }
  induction Hall as [|r l Hr _ IH]; [reflexivity|].
  rewrite filter_cons. rewrite IH.
  apply eligible_mask_true in Hr. destruct Hr as (_ & Hcap & _).
  destruct (decide _) as [_|Hn]; [reflexivity|].
  exfalso. apply Hn. apply Qleb_true. exact Hcap.
Qed.

Lemma scored_pool_soft_score cx wh today start_hm end_hm r sc :
  (r, sc) ∈ scored_pool cx wh today start_hm end_hm ->
  let post_hours :=
    (wh_get wh (employee_id r) + slot_hours_of (cx_day cx) start_hm end_hm)%Q in
  (post_hours <= role_hard_cap (cx_cfg cx) (cx_role cx))%Q
  /\ (forall g, global_hard_cap (cx_cfg cx) = Some g -> (post_hours <= g)%Q)
  /\ score_row_branch cx wh start_hm end_hm r = SoftScore
  /\ sc = (role_fitness r (cx_role cx) (weights (cx_cfg cx))
           - fairness_of cx (employee_id r)
           - hours_deviation_penalty post_hours (cx_role cx)
               (hours_policy (cx_cfg cx)) (hours_penalties (cx_cfg cx)))%Q.
Proof.
  intros Hin post_hours.
  apply scored_pool_elem in Hin. destruct Hin as [-> Hpool].
  apply slot_pool_elem in Hpool. destruct Hpool as [Hmask _].
  apply eligible_mask_true in Hmask. destruct Hmask as (_ & Hcap & Hglob & _).
  assert (Hbranch : score_row_branch cx wh start_hm end_hm r = SoftScore).
  { unfold score_row_branch.
    destruct (Qltb _ _) eqn:E; [|reflexivity].
    apply Qltb_true in E. apply Qlt_not_le in E. contradiction. }
  split; [exact Hcap|]. split; [exact Hglob|]. split; [exact Hbranch|].
  unfold score_row. rewrite Hbranch. reflexivity.
Qed.

(** C7: every candidate in the scored pool of a slot has projected hours
    within the role hard cap and within the global hard cap when one is
    set, so its score is computed by the soft branch of score_row: the
    branch returning -1000 is never taken for a scored candidate. *)
Theorem C7_scored_pool_within_hard_caps :
  forall cx wh today start_hm end_hm r sc,
    (r, sc) ∈ scored_pool cx wh today start_hm end_hm ->
    let post_hours :=
      (wh_get wh (employee_id r) + slot_hours_of (cx_day cx) start_hm end_hm)%Q in
    (post_hours <= role_hard_cap (cx_cfg cx) (cx_role cx))%Q
    /\ (forall g, global_hard_cap (cx_cfg cx) = Some g -> (post_hours <= g)%Q)
    /\ score_row_branch cx wh start_hm end_hm r = SoftScore
    /\ sc = (role_fitness r (cx_role cx) (weights (cx_cfg cx))
             - fairness_of cx (employee_id r)
             - hours_deviation_penalty post_hours (cx_role cx)
                 (hours_policy (cx_cfg cx)) (hours_penalties (cx_cfg cx)))%Q.
Proof.
  intros cx wh today start_hm end_hm r sc Hin.
  exact (scored_pool_soft_score cx wh today start_hm end_hm r sc Hin).
Qed.

(** ** Selection *)

Lemma idxmax_from_spec {A} (l : list (A * Q)) (best : A) (bs : Q) :
  exists s,
    (idxmax_from best bs l, s) ∈ (best, bs) :: l
    /\ (bs <= s)%Q
    /\ (forall x t, (x, t) ∈ l -> (t <= s)%Q)
    /\ (Forall (fun xt => (snd xt <= bs)%Q) l -> idxmax_from best bs l = best).
Proof.
  revert best bs. induction l as [|[x t] l IH]; intros best bs; simpl.
  - exists bs. split; [left|]. split; [apply Qle_refl|]. split; [|reflexivity].
    intros x t Hin. inversion Hin.
  - destruct (Qltb bs t) eqn:E.
    + apply Qltb_true in E. destruct (IH x t) as (s & Hin & Hle & Hall & _).
      exists s. split; [right; exact Hin|]. split; [lra|]. split.
      * intros y u Hy. apply elem_of_cons in Hy. destruct Hy as [[= -> ->]|Hy]; [exact Hle|].
        eapply Hall, Hy.
      * intros HF. apply Forall_cons in HF. simpl in HF. lra.
    + apply Qltb_false in E. destruct (IH best bs) as (s & Hin & Hle & Hall & Hfirst).
      exists s. split.
      * apply elem_of_cons in Hin. destruct Hin as [Heq|Hin]; [rewrite Heq; left|].
        right. right. exact Hin.
      * split; [exact Hle|]. split.
        -- intros y u Hy. apply elem_of_cons in Hy.
           destruct Hy as [[= -> ->]|Hy]; [lra|]. eapply Hall, Hy.
        -- intros HF. apply Forall_cons in HF. apply Hfirst. tauto.
Qed.

Lemma idxmax_elem {A} (l : list (A * Q)) (x : A) :
  idxmax l = Some x -> exists s, (x, s) ∈ l.
Proof.
  destruct l as [|[y t] l]; simpl; [discriminate|]. intros [= <-].
  destruct (idxmax_from_spec l y t) as (s & Hin & _). eauto.
Qed.

Lemma idxmax_None {A} (l : list (A * Q)) : idxmax l = None <-> l = [].
Proof. destruct l as [|[y t] l]; simpl; split; congruence. Qed.

(** [idxmax] returns the first row, in list order, that attains the largest
    score: the list splits around it with strictly smaller scores before and
    no larger score after. *)
Lemma idxmax_first_max {A} (l : list (A * Q)) (x : A) :
  idxmax l = Some x ->
  exists s before after,
    l = before ++ (x, s) :: after
    /\ Forall (fun yt => (snd yt < s)%Q) before
    /\ Forall (fun yt => (snd yt <= s)%Q) after.
Proof.
  destruct l as [|[y t] l]; simpl; [discriminate|]. intros [= <-].
  revert y t. induction l as [|[z u] l IH]; intros y t; simpl.
  - exists t, [], []. repeat split; constructor.
  - destruct (Qltb t u) eqn:E.
    + apply Qltb_true in E. destruct (IH z u) as (s & before & after & Heq & Hb & Ha).
      exists s, ((y, t) :: before), after. split; [simpl; rewrite Heq; reflexivity|].
      split; [|exact Ha]. constructor; [|exact Hb]. simpl.
      destruct (idxmax_from_spec l z u) as (s' & Hin & Hle & _).
      assert (Hs : (u <= s)%Q).
      { destruct before as [|[b bt] before]; simpl in Heq.
        - injection Heq as _ ->. apply Qle_refl.
        - injection Heq as _ -> _. apply Forall_cons in Hb. simpl in Hb. lra. }
      lra.
    + apply Qltb_false in E. destruct (IH y t) as (s & before & after & Heq & Hb & Ha).
      destruct before as [|[b bt] before]; simpl in Heq.
      * injection Heq as Hy Hs Hl. exists s, [], ((z, u) :: after).
        split; [simpl; rewrite <- Hy, <- Hs, <- Hl; reflexivity|].
        split; [constructor|]. constructor; [simpl; rewrite <- Hs; exact E|exact Ha].
      * injection Heq as -> -> Hl.
        exists s, ((b, bt) :: (z, u) :: before), after.
        split; [simpl; do 2 f_equal; exact Hl|]. split; [|exact Ha].
        apply Forall_cons in Hb. destruct Hb as [Hbt Hb]. simpl in Hbt.
        constructor; [exact Hbt|]. constructor; [simpl; lra|exact Hb].
Qed.

Lemma C7_scored_pool_within_hard_caps_witness :
  score_row_branch (barista_monday_cx employees_basic default_cfg) ∅ (HM 7 0) (HM 15 0)
    (mk_emp 2 "BARISTA" (Some 5%Q) None (Some 3%Q) (Some 4%Q)) = SoftScore.
Proof.
  refine (proj1 (proj2 (proj2
    (C7_scored_pool_within_hard_caps
       (barista_monday_cx employees_basic default_cfg) ∅ ∅ (HM 7 0) (HM 15 0)
       (mk_emp 2 "BARISTA" (Some 5%Q) None (Some 3%Q) (Some 4%Q))
       (score_row (barista_monday_cx employees_basic default_cfg) ∅ (HM 7 0) (HM 15 0)
          (mk_emp 2 "BARISTA" (Some 5%Q) None (Some 3%Q) (Some 4%Q))) _)))).
  apply (list_elem_of_lookup_2 _ 0%nat). vm_compute. reflexivity.
Defined.

Lemma strongly_sorted_filter {A} (R : relation A) (P : A -> Prop)
  `{forall x, Decision (P x)} (l : list A) :
  StronglySorted R l -> StronglySorted R (filter P l).
Proof.
  induction 1 as [|x l Hs IH Hall]; [constructor|].
  rewrite filter_cons. destruct (decide (P x)); [|exact IH].
  constructor; [exact IH|].
  apply Forall_forall. intros y Hy. apply list_elem_of_filter in Hy.
  rewrite Forall_forall in Hall. apply Hall. tauto.
Qed.

Lemma scored_pool_sorted cx wh today start_hm end_hm :
  StronglySorted id_le (cx_candidates cx) ->
  StronglySorted (fun a b => id_le (fst a) (fst b))
                 (scored_pool cx wh today start_hm end_hm).
Proof.
  intros Hs. unfold scored_pool, strict_pool, slot_pool.
  set (f := fun r => (r, score_row cx wh start_hm end_hm r)).
  assert (Hm : forall l, StronglySorted id_le l ->
                         StronglySorted (fun a b => id_le (fst a) (fst b)) (map f l)).
  { induction 1 as [|x l Hl IH Hall]; simpl; constructor; [exact IH|].
    apply Forall_forall. intros y Hy. apply list_elem_of_fmap in Hy.
    destruct Hy as [r [-> Hr]]. simpl. rewrite Forall_forall in Hall. apply Hall, Hr. }
  apply Hm. apply strongly_sorted_filter. apply strongly_sorted_filter. exact Hs.
Qed.

(** C9 (amended): among the candidates that attain the maximal score of a
    slot, the engine selects the one that comes first in the row order of
    the employee table: every row before the chosen one scores strictly
    less and no row scores more.  When the rows of the role cohort are in
    ascending order of employee id, the chosen candidate therefore has the
    lowest employee id among the tied maximal candidates. *)
Theorem C9_first_row_among_tied :
  forall cx wh today start_hm end_hm chosen,
    idxmax (scored_pool cx wh today start_hm end_hm) = Some chosen ->
    exists sc before after,
      scored_pool cx wh today start_hm end_hm = before ++ (chosen, sc) :: after
      /\ Forall (fun rt => (snd rt < sc)%Q) before
      /\ Forall (fun rt => (snd rt <= sc)%Q) after
      /\ (StronglySorted id_le (cx_candidates cx) ->
          forall r t, (r, t) ∈ scored_pool cx wh today start_hm end_hm ->
                      t == sc -> employee_id chosen ≤ employee_id r).
Proof.
  intros cx wh today start_hm end_hm chosen Hsel.
  destruct (idxmax_first_max _ _ Hsel) as (sc & before & after & Heq & Hb & Ha).
  exists sc, before, after. split; [exact Heq|]. split; [exact Hb|]. split; [exact Ha|].
  intros Hsorted r t Hin Htie.
  pose proof (scored_pool_sorted cx wh today start_hm end_hm Hsorted) as Hs.
  rewrite Heq in Hs, Hin.
  apply elem_of_app in Hin. destruct Hin as [Hin|Hin].
  - rewrite Forall_forall in Hb. specialize (Hb _ Hin). simpl in Hb. lra.
  - apply elem_of_cons in Hin. destruct Hin as [[= -> _]|Hin]; [lia|].
    apply StronglySorted_app_1_r in Hs. apply StronglySorted_inv in Hs.
    destruct Hs as [_ Hall]. rewrite Forall_forall in Hall.
    specialize (Hall _ Hin). exact Hall.
Qed.

Lemma C9_first_row_among_tied_witness :
  exists sc before after,
    scored_pool (barista_monday_cx employees_basic default_cfg) ∅ ∅ (HM 7 0) (HM 15 0)
    = before ++ (mk_emp 2 "BARISTA" (Some 5%Q) None (Some 3%Q) (Some 4%Q), sc) :: after
    /\ Forall (fun rt => (snd rt < sc)%Q) before
    /\ Forall (fun rt => (snd rt <= sc)%Q) after.
Proof.
  assert (Hsel : idxmax (scored_pool (barista_monday_cx employees_basic default_cfg)
                           ∅ ∅ (HM 7 0) (HM 15 0))
                 = Some (mk_emp 2 "BARISTA" (Some 5%Q) None (Some 3%Q) (Some 4%Q)))
    by (vm_compute; reflexivity).
  destruct (C9_first_row_among_tied
              (barista_monday_cx employees_basic default_cfg) ∅ ∅ (HM 7 0) (HM 15 0)
              (mk_emp 2 "BARISTA" (Some 5%Q) None (Some 3%Q) (Some 4%Q)) Hsel)
    as (sc & before & after & Heq & Hb & Ha & _).
  exists sc, before, after. split; [exact Heq|]. split; [exact Hb|exact Ha].
Defined.

(** C9 as stated fails: two baristas tie on every score term, the table
    lists id 3 before id 2, and the engine assigns id 3. *)
Lemma C9_tie_goes_to_first_row_not_lowest_id :
  scored_pool (barista_monday_cx tie_employees cfg_one_barista) ∅ ∅ (HM 7 0) (HM 15 0)
  = [ (mk_emp 3 "BARISTA" (Some 4%Q) None (Some 4%Q) (Some 4%Q), 32 # 4);
      (mk_emp 2 "BARISTA" (Some 4%Q) None (Some 4%Q) (Some 4%Q), 32 # 4) ]
  /\ exists a,
      greedy_schedule approx_sqrt tie_employees [{| s_shift_id := 1; s_date := monday |}]
        cfg_one_barista = Ok [a]
      /\ emp_id a = 3.
Proof.
  split; [vm_compute; reflexivity|].
  eexists. split; [vm_compute; reflexivity|reflexivity].
Qed.

(** ** The target-band penalty *)

Lemma hours_deviation_penalty_band h role policy penalties pol :
  dict_get role policy = Some pol ->
  policy_is_empty pol = false ->
  hours_deviation_penalty h role policy penalties
  = target_band_penalty (default 0%Q (target_min pol))
      (default (inject_Z 1000000000) (target_max pol))
      (default 0%Q (per_hour_below_target penalties))
      (default 0%Q (per_hour_above_target penalties)) h.
Proof.
  intros Hpol Hne. unfold hours_deviation_penalty, target_band_penalty.
  rewrite Hpol, Hne. reflexivity.
Qed.

Lemma services_deviation_penalty_band h role policy penalties :
  let pol := dict_get (upper role) policy in
  let tmin := default 0%Q (pol ≫= target_min) in
  let tmax := default 40%Q (pol ≫= target_max) in
  (tmin <= tmax)%Q ->
  ServicesScoring.calculate_hours_deviation_penalty h role policy penalties
  == target_band_penalty tmin tmax
       (default (1 # 2) (per_hour_below_target penalties))
       (default (3 # 4) (per_hour_above_target penalties)) h.
Proof.
  intros pol tmin tmax Hle.
  unfold ServicesScoring.calculate_hours_deviation_penalty, target_band_penalty.
  fold pol. fold tmin. fold tmax.
  destruct (Qltb h tmin) eqn:Hb.
  - apply Qltb_true in Hb.
    rewrite (Qmax_0_nonneg (tmin - h)) by lra.
    rewrite (Qmax_0_nonpos (h - tmax)) by lra. lra.
  - apply Qltb_false in Hb. destruct (Qltb tmax h) eqn:Ha.
    + apply Qltb_true in Ha.
      rewrite (Qmax_0_nonpos (tmin - h)) by lra.
      rewrite (Qmax_0_nonneg (h - tmax)) by lra. lra.
    + apply Qltb_false in Ha.
      rewrite (Qmax_0_nonpos (tmin - h)) by lra.
      rewrite (Qmax_0_nonpos (h - tmax)) by lra. lra.
Qed.

(** C8 (amended): in the engine, the score of every candidate of a slot
    subtracts the target-band penalty
    max(0, targetMin - h) * belowRate + max(0, h - targetMax) * aboveRate
    of the role's policy taken at the projected hours h (current weekly
    hours plus the slot's duration).  calculate_employee_score subtracts the
    same formula (for targetMin <= targetMax) taken at its current_hours
    argument as passed: it has no slot duration and adds none. *)
Theorem C8_target_band_penalty :
  (forall cx wh today start_hm end_hm r sc pol,
      (r, sc) ∈ scored_pool cx wh today start_hm end_hm ->
      dict_get (cx_role cx) (hours_policy (cx_cfg cx)) = Some pol ->
      policy_is_empty pol = false ->
      sc = (role_fitness r (cx_role cx) (weights (cx_cfg cx))
            - fairness_of cx (employee_id r)
            - target_band_penalty (default 0%Q (target_min pol))
                (default (inject_Z 1000000000) (target_max pol))
                (default 0%Q (per_hour_below_target (hours_penalties (cx_cfg cx))))
                (default 0%Q (per_hour_above_target (hours_penalties (cx_cfg cx))))
                (wh_get wh (employee_id r)
                 + slot_hours_of (cx_day cx) start_hm end_hm))%Q)
  /\ (forall employee role current_hours cohort weights policy penalties,
         let pol := dict_get (upper role) policy in
         let tmin := default 0%Q (pol ≫= target_min) in
         let tmax := default 40%Q (pol ≫= target_max) in
         (tmin <= tmax)%Q ->
         ServicesScoring.calculate_employee_score employee role current_hours cohort
           weights policy penalties
         == ServicesScoring.calculate_role_fitness employee role weights
            - ServicesScoring.calculate_fairness_penalty (employee_id employee)
                current_hours cohort
                (ServicesScoring.weight weights "fairness_penalty_per_std_above_median" (1 # 4))
            - target_band_penalty tmin tmax
                (default (1 # 2) (per_hour_below_target penalties))
                (default (3 # 4) (per_hour_above_target penalties)) current_hours).
Proof.
  split.
  - intros cx wh today start_hm end_hm r sc pol Hin Hpol Hne.
    destruct (scored_pool_soft_score _ _ _ _ _ _ _ Hin) as (_ & _ & _ & ->).
    rewrite (hours_deviation_penalty_band _ _ _ _ pol Hpol Hne). reflexivity.
  - intros employee role current_hours cohort weights policy penalties pol tmin tmax Hle.
    unfold ServicesScoring.calculate_employee_score.
    rewrite (services_deviation_penalty_band current_hours role policy penalties Hle).
    reflexivity.
Qed.

Lemma C8_target_band_penalty_witness :
  (exists sc,
      sc = (role_fitness barista_2 "BARISTA" (weights default_cfg)
            - 0
            - target_band_penalty 16 24 (1 # 2) (3 # 4) (0 + (480 # 60)))%Q)
  /\ ServicesScoring.calculate_employee_score barista_2 "BARISTA" 20%Q
       (<[2 := 20%Q]> (<[3 := 20%Q]> ∅)) services_weights policy_16_24
       (hours_penalties default_cfg)
     == ServicesScoring.calculate_role_fitness barista_2 "BARISTA" services_weights
        - ServicesScoring.calculate_fairness_penalty 2 20%Q
            (<[2 := 20%Q]> (<[3 := 20%Q]> ∅)) (1 # 4)
        - target_band_penalty 16 24 (1 # 2) (3 # 4) 20%Q.
Proof.
  split.
  - eexists.
    refine (proj1 C8_target_band_penalty
              (barista_monday_cx employees_basic (with_hours_policy default_cfg policy_16_24))
              ∅ ∅ (HM 7 0) (HM 15 0) barista_2 _
              {| target_min := Some 16%Q; target_max := Some 24%Q; hard_cap := Some 40%Q |}
              _ eq_refl eq_refl).
    apply (list_elem_of_lookup_2 _ 0%nat). vm_compute. reflexivity.
  - refine (proj2 C8_target_band_penalty barista_2 "BARISTA" 20%Q
              (<[2 := 20%Q]> (<[3 := 20%Q]> ∅)) services_weights policy_16_24
              (hours_penalties default_cfg) _).
    vm_compute. discriminate.
Defined.

(** C8 as stated fails for calculate_employee_score: with 20 current hours
    and an 8-hour slot ahead, the band [16, 24] is left at the projected 28
    hours (a penalty of 3), but the score is computed at 20 hours (no
    penalty). *)
Lemma C8_services_penalty_not_projected :
  let cohort : gmap Z Q := <[2 := 20%Q]> (<[3 := 20%Q]> ∅) in
  let slot_hours := 8%Q in
  target_band_penalty 16 24 (1 # 2) (3 # 4) (20 + slot_hours) == 3
  /\ ServicesScoring.calculate_hours_deviation_penalty 20%Q "BARISTA" policy_16_24
       (hours_penalties default_cfg) == 0
  /\ ~ (ServicesScoring.calculate_employee_score barista_2 "BARISTA" 20%Q cohort
          services_weights policy_16_24 (hours_penalties default_cfg)
        == ServicesScoring.calculate_role_fitness barista_2 "BARISTA" services_weights
           - ServicesScoring.calculate_fairness_penalty 2 20%Q cohort (1 # 4)
           - target_band_penalty 16 24 (1 # 2) (3 # 4) (20 + slot_hours)).
Proof.
  cbv zeta. split; [reflexivity|]. split; [reflexivity|].
  intros H. vm_compute in H. discriminate H.
Qed.

(** ** The slot loop *)

Lemma filter_filter_nil {A} (P Q : A -> Prop)
  `{forall x, Decision (P x)} `{forall x, Decision (Q x)} (l : list A) :
  filter P l = [] -> filter P (filter Q l) = [].
Proof.
  intros Hnil. destruct (filter P (filter Q l)) as [|x l'] eqn:E; [reflexivity|].
  assert (Hx : x ∈ filter P (filter Q l)) by (rewrite E; left).
  apply list_elem_of_filter in Hx. destruct Hx as [HP Hx].
  apply list_elem_of_filter in Hx. destruct Hx as [_ Hx].
  exfalso. exact (filter_nil_not_elem_of P l x Hnil HP Hx).
Qed.

(** The backtracking swap never fires: the alternate pool is drawn through
    the same mask, in the same state, as the pool that was just found
    empty. *)
Lemma backtrack_swap_none cx start_hm end_hm st buffer_rev :
  slot_pool cx (weekly_hours st) (assigned_today st) start_hm end_hm = [] ->
  backtrack_swap cx start_hm end_hm st buffer_rev = Ok None.
Proof.
  unfold slot_pool. intros Hnil.
  induction buffer_rev as [|[idx prev] rest IH]; [reflexivity|].
  cbn [backtrack_swap].
  rewrite (filter_filter_nil _ (fun r => employee_id r ≠ emp_id prev) _ Hnil).
  exact IH.
Qed.

Lemma slot_step_ok cx st st' :
  slot_step cx st = Ok st' ->
  exists start_hm end_hm chosen a,
    chosen ∈ cx_candidates cx
    /\ eligible_mask cx (weekly_hours st) (assigned_today st) start_hm end_hm chosen = true
    /\ emp_id a = employee_id chosen
    /\ asg_date a = cx_day cx
    /\ asg_hours a = slot_hours_of (cx_day cx) start_hm end_hm
    /\ asg_role a = cx_role cx
    /\ weekly_hours st' = wh_add (weekly_hours st) (employee_id chosen) (asg_hours a)
    /\ assignments st' = assignments st ++ [a]
    /\ assigned_today st' = assigned_today st ∪ {[employee_id chosen]}
    /\ slots_assigned st' = slots_assigned st + 1.
Proof.
  unfold slot_step.
  destruct (match round_robin st with [] => cx_shift_ids cx | _ => round_robin st end)
    as [|sid rr']; [discriminate|].
  destruct (default _ (cx_time_patterns cx !! Z.to_nat (slots_assigned st)))
    as [start_hm end_hm].
  cbn [weekly_hours assigned_today backtrack_buffer assignments slots_assigned].
  destruct (slot_pool cx (weekly_hours st) (assigned_today st) start_hm end_hm) eqn:Hpool.
  - rewrite backtrack_swap_none by exact Hpool. cbn. discriminate.
  - clear Hpool.
    destruct (idxmax _) as [chosen|] eqn:Hsel; [|discriminate].
    intros [= <-].
    apply idxmax_elem in Hsel. destruct Hsel as [sc Hin].
    apply scored_pool_elem in Hin. destruct Hin as [_ Hin].
    apply slot_pool_elem in Hin. destruct Hin as [Hmask Hcand].
    eexists start_hm, end_hm, chosen, _.
    split; [exact Hcand|]. split; [exact Hmask|].
    cbn. repeat split; reflexivity.
Qed.

(** ** Invariants of a run *)

Lemma Qsum_app l1 l2 : Qsum (l1 ++ l2) == Qsum l1 + Qsum l2.
Proof.
  unfold Qsum. induction l1 as [|x l1 IH]; simpl; [lra|]. rewrite IH. lra.
Qed.

Lemma total_hours_snoc e asgs a :
  total_hours e (asgs ++ [a])
  == total_hours e asgs + (if decide (emp_id a = e) then asg_hours a else 0).
Proof.
  unfold total_hours. rewrite filter_app, map_app, Qsum_app.
  rewrite filter_cons, filter_nil. destruct (decide (emp_id a = e)); simpl; lra.
Qed.

Lemma count_on_snoc e d asgs a :
  count_on e d (asgs ++ [a])
  = (count_on e d asgs + (if decide (emp_id a = e ∧ asg_date a = d) then 1 else 0))%nat.
Proof.
  unfold count_on. rewrite filter_app, length_app, filter_cons, filter_nil.
  destruct (decide _); reflexivity.
Qed.

Lemma count_on_zero e d asgs :
  (forall a, a ∈ asgs -> emp_id a = e -> asg_date a = d -> False) ->
  count_on e d asgs = 0%nat.
Proof.
  intros H. unfold count_on.
  destruct (filter _ asgs) as [|a l] eqn:E; [reflexivity|].
  assert (Ha : a ∈ filter (fun a => emp_id a = e ∧ asg_date a = d) asgs)
    by (rewrite E; left).
  apply list_elem_of_filter in Ha. destruct Ha as [[He Hd] Hin].
  exfalso. exact (H a Hin He Hd).
Qed.

Lemma wh_get_add wh e h e' :
  wh_get (wh_add wh e h) e' = if decide (e = e') then (wh_get wh e + h)%Q else wh_get wh e'.
Proof.
  unfold wh_add, wh_get at 1. rewrite lookup_insert.
  destruct (decide (e = e')); reflexivity.
Qed.

Lemma nodup_map_inj {A B} (f : A -> B) (l : list A) x y :
  NoDup (map f l) -> x ∈ l -> y ∈ l -> f x = f y -> x = y.
Proof.
  induction l as [|z l IH]; intros Hnd Hx Hy Hf; [inversion Hx|].
  simpl in Hnd. apply NoDup_cons in Hnd. destruct Hnd as [Hz Hnd].
  apply elem_of_cons in Hx. apply elem_of_cons in Hy.
  destruct Hx as [->|Hx], Hy as [->|Hy].
  - reflexivity.
  - exfalso. apply Hz. rewrite Hf. apply list_elem_of_fmap. eauto.
  - exfalso. apply Hz. rewrite <- Hf. apply list_elem_of_fmap. eauto.
  - apply IH; assumption.
Qed.

Lemma day_inv_commit employees cfg day seen wh asgs today chosen a :
  day_inv employees cfg day seen wh asgs today ->
  chosen ∈ employees ->
  employee_id chosen ∉ today ->
  (wh_get wh (employee_id chosen) + asg_hours a
   <= role_hard_cap cfg (upper (primary_role chosen)))%Q ->
  emp_id a = employee_id chosen ->
  asg_date a = day ->
  day_inv employees cfg day seen
    (wh_add wh (employee_id chosen) (asg_hours a)) (asgs ++ [a])
    (today ∪ {[employee_id chosen]}).
Proof.
  intros [Htoday [Hdates Huniq Hledger Hcap]] Hchosen Hfresh Hle Hemp Hdate.
  split; [|split].
  - intros a' Hin Hd. apply elem_of_app in Hin. destruct Hin as [Hin|Hin].
    + apply elem_of_union_l. exact (Htoday a' Hin Hd).
    + apply list_elem_of_singleton in Hin. subst a'. rewrite Hemp.
      apply elem_of_union_r, elem_of_singleton. reflexivity.
  - intros a' Hin. apply elem_of_app in Hin. destruct Hin as [Hin|Hin].
    + exact (Hdates a' Hin).
    + apply list_elem_of_singleton in Hin. subst a'. rewrite Hdate. left.
  - intros e d. rewrite count_on_snoc.
    destruct (decide (emp_id a = e ∧ asg_date a = d)) as [[He Hd]|_].
    + rewrite count_on_zero; [lia|].
      intros a' Hin He' Hd'. apply Hfresh. rewrite <- Hemp, He, <- He'.
      apply Htoday; [exact Hin|]. rewrite Hd', <- Hd. exact Hdate.
    + specialize (Huniq e d). lia.
  - intros e. rewrite wh_get_add, total_hours_snoc. rewrite Hemp.
    specialize (Hledger e).
    destruct (decide (employee_id chosen = e)) as [->|_]; lra.
  - intros Hnd r Hr [a' [Hin Ha']]. rewrite wh_get_add.
    destruct (decide (employee_id chosen = employee_id r)) as [Heq|Hne].
    + assert (r = chosen) by (eapply nodup_map_inj; eauto). subst r. exact Hle.
    + apply Hcap; [exact Hnd|exact Hr|].
      apply elem_of_app in Hin. destruct Hin as [Hin|Hin]; [exists a'; eauto|].
      apply list_elem_of_singleton in Hin. subst a'. congruence.
Qed.

Lemma week_inv_enter employees cfg day seen wh asgs :
  week_inv employees cfg seen wh asgs ->
  day ∉ seen ->
  day_inv employees cfg day seen wh asgs ∅.
Proof.
  intros [Hdates Huniq Hledger Hcap] Hnew. split; [|split; try assumption].
  - intros a Hin Hd. exfalso. apply Hnew. rewrite <- Hd. exact (Hdates a Hin).
  - intros a Hin. right. exact (Hdates a Hin).
Qed.

Lemma week_inv_skip employees cfg day seen wh asgs :
  week_inv employees cfg seen wh asgs ->
  week_inv employees cfg (day :: seen) wh asgs.
Proof.
  intros [Hdates Huniq Hledger Hcap]. split; try assumption.
  intros a Hin. right. exact (Hdates a Hin).
Qed.

Lemma week_inv_empty employees cfg : week_inv employees cfg [] ∅ [].
Proof.
  split.
  - intros a Hin. inversion Hin.
  - intros e d. unfold count_on. simpl. lia.
  - intros e. reflexivity.
  - intros _ r _ [a [Hin _]]. inversion Hin.
Qed.

Lemma role_ctx_ok employees cfg day busy shift_ids fairness_by_role role needed :
  cx_ok employees cfg day
    (role_ctx employees cfg day busy shift_ids fairness_by_role role needed)
  /\ cx_needed (role_ctx employees cfg day busy shift_ids fairness_by_role role needed)
     = needed
  /\ cx_role (role_ctx employees cfg day busy shift_ids fairness_by_role role needed)
     = role.
Proof.
  unfold role_ctx, cx_ok. destruct (base_time_patterns cfg role busy) as [tp label].
  cbn. repeat split; try reflexivity.
  - unfold role_cohort in H. apply list_elem_of_filter in H. tauto.
  - unfold role_cohort in H. apply list_elem_of_filter in H. tauto.
Qed.

Lemma eligible_commit_inv employees cfg day seen cx wh asgs today start_hm end_hm chosen a :
  cx_ok employees cfg day cx ->
  day_inv employees cfg day seen wh asgs today ->
  chosen ∈ cx_candidates cx ->
  eligible_mask cx wh today start_hm end_hm chosen = true ->
  emp_id a = employee_id chosen ->
  asg_date a = cx_day cx ->
  asg_hours a = slot_hours_of (cx_day cx) start_hm end_hm ->
  day_inv employees cfg day seen
    (wh_add wh (employee_id chosen) (asg_hours a)) (asgs ++ [a])
    (today ∪ {[employee_id chosen]}).
Proof.
  intros (Hcfg & Hday & Hcand) Hinv Hin Hmask Hemp Hdate Hhours.
  destruct (Hcand chosen Hin) as [Hemployee Hrole].
  apply eligible_mask_true in Hmask. destruct Hmask as (Hfresh & Hcap & _).
  apply day_inv_commit; try assumption.
  - rewrite Hhours, Hrole, <- Hcfg. exact Hcap.
  - rewrite Hdate. exact Hday.
Qed.

Lemma slot_step_inv employees cfg day seen cx st st' :
  cx_ok employees cfg day cx ->
  slot_step cx st = Ok st' ->
  loop_inv employees cfg day seen st ->
  loop_inv employees cfg day seen st' /\ slots_assigned st' = slots_assigned st + 1.
Proof.
  intros Hok Hstep Hinv. unfold loop_inv in *.
  destruct (slot_step_ok cx st st' Hstep)
    as (start_hm & end_hm & chosen & a & Hcand & Hmask & Hemp & Hdate & Hhours
        & _ & -> & -> & -> & Hslots).
  split; [|exact Hslots].
  eapply eligible_commit_inv; eassumption.
Qed.

Lemma slot_loop_inv employees cfg day seen cx fuel st st' :
  cx_ok employees cfg day cx ->
  slot_loop cx fuel st = Ok st' ->
  loop_inv employees cfg day seen st ->
  loop_inv employees cfg day seen st' /\ cx_needed cx ≤ slots_assigned st'.
Proof.
  intros Hok. revert st. induction fuel as [|fuel IH]; intros st; cbn [slot_loop].
  - destruct (slots_assigned st <? cx_needed cx) eqn:E; cbn; [discriminate|].
    intros [= <-] Hinv. apply Z.ltb_ge in E. auto.
  - destruct (slots_assigned st <? cx_needed cx) eqn:E; cbn.
    + destruct (slot_step cx st) as [st1| |] eqn:Hstep; cbn; try discriminate.
      intros Hloop Hinv.
      destruct (slot_step_inv _ _ _ _ _ _ _ Hok Hstep Hinv) as [Hinv1 _].
      exact (IH st1 Hloop Hinv1).
    + intros [= <-] Hinv. apply Z.ltb_ge in E. auto.
Qed.

(** The slot loop never runs out of the iterations it is given. *)
Lemma slot_loop_fuel cx fuel st :
  cx_needed cx - slots_assigned st ≤ Z.of_nat fuel ->
  slot_loop cx fuel st <> OutOfFuel.
Proof.
  revert st. induction fuel as [|fuel IH]; intros st Hfuel; cbn [slot_loop].
  - destruct (slots_assigned st <? cx_needed cx) eqn:E; cbn; [|discriminate].
    apply Z.ltb_lt in E. lia.
  - destruct (slots_assigned st <? cx_needed cx) eqn:E; cbn; [|discriminate].
    destruct (slot_step cx st) as [st1| |] eqn:Hstep; cbn; try discriminate.
    + apply IH. destruct (slot_step_ok cx st st1 Hstep)
        as (? & ? & ? & ? & _ & _ & _ & _ & _ & _ & _ & _ & _ & Hslots). lia.
    + exfalso. revert Hstep. unfold slot_step.
      destruct (match round_robin st with [] => cx_shift_ids cx | _ => round_robin st end)
        as [|sid rr']; [discriminate|].
      destruct (default _ (cx_time_patterns cx !! Z.to_nat (slots_assigned st)))
        as [start_hm end_hm].
      cbn [weekly_hours assigned_today backtrack_buffer assignments slots_assigned].
      destruct (slot_pool cx (weekly_hours st) (assigned_today st) start_hm end_hm) eqn:Hpool.
      * rewrite backtrack_swap_none by exact Hpool. cbn. discriminate.
      * destruct (idxmax _); discriminate.
Qed.

(** After the slot loop has returned, the guard of the weekend fallback
    block is false: the loop leaves only by filling every slot or by
    raising. *)
Lemma fallback_guard_false cx fuel busy st st' :
  slot_loop cx fuel st = Ok st' ->
  fallback_guard cx busy st' = false.
Proof.
  revert st. induction fuel as [|fuel IH]; intros st; cbn [slot_loop].
  - destruct (slots_assigned st <? cx_needed cx) eqn:E; cbn; [discriminate|].
    intros [= <-]. unfold fallback_guard. rewrite E. reflexivity.
  - destruct (slots_assigned st <? cx_needed cx) eqn:E; cbn.
    + destruct (slot_step cx st) as [st1| |]; cbn; try discriminate. apply IH.
    + intros [= <-]. unfold fallback_guard. rewrite E. reflexivity.
Qed.

Lemma weekend_fallback_block_skipped cx fuel busy st st' :
  slot_loop cx fuel st = Ok st' ->
  weekend_fallback_block cx busy st' = Ok st'.
Proof.
  intros Hloop. unfold weekend_fallback_block.
  rewrite (fallback_guard_false cx fuel busy st st' Hloop). reflexivity.
Qed.

Lemma fallback_attempt_inv employees cfg day seen cx st st' :
  cx_ok employees cfg day cx ->
  fallback_attempt cx st = Ok st' ->
  loop_inv employees cfg day seen st ->
  loop_inv employees cfg day seen st'.
Proof.
  intros Hok. unfold fallback_attempt, loop_inv.
  destruct (idxmax _) as [rbest|] eqn:Hsel.
  - apply idxmax_elem in Hsel. destruct Hsel as [sc Hin].
    apply list_elem_of_fmap in Hin. destruct Hin as [r [[= <- _] Hin]].
    apply list_elem_of_filter in Hin. destruct Hin as [Hmask Hcand].
    destruct (cx_shift_ids cx) as [|first_shift rest]; [discriminate|].
    cbn. intros [= <-] Hinv. cbn.
    eapply (eligible_commit_inv employees cfg day seen cx _ _ _ _ _ rbest
              {| shift_id := first_shift; emp_id := employee_id rbest;
                 start_time := DateTime (cx_day cx) (ds_start (default_shift (cx_cfg cx)));
                 end_time := DateTime (cx_day cx) (ds_end (default_shift (cx_cfg cx)));
                 asg_role := cx_role cx;
                 shift_type := Some "weekend_fallback_single";
                 day_type := Some (cx_day_type cx) |});
      try eassumption; reflexivity.
  - intros [= <-] Hinv. exact Hinv.
Qed.

Lemma weekend_fallback_block_inv employees cfg day seen cx busy st st' :
  cx_ok employees cfg day cx ->
  weekend_fallback_block cx busy st = Ok st' ->
  loop_inv employees cfg day seen st ->
  loop_inv employees cfg day seen st'.
Proof.
  intros Hok. unfold weekend_fallback_block.
  destruct (fallback_guard cx busy st); [|intros [= <-] Hinv; exact Hinv].
  destruct (_ && _).
  - destruct (fallback_attempt cx st) as [st1| |] eqn:Hfb; cbn; try discriminate.
    destruct (slots_assigned st1 <? _); [discriminate|].
    intros [= <-] Hinv. eapply fallback_attempt_inv; eassumption.
  - cbn. destruct (slots_assigned st <? _); [discriminate|].
    intros [= <-] Hinv. exact Hinv.
Qed.

Lemma process_role_inv employees cfg day seen busy shift_ids fbr ds item ds' :
  process_role employees cfg day busy shift_ids fbr ds item = Ok ds' ->
  ds_inv employees cfg day seen ds ->
  ds_inv employees cfg day seen ds'.
Proof.
  unfold process_role. destruct item as [role needed].
  destruct (needed =? 0); [intros [= <-] H; exact H|].
  destruct (role_ctx_ok employees cfg day busy shift_ids fbr role needed) as (Hok & _ & _).
  set (cx := role_ctx employees cfg day busy shift_ids fbr role needed) in *.
  destruct (cx_candidates cx); [discriminate|].
  destruct (slot_loop cx (Z.to_nat needed) _) as [st1| |] eqn:Hloop; cbn; try discriminate.
  destruct (weekend_fallback_block cx busy st1) as [st2| |] eqn:Hfb; cbn; try discriminate.
  intros [= <-] Hinv. unfold ds_inv. cbn.
  eapply weekend_fallback_block_inv; [exact Hok|exact Hfb|].
  eapply slot_loop_inv; [exact Hok|exact Hloop|]. exact Hinv.
Qed.

Lemma process_roles_inv employees cfg day seen busy shift_ids fbr items ds ds' :
  process_roles employees cfg day busy shift_ids fbr ds items = Ok ds' ->
  ds_inv employees cfg day seen ds ->
  ds_inv employees cfg day seen ds'.
Proof.
  revert ds. induction items as [|item items IH]; intros ds; cbn [process_roles].
  - intros [= <-] H. exact H.
  - destruct (process_role _ _ _ _ _ _ ds item) as [ds1| |] eqn:Hrole; cbn; try discriminate.
    intros Hrest Hinv. apply (IH ds1 Hrest).
    eapply process_role_inv; eassumption.
Qed.

Lemma process_day_inv fsqrt employees shifts cfg seen acc day acc' :
  process_day fsqrt employees shifts cfg acc day = Ok acc' ->
  day ∉ seen ->
  week_inv employees cfg seen (fst acc) (snd acc) ->
  week_inv employees cfg (day :: seen) (fst acc') (snd acc').
Proof.
  unfold process_day. intros Hrun Hnew Hinv.
  destruct (filter _ shifts) as [|s0 day_shifts].
  - injection Hrun as <-. apply week_inv_skip. exact Hinv.
  - destruct (Baseline.build_requirements_for_day day cfg) as [req_map| |];
      cbn in Hrun; try discriminate.
    destruct (process_roles _ _ _ _ _ _ _ req_map) as [ds| |] eqn:Hroles;
      cbn in Hrun; try discriminate.
    injection Hrun as <-. cbn.
    apply (process_roles_inv employees cfg day seen) in Hroles.
    + destruct Hroles as [_ Hweek]. exact Hweek.
    + unfold ds_inv. cbn. apply week_inv_enter; assumption.
Qed.

Lemma process_days_inv fsqrt employees shifts cfg days seen acc acc' :
  process_days fsqrt employees shifts cfg acc days = Ok acc' ->
  NoDup days ->
  (forall d, d ∈ days -> d ∉ seen) ->
  week_inv employees cfg seen (fst acc) (snd acc) ->
  week_inv employees cfg (rev days ++ seen) (fst acc') (snd acc').
Proof.
  revert seen acc. induction days as [|day days IH]; intros seen acc; cbn [process_days].
  - intros [= <-] _ _ H. exact H.
  - destruct (process_day fsqrt employees shifts cfg acc day) as [acc1| |] eqn:Hday;
      cbn; try discriminate.
    intros Hrest Hnd Hfresh Hinv. apply NoDup_cons in Hnd. destruct Hnd as [Hnotin Hnd].
    cbn [rev]. rewrite <- app_assoc. cbn [app].
    apply (IH (day :: seen) acc1 Hrest Hnd).
    + intros d Hd Hin. apply elem_of_cons in Hin. destruct Hin as [->|Hin].
      * exact (Hnotin Hd).
      * apply (Hfresh d); [right; exact Hd|exact Hin].
    + eapply process_day_inv; [exact Hday| |exact Hinv]. apply Hfresh. left.
Qed.

Lemma unique_elem l x : x ∈ unique l -> x ∈ l.
Proof.
  induction l as [|y l IH]; cbn [unique]; intros H; [exact H|].
  apply elem_of_cons in H. destruct H as [->|H]; [left|].
  apply list_elem_of_filter in H. right. apply IH. tauto.
Qed.

Lemma unique_NoDup l : NoDup (unique l).
Proof.
  induction l as [|y l IH]; cbn [unique]; [constructor|].
  apply NoDup_cons. split.
  - intros H. apply list_elem_of_filter in H. destruct H as [H _]. apply H. reflexivity.
  - apply NoDup_filter. exact IH.
Qed.

Lemma schedule_days_NoDup shifts cfg : NoDup (schedule_days shifts cfg).
Proof.
  unfold schedule_days. destruct (schedule_busy_days_first cfg).
  - rewrite merge_sort_Permutation. apply unique_NoDup.
  - apply unique_NoDup.
Qed.

Lemma greedy_schedule_inv fsqrt employees shifts cfg out :
  greedy_schedule fsqrt employees shifts cfg = Ok out ->
  exists seen wh, week_inv employees cfg seen wh out.
Proof.
  unfold greedy_schedule.
  destruct (process_days _ _ _ _ _ _) as [[wh asgs]| |] eqn:Hrun; cbn; try discriminate.
  intros [= <-].
  apply (process_days_inv fsqrt employees _ cfg _ []) in Hrun.
  - eexists _, wh. exact Hrun.
  - apply schedule_days_NoDup.
  - intros d _ Hin. inversion Hin.
  - apply week_inv_empty.
Qed.

(** C1: in every schedule greedy_schedule returns, an employee has at most
    one assignment on a date.  The normal commit and the weekend-fallback
    assignment only take candidates outside [assigned_today]; the
    backtracking swap never replaces an assignment
    ([backtrack_swap_none]). *)
Theorem C1_at_most_one_assignment_per_employee_per_date :
  forall fsqrt employees shifts cfg out,
    greedy_schedule fsqrt employees shifts cfg = Ok out ->
    forall e d, (count_on e d out <= 1)%nat.
Proof.
  intros fsqrt employees shifts cfg out Hrun e d.
  destruct (greedy_schedule_inv _ _ _ _ _ Hrun) as (seen & wh & Hinv).
  exact (wk_unique _ _ _ _ _ Hinv e d).
Qed.




Lemma C1_at_most_one_assignment_witness :
  greedy_schedule approx_sqrt employees_basic shifts_5_days default_cfg = Ok schedule_basic
  /\ (count_on 2 monday schedule_basic <= 1)%nat.
Proof.
  assert (Hrun : greedy_schedule approx_sqrt employees_basic shifts_5_days default_cfg
                 = Ok schedule_basic) by (vm_compute; reflexivity).
  split; [exact Hrun|].
  exact (C1_at_most_one_assignment_per_employee_per_date
           approx_sqrt employees_basic shifts_5_days default_cfg schedule_basic Hrun 2 monday).
Defined.



(** ** The engine always returns or raises *)

Lemma fallback_attempt_fuel cx st : fallback_attempt cx st <> OutOfFuel.
Proof.
  unfold fallback_attempt. destruct (idxmax _); [|discriminate].
  destruct (cx_shift_ids cx); discriminate.
Qed.

Lemma weekend_fallback_block_fuel cx busy st : weekend_fallback_block cx busy st <> OutOfFuel.
Proof.
  unfold weekend_fallback_block. destruct (fallback_guard cx busy st); [|discriminate].
  destruct (_ && _).
  - pose proof (fallback_attempt_fuel cx st) as H.
    destruct (fallback_attempt cx st) as [st1| |]; cbn; try discriminate; [|contradiction].
    destruct (slots_assigned st1 <? _); discriminate.
  - cbn. destruct (slots_assigned st <? _); discriminate.
Qed.

Lemma process_role_fuel employees cfg day busy shift_ids fbr ds item :
  process_role employees cfg day busy shift_ids fbr ds item <> OutOfFuel.
Proof.
  unfold process_role. destruct item as [role needed].
  destruct (needed =? 0); [discriminate|].
  destruct (role_ctx_ok employees cfg day busy shift_ids fbr role needed) as (_ & Hneeded & _).
  set (cx := role_ctx employees cfg day busy shift_ids fbr role needed) in *.
  destruct (cx_candidates cx); [discriminate|].
  match goal with |- context [slot_loop cx ?f ?st] =>
    pose proof (slot_loop_fuel cx f st) as Hfuel;
    destruct (slot_loop cx f st) as [st1| |] end; cbn.
  - pose proof (weekend_fallback_block_fuel cx busy st1) as H.
    destruct (weekend_fallback_block cx busy st1); cbn; try discriminate. contradiction.
  - discriminate.
  - exfalso. apply Hfuel; [|reflexivity]. cbn. rewrite Hneeded. lia.
Qed.

Lemma process_roles_fuel employees cfg day busy shift_ids fbr items ds :
  process_roles employees cfg day busy shift_ids fbr ds items <> OutOfFuel.
Proof.
  revert ds. induction items as [|item items IH]; intros ds; cbn [process_roles];
    [discriminate|].
  pose proof (process_role_fuel employees cfg day busy shift_ids fbr ds item) as H.
  destruct (process_role _ _ _ _ _ _ ds item); cbn; [apply IH|discriminate|contradiction].
Qed.

Lemma process_day_fuel fsqrt employees shifts cfg acc day :
  process_day fsqrt employees shifts cfg acc day <> OutOfFuel.
Proof.
  unfold process_day. destruct (filter _ shifts); [discriminate|].
  unfold Baseline.build_requirements_for_day.
  destruct (is_weekend day); [destruct (weekend_requirements cfg)|]; cbn; try discriminate.
  all: match goal with |- context [process_roles ?a ?b ?c ?d ?e ?f ?g ?h] =>
         pose proof (process_roles_fuel a b c d e f h g) as H;
         destruct (process_roles a b c d e f g h) end; cbn;
       try discriminate; contradiction.
Qed.

Lemma process_days_fuel fsqrt employees shifts cfg days acc :
  process_days fsqrt employees shifts cfg acc days <> OutOfFuel.
Proof.
  revert acc. induction days as [|day days IH]; intros acc; cbn [process_days];
    [discriminate|].
  pose proof (process_day_fuel fsqrt employees shifts cfg acc day) as H.
  destruct (process_day _ _ _ _ acc day); cbn; [apply IH|discriminate|contradiction].
Qed.

(** The fuel given to the slot loop is never what ends a run: on every
    input the model of greedy_schedule returns a schedule or raises. *)
Lemma greedy_schedule_terminates fsqrt employees shifts cfg :
  greedy_schedule fsqrt employees shifts cfg <> OutOfFuel.
Proof.
  unfold greedy_schedule.
  match goal with |- context [process_days ?a ?b ?c ?d ?e ?f] =>
    pose proof (process_days_fuel a b c d f e) as H;
    destruct (process_days a b c d e f) end; cbn; try discriminate. contradiction.
Qed.

(** ** Weekend fallback *)

(** C5: an input on which the fallback should run and does not.  On a busy
    Monday with three BARISTA slots, two baristas and the fallback enabled
    with a minimum of one, the first two slots are filled, the third finds
    an empty pool, and the loop raises; the fallback block, which run on the
    state after the second slot would accept the day, is never entered. *)
Theorem C5_underfilled_busy_day_raises_inside_loop :
  is_busy_day monday cfg_fallback = true
  /\ (exists st1 st2,
         slot_step fallback_cx fallback_st0 = Ok st1
         /\ slot_step fallback_cx st1 = Ok st2
         /\ slots_assigned st2 = 2
         /\ slot_step fallback_cx st2
            = Raise (RuntimeError monday "BARISTA" InsufficientStaffWithinCaps)
         /\ fallback_guard fallback_cx true st2 = true
         /\ weekend_fallback_block fallback_cx true st2 = Ok st2)
  /\ greedy_schedule approx_sqrt [barista_2; barista_3] monday_shift cfg_fallback
     = Raise (RuntimeError monday "BARISTA" InsufficientStaffWithinCaps).
Proof.
  split; [vm_compute; reflexivity|]. split.
  - eexists. eexists. split; [vm_compute; reflexivity|].
    split; [vm_compute; reflexivity|].
    split; [reflexivity|]. split; [vm_compute; reflexivity|].
    split; vm_compute; reflexivity.
  - vm_compute. reflexivity.
Qed.

(** ** Coverage validation *)

Lemma forallb_elem {A} (f : A -> bool) (l : list A) :
  forallb f l = true <-> forall x, x ∈ l -> f x = true.
Proof.
  rewrite forallb_forall. split; intros H x Hx; apply H; apply list_elem_of_In; exact Hx.
Qed.

Lemma check_ok ok msg : Validator.check ok msg = Ok tt <-> ok = true.
Proof. unfold Validator.check. destruct ok; split; congruence. Qed.


Lemma flat_map_nil {A B} (f : A -> list B) (l : list A) :
  flat_map f l = [] <-> forall x, x ∈ l -> f x = [].
Proof.
  induction l as [|y l IH]; simpl.
  - split; [intros _ x Hx; inversion Hx|reflexivity].
  - split.
    + intros H. apply app_eq_nil in H. destruct H as [Hy Hl].
      intros x Hx. apply elem_of_cons in Hx. destruct Hx as [->|Hx]; [exact Hy|].
      apply IH; assumption.
    + intros H. rewrite (H y) by left. simpl. apply IH. intros x Hx. apply H. right. exact Hx.
Qed.

Lemma unique_elem_iff l x : x ∈ unique l <-> x ∈ l.
Proof.
  split; [apply unique_elem|].
  induction l as [|y l IH]; cbn [unique]; intros H; [exact H|].
  apply elem_of_cons in H. destruct (decide (x = y)) as [->|Hne]; [left|].
  right. apply list_elem_of_filter. split; [exact Hne|]. apply IH. tauto.
Qed.



(** ** validate_assignments *)

Lemma check_cases ok msg :
  Validator.check ok msg = Ok tt \/ Validator.check ok msg = Raise (ValueError msg).
Proof. unfold Validator.check. destruct ok; auto. Qed.

Lemma load_per_role_caps :
  Validator.load_name Validator.module_globals "per_role_caps"
  = Raise (NameError "per_role_caps").
Proof. reflexivity. Qed.

Lemma dt_accessor_cases offsets :
  Validator.dt_accessor offsets = Ok tt
  \/ Validator.dt_accessor offsets = Raise (AttributeError "dt").
Proof. unfold Validator.dt_accessor. destruct (Validator.one_offset offsets); auto. Qed.

Lemma dt_accessor_ok offsets :
  Validator.dt_accessor offsets = Ok tt <-> Validator.one_offset offsets = true.
Proof.
  unfold Validator.dt_accessor. destruct (Validator.one_offset offsets);
    split; congruence.
Qed.

(** A column has one offset when any two of its entries are equal. *)
Lemma one_offset_spec offsets :
  Validator.one_offset offsets = true <-> forall x y, x ∈ offsets -> y ∈ offsets -> x = y.
Proof.
  destruct offsets as [|o rest]; cbn [Validator.one_offset].
  - split; [intros _ x y Hx; inversion Hx|reflexivity].
  - rewrite forallb_elem. split.
    + intros H x y Hx Hy. apply elem_of_cons in Hx. apply elem_of_cons in Hy.
      destruct Hx as [->|Hx], Hy as [->|Hy]; [reflexivity| | |].
      * apply Z.eqb_eq, H, Hy.
      * symmetry. apply Z.eqb_eq, H, Hx.
      * pose proof (H _ Hx) as H1. pose proof (H _ Hy) as H2.
        apply Z.eqb_eq in H1, H2. congruence.
    + intros H x Hx. apply Z.eqb_eq. apply H; [left|right; exact Hx].
Qed.

Lemma one_offset_subset l k :
  (forall x, x ∈ l -> x ∈ k) -> Validator.one_offset k = true -> Validator.one_offset l = true.
Proof.
  rewrite !one_offset_spec. intros Hsub H x y Hx Hy. apply H; apply Hsub; assumption.
Qed.

Lemma merge_roles_covers employees rows r :
  r ∈ rows -> exists role, (r, role) ∈ Validator.merge_roles employees rows.
Proof.
  intros Hr. unfold Validator.merge_roles.
  destruct (filter (fun e => employee_id e = emp_id (r_assignment r)) employees)
    as [|e es] eqn:Ef.
  - exists None. apply (proj2 (list_elem_of_In _ _)), in_flat_map. exists r.
    split; [apply (proj1 (list_elem_of_In _ _)); exact Hr|]. rewrite Ef. left. reflexivity.
  - exists (Some (upper (primary_role e))).
    apply (proj2 (list_elem_of_In _ _)), in_flat_map. exists r.
    split; [apply (proj1 (list_elem_of_In _ _)); exact Hr|]. rewrite Ef. left. reflexivity.
Qed.

(** Once the cafe-hours section has passed on a frame with rows, the [.dt]
    accessor of the end times has been used, so they carry one offset. *)
Lemma cafe_hours_end_offsets merged m :
  m ∈ merged ->
  Validator.cafe_hours merged = Ok tt ->
  Validator.one_offset (map (fun m => r_end_offset (fst m)) merged) = true.
Proof.
  intros Hm. unfold Validator.cafe_hours.
  destruct (filter (fun m => snd m ≠ Some "SANDWICH") merged) as [|n ns] eqn:En; cbn [bind].
  - destruct (filter (fun m => snd m = Some "SANDWICH") merged) as [|w ws] eqn:Es.
    + exfalso. destruct (decide (snd m = Some "SANDWICH")) as [Hs|Hs].
      * assert (H : m ∈ filter (fun m => snd m = Some "SANDWICH") merged)
          by (apply list_elem_of_filter; split; assumption).
        rewrite Es in H. inversion H.
      * assert (H : m ∈ filter (fun m => snd m ≠ Some "SANDWICH") merged)
          by (apply list_elem_of_filter; split; assumption).
        rewrite En in H. inversion H.
    + destruct (dt_accessor_cases (map (fun m => r_end_offset (fst m)) merged)) as [H|H].
      * intros _. apply dt_accessor_ok, H.
      * rewrite H. cbn. discriminate.
  - destruct (dt_accessor_cases (map (fun m => r_start_offset (fst m)) merged)) as [-> | ->];
      cbn [bind]; [|discriminate].
    match goal with |- context [Validator.check ?b ?msg] =>
      destruct (check_cases b msg) as [-> | ->]; cbn [bind]; [|discriminate] end.
    destruct (dt_accessor_cases (map (fun m => r_end_offset (fst m)) merged)) as [H|H].
    + intros _. apply dt_accessor_ok, H.
    + rewrite H. cbn. discriminate.
Qed.

(** Lines 69-71 do not raise once the three sections before them have
    passed. *)
Lemma hours_column_ok employees rows b :
  Validator.cafe_hours (Validator.merge_roles employees rows) = Ok tt ->
  Validator.has_overlap (Some rows) = Ok b ->
  Validator.hours_column rows = Ok tt.
Proof.
  intros Hcafe Hover. unfold Validator.hours_column.
  destruct rows as [|r rows]; [reflexivity|].
  cbn [Validator.has_overlap] in Hover.
  destruct (dt_accessor_cases (map r_start_offset (r :: rows))) as [Hs|Hs];
    rewrite Hs in Hover |- *; cbn [bind] in Hover |- *; [|discriminate].
  apply dt_accessor_ok.
  destruct (merge_roles_covers employees (r :: rows) r ltac:(left)) as [role Hin].
  pose proof (cafe_hours_end_offsets _ _ Hin Hcafe) as Hends.
  revert Hends. apply one_offset_subset.
  intros x Hx. apply list_elem_of_fmap in Hx. destruct Hx as (r' & -> & Hr').
  destruct (merge_roles_covers employees (r :: rows) r' Hr') as [role' Hin'].
  apply list_elem_of_fmap. exists (r', role'). split; [reflexivity|exact Hin'].
Qed.

Lemma validate_assignments_name_error employees shifts assignments start_hm end_hm reqs :
  Validator.referential_integrity employees shifts assignments = Ok tt ->
  Validator.cafe_hours (Validator.merge_roles employees (default [] assignments)) = Ok tt ->
  Validator.has_overlap assignments = Ok false ->
  Validator.validate_assignments employees shifts assignments start_hm end_hm reqs
  = Raise (NameError "per_role_caps").
Proof.
  intros Href Hcafe Hover.
  unfold Validator.validate_assignments, Validator.validate_assignments_in.
  rewrite Href. destruct assignments as [rows|]; [|discriminate Href].
  change (default [] (Some rows)) with rows in Hcafe.
  cbn [Validator.column bind].
  rewrite Hcafe, Hover. cbn [bind negb Validator.check].
  rewrite (hours_column_ok employees rows false Hcafe Hover), load_per_role_caps.
  reflexivity.
Qed.

Lemma cafe_hours_cases merged :
  Validator.cafe_hours merged = Ok tt \/ exists e, Validator.cafe_hours merged = Raise e.
Proof.
  unfold Validator.cafe_hours.
  repeat (match goal with
          | |- context [Validator.check ?b ?m] =>
              destruct (check_cases b m) as [-> | ->]; cbn [bind]
          | |- context [Validator.dt_accessor ?l] =>
              destruct (dt_accessor_cases l) as [-> | ->]; cbn [bind]
          | |- context [match filter ?P ?l with [] => _ | _ :: _ => _ end] =>
              destruct (filter P l); cbn [bind]
          end; eauto).
Qed.

Lemma validate_assignments_raises employees shifts assignments start_hm end_hm reqs :
  exists e,
    Validator.validate_assignments employees shifts assignments start_hm end_hm reqs
    = Raise e.
Proof.
  unfold Validator.validate_assignments, Validator.validate_assignments_in.
  destruct assignments as [rows|]; [|eexists; reflexivity].
  unfold Validator.referential_integrity. cbn [Validator.column bind].
  repeat (match goal with |- context [Validator.check ?b ?m] =>
            destruct (check_cases b m) as [-> | ->]; cbn [bind];
            [|eexists; reflexivity] end).
  destruct (cafe_hours_cases (Validator.merge_roles employees rows)) as [-> | [e ->]];
    cbn [bind]; [|eexists; reflexivity].
  unfold Validator.has_overlap.
  destruct rows as [|r rows]; cbn [bind negb Validator.check].
  - rewrite load_per_role_caps. eexists; reflexivity.
  - destruct (dt_accessor_cases (map r_start_offset (r :: rows))) as [Hs|Hs];
      rewrite Hs; cbn [bind]; [|eexists; reflexivity].
    destruct (Validator.adjacent_overlap _); cbn [bind negb Validator.check];
      [eexists; reflexivity|].
    unfold Validator.hours_column. rewrite Hs. cbn [bind].
    destruct (dt_accessor_cases (map r_end_offset (r :: rows))) as [-> | ->];
      cbn [bind]; [|eexists; reflexivity].
    rewrite load_per_role_caps. eexists; reflexivity.
Qed.

(** C10: whenever the referential-integrity, café-hours and overlap checks
    pass, validate_assignments raises NameError on [per_role_caps], a name
    that is neither a parameter, a local, a module global nor a builtin, so
    the weekly-cap and coverage sections are never reached; on no input does
    the function return normally. *)
Theorem C10_validate_assignments_name_error :
  forall employees shifts assignments start_hm end_hm reqs,
    (Validator.referential_integrity employees shifts assignments = Ok tt ->
     Validator.cafe_hours (Validator.merge_roles employees (default [] assignments)) = Ok tt ->
     Validator.has_overlap assignments = Ok false ->
     Validator.validate_assignments employees shifts assignments start_hm end_hm reqs
     = Raise (NameError "per_role_caps"))
    /\ Validator.validate_assignments employees shifts assignments start_hm end_hm reqs
       <> Ok tt
    /\ ("per_role_caps" ∉ Validator.function_locals)
    /\ ("global_hard_cap" ∉ Validator.function_locals)
    /\ dict_get "per_role_caps" Validator.module_globals = None
    /\ dict_get "global_hard_cap" Validator.module_globals = None.
Proof.
  intros employees shifts assignments start_hm end_hm reqs. split; [|split].
  - apply validate_assignments_name_error.
  - destruct (validate_assignments_raises employees shifts assignments start_hm end_hm reqs)
      as [e ->]. discriminate.
  - split; [|split; [|split]]; try reflexivity.
    + apply (bool_decide_unpack ("per_role_caps" ∉ Validator.function_locals)).
      vm_compute. exact I.
    + apply (bool_decide_unpack ("global_hard_cap" ∉ Validator.function_locals)).
      vm_compute. exact I.
Qed.

Lemma C10_validate_assignments_name_error_witness :
  Validator.validate_assignments employees_basic shifts_5_days
    (assignments_frame sydney_standard schedule_basic)
    (HM 7 0) (HM 15 0) (Some requirements_basic)
  = Raise (NameError "per_role_caps").
Proof.
  refine (proj1 (C10_validate_assignments_name_error employees_basic shifts_5_days
                   (assignments_frame sydney_standard schedule_basic)
                   (HM 7 0) (HM 15 0) (Some requirements_basic)) _ _ _);
    vm_compute; reflexivity.
Defined.

(** With the two names bound in the module, the weekly caps and the
    coverage section are reached.  A schedule stamped in UTC passes them;
    stamped at +10:00, the same schedule fails the coverage section, which
    files a 07:00 start under the previous date. *)
Lemma validate_assignments_with_names_bound :
  Validator.validate_assignments_in globals_with_caps employees_basic shifts_5_days
    (assignments_frame utc_zone schedule_basic) (HM 7 0) (HM 15 0) (Some requirements_basic)
  = Ok tt
  /\ Validator.validate_assignments_in globals_with_caps employees_basic shifts_5_days
       (assignments_frame sydney_standard schedule_basic) (HM 7 0) (HM 15 0)
       (Some requirements_basic)
     = Raise (ValueError "Coverage mismatch").
Proof. split; vm_compute; reflexivity. Qed.

(** ** Role eligibility *)

Lemma is_role_eligible_spec primary required :
  is_role_eligible primary required = true
  <-> upper primary = upper required /\ upper required ∈ ROLES.
Proof.
  unfold is_role_eligible. case_bool_decide as Hin; simpl.
  - unfold ROLES in Hin. rewrite !elem_of_cons in Hin.
    split.
    + intros H. split; [|unfold ROLES; rewrite !elem_of_cons; exact Hin].
      repeat (destruct (String.eqb (upper primary) _) eqn:E;
              [apply String.eqb_eq in E; apply String.eqb_eq in H; congruence|clear E]).
      discriminate.
    + intros [Heq _]. rewrite Heq.
      destruct Hin as [->|[->|[->|[->|Hnil]]]]; try reflexivity. inversion Hnil.
  - split; [discriminate|]. intros [_ Hr]. contradiction.
Qed.

(** ** Requirement maps as dictionaries *)

Section DictKeys.
Context {K V : Type} `{EqDecision K}.
Implicit Types (d : dict K V) (k : K) (v : V).

Lemma dict_get_Some_elem k v d : dict_get k d = Some v -> (k, v) ∈ d.
Proof.
  induction d as [|[k' v'] d IH]; simpl; [discriminate|].
  destruct (dict_get k d) as [w|].
  - intros [= <-]. right. apply IH. reflexivity.
  - destruct (decide (k' = k)) as [->|]; [|discriminate]. intros [= <-]. left.
Qed.

Lemma dict_get_None_keys k d : dict_get k d = None <-> k ∉ map fst d.
Proof.
  induction d as [|[k' v'] d IH]; simpl.
  - split; [intros _ H; inversion H|reflexivity].
  - rewrite not_elem_of_cons. destruct (dict_get k d) as [w|].
    + split; [discriminate|]. intros [_ Hn]. apply IH in Hn. discriminate.
    + destruct (decide (k' = k)) as [->|Hne].
      * split; [discriminate|]. intros [Hn _]. contradiction.
      * split; [|reflexivity]. intros _. split; [congruence|]. apply IH. reflexivity.
Qed.

Lemma dict_has_keys k d : dict_has k d = true <-> k ∈ map fst d.
Proof.
  unfold dict_has. rewrite bool_decide_eq_true.
  destruct (dict_get k d) as [w|] eqn:E.
  - split; [|eauto]. intros _.
    destruct (decide (k ∈ map fst d)) as [Hin|Hn]; [exact Hin|].
    apply dict_get_None_keys in Hn. congruence.
  - split; [intros [w Hw]; discriminate|].
    intros Hin. apply dict_get_None_keys in E. contradiction.
Qed.

Lemma dict_set_keys k v d :
  map fst (dict_set k v d) = if dict_has k d then map fst d else map fst d ++ [k].
Proof.
  unfold dict_set. destruct (dict_has k d).
  - rewrite map_map. apply map_ext. intros [k' v']. simpl.
    destruct (decide (k' = k)); reflexivity.
  - rewrite map_app. reflexivity.
Qed.

(** Updating a dictionary keeps its keys in place and in order, appends
    the new keys, and never duplicates a key. *)
Lemma dict_update_keys (base overlay : dict K V) :
  exists added,
    map fst (dict_update base overlay) = map fst base ++ added
    /\ (forall k, k ∈ added -> k ∈ map fst overlay /\ k ∉ map fst base)
    /\ (NoDup (map fst base) -> NoDup (map fst (dict_update base overlay))).
Proof.
  unfold dict_update. revert base.
  induction overlay as [|[k v] ov IH]; intros base; simpl.
  - exists []. rewrite app_nil_r. split; [reflexivity|]. split; [|tauto].
    intros k Hk. inversion Hk.
  - destruct (IH (dict_set k v base)) as (added & Hkeys & Hadded & Hnd).
    rewrite dict_set_keys in Hkeys, Hadded, Hnd.
    destruct (dict_has k base) eqn:Hhas.
    + exists added. split; [exact Hkeys|]. split; [|exact Hnd].
      intros k' Hk'. destruct (Hadded k' Hk') as [Hov Hbase]. split; [right; exact Hov|exact Hbase].
    + assert (Hk : k ∉ map fst base).
      { intros Hin. apply dict_has_keys in Hin. congruence. }
      exists (k :: added). split; [rewrite Hkeys, <- app_assoc; reflexivity|]. split.
      * intros k' Hk'. apply elem_of_cons in Hk'. destruct Hk' as [->|Hk'].
        -- split; [left|exact Hk].
        -- destruct (Hadded k' Hk') as [Hov Hbase]. split; [right; exact Hov|].
           intros Hin. apply Hbase. apply elem_of_app. left. exact Hin.
      * intros Hbase. apply Hnd. apply NoDup_app. split; [exact Hbase|]. split.
        -- intros x Hx Hx'. apply list_elem_of_singleton in Hx'. subst. contradiction.
        -- apply NoDup_singleton.
Qed.

End DictKeys.

(** The baseline resolver raises AttributeError exactly on a Saturday or
    Sunday with a config that has no [weekend_requirements] attribute;
    everywhere else it returns the map of the services resolver. *)
Lemma baseline_requirements_cases date cfg :
  Baseline.build_requirements_for_day date cfg
  = if is_weekend date && bool_decide (weekend_requirements cfg = None)
    then Raise (AttributeError "weekend_requirements")
    else Ok (Services.build_requirements_for_day date cfg).
Proof.
  unfold Baseline.build_requirements_for_day, Services.build_requirements_for_day.
  destruct (is_weekend date); simpl; [|reflexivity].
  destruct (weekend_requirements cfg); reflexivity.
Qed.

(** The resolved map lists the default roles first, in their configured
    order, then the roles only an overlay names; no role appears twice. *)
Lemma services_requirements_keys date cfg :
  exists added,
    map fst (Services.build_requirements_for_day date cfg)
    = map fst (default_requirements cfg) ++ added
    /\ (forall role, role ∈ added -> role ∉ map fst (default_requirements cfg))
    /\ (NoDup (map fst (default_requirements cfg)) ->
        NoDup (map fst (Services.build_requirements_for_day date cfg))).
Proof.
  unfold Services.build_requirements_for_day, apply_overrides.
  set (wk := if is_weekend date then _ else _).
  assert (Hwk : exists added,
             map fst wk = map fst (default_requirements cfg) ++ added
             /\ (forall role, role ∈ added -> role ∉ map fst (default_requirements cfg))
             /\ (NoDup (map fst (default_requirements cfg)) -> NoDup (map fst wk))).
  { subst wk. destruct (is_weekend date).
    - destruct (dict_update_keys (default_requirements cfg)
                  (default [] (weekend_requirements cfg))) as (added & Hk & Ha & Hn).
      exists added. split; [exact Hk|]. split; [|exact Hn]. intros r Hr. apply Ha, Hr.
    - exists []. rewrite app_nil_r. split; [reflexivity|]. split; [|tauto].
      intros r Hr. inversion Hr. }
  destruct Hwk as (added & Hk & Ha & Hn).
  destruct (dict_get date (overrides cfg)) as [ov|].
  - destruct (dict_update_keys wk ov) as (added' & Hk' & Ha' & Hn').
    exists (added ++ added'). split; [rewrite Hk', Hk, app_assoc; reflexivity|]. split.
    + intros r Hr. apply elem_of_app in Hr. destruct Hr as [Hr|Hr]; [apply Ha, Hr|].
      destruct (Ha' r Hr) as [_ Hnot]. intros Hin. apply Hnot. rewrite Hk.
      apply elem_of_app. left. exact Hin.
    + intros Hd. apply Hn', Hn, Hd.
  - exists added. split; [exact Hk|]. split; [exact Ha|exact Hn].
Qed.

Lemma raise_unless_ok ok msg : raise_unless ok msg = Ok tt <-> ok = true.
Proof. unfold raise_unless. destruct ok; split; congruence. Qed.

Lemma validate_policies_ok policies :
  validate_policies policies = Ok tt ->
  forall role pol, (role, pol) ∈ policies ->
    exists tmin tmax cap,
      target_min pol = Some tmin /\ target_max pol = Some tmax
      /\ hard_cap pol = Some cap /\ (tmin <= tmax)%Q.
Proof.
  induction policies as [|[r p] rest IH]; cbn [validate_policies].
  - intros _ role pol Hin. inversion Hin.
  - destruct (raise_unless (policy_complete p) _) as [[]| |] eqn:E1; cbn; try discriminate.
    destruct (raise_unless (policy_ordered p) _) as [[]| |] eqn:E2; cbn; try discriminate.
    apply raise_unless_ok in E1. apply raise_unless_ok in E2.
    intros Hrest role pol Hin. apply elem_of_cons in Hin.
    destruct Hin as [[= -> ->]|Hin]; [|exact (IH Hrest role pol Hin)].
    unfold policy_complete in E1. unfold policy_ordered in E2.
    destruct (target_min p) as [tmin|]; [|discriminate].
    destruct (target_max p) as [tmax|]; [|discriminate].
    destruct (hard_cap p) as [cap|]; [|discriminate].
    exists tmin, tmax, cap. repeat split; try reflexivity.
    apply negb_true_iff, Qltb_false in E2. exact E2.
Qed.

Lemma validate_config_ok cfg :
  _validate_config cfg = Ok tt ->
  0 < duration_hours (default_shift cfg)
  /\ hm_ge (ds_start (default_shift cfg)) (ds_end (default_shift cfg)) = false
  /\ (forall role c, (role, c) ∈ default_requirements cfg -> 0 ≤ c)
  /\ (forall date m role c, (date, m) ∈ overrides cfg -> (role, c) ∈ m -> 0 ≤ c)
  /\ 0 < max_hours_per_week_per_employee (hours_caps cfg)
  /\ (forall role pol, (role, pol) ∈ hours_policy cfg ->
        exists tmin tmax cap,
          target_min pol = Some tmin /\ target_max pol = Some tmax
          /\ hard_cap pol = Some cap /\ (tmin <= tmax)%Q).
Proof.
  unfold _validate_config.
  repeat (match goal with
          | |- context [raise_unless ?b ?m] =>
              let E := fresh "E" in
              destruct (raise_unless b m) as [[]| |] eqn:E; cbn; try discriminate;
              apply raise_unless_ok in E
          end).
  intros Hpol.
  apply negb_true_iff, Z.leb_gt in E. apply negb_true_iff in E0.
  apply negb_true_iff, Z.leb_gt in E3.
  rewrite forallb_forall in E1, E2.
  split; [exact E|]. split; [exact E0|]. split; [|split; [|split; [exact E3|]]].
  - intros role c Hin. apply list_elem_of_In in Hin. specialize (E1 _ Hin).
    simpl in E1. apply negb_true_iff, Z.ltb_ge in E1. exact E1.
  - intros date m role c Hd Hin. apply list_elem_of_In in Hd. specialize (E2 _ Hd).
    simpl in E2. rewrite forallb_forall in E2. apply list_elem_of_In in Hin.
    specialize (E2 _ Hin). simpl in E2. apply negb_true_iff, Z.ltb_ge in E2. exact E2.
  - apply validate_policies_ok. exact Hpol.
Qed.


(** ** Fairness and deviation penalties *)

Lemma approx_sqrt_nonneg q : (0 <= approx_sqrt q)%Q.
Proof.
  unfold approx_sqrt, Qle. simpl. rewrite Z.mul_1_r. apply Z.sqrt_nonneg.
Qed.

Lemma lookup_map {A B} (f : A -> B) (l : list A) (i : nat) :
  map f l !! i = f <$> (l !! i).
Proof.
  revert i. induction l as [|x l IH]; intros [|i]; simpl; try reflexivity. apply IH.
Qed.




(** ** Time windows *)

Lemma list_times_lookup {A} (l : list A) (n : Z) (i : nat) :
  (i < Z.to_nat n * length l)%nat ->
  list_times l n !! i = l !! (i mod length l)%nat.
Proof.
  unfold list_times. generalize (Z.to_nat n) as k. intros k. revert i.
  induction k as [|k IH]; intros i Hi; [lia|].
  assert (Hlen : (0 < length l)%nat) by (destruct l; simpl in *; lia).
  cbn [replicate concat].
  destruct (decide (i < length l)%nat) as [Hlt|Hge].
  - rewrite lookup_app_l by exact Hlt. rewrite Nat.mod_small by exact Hlt. reflexivity.
  - rewrite lookup_app_r by lia. rewrite IH by lia.
    f_equal. replace i with ((i - length l) + 1 * length l)%nat at 2 by lia.
    rewrite Nat.Div0.mod_add. reflexivity.
Qed.

Lemma base_time_patterns_nonempty cfg role busy :
  (0 < length (fst (base_time_patterns cfg role busy)))%nat.
Proof.
  assert (Hft : forall v ws, first_two v = Some ws -> (0 < length ws)%nat).
  { intros v ws. unfold first_two. destruct v as [[| ws0 |]|]; try discriminate.
    destruct (2 <=? length ws0)%nat eqn:E; [|discriminate].
    apply Nat.leb_le in E. intros [= <-]. rewrite length_take. lia. }
  unfold base_time_patterns.
  repeat (match goal with
          | |- context [if ?b then _ else _] => destruct b
          | |- context [match first_two ?v with _ => _ end] =>
              let E := fresh "E" in
              destruct (first_two v) eqn:E; [apply Hft in E|]
          | |- context [match ?o ≫= ?f with _ => _ end] => destruct (o ≫= f)
          | |- context [match ?w with WDict _ _ => _ | _ => _ end] => destruct w
          | |- context [match ?o with Some _ => _ | None => _ end] => destruct o
          | |- context [match ?l with [] => _ | _ :: _ => _ end] => destruct l
          end; simpl; try lia; try assumption).
Qed.

(** Slot [i] of a role takes the base window of index [i mod count]; the
    replicated list never runs short of the needed count. *)
Lemma replicate_patterns_lookup (time_patterns : list (hm * hm)) (needed : Z) (i : nat) :
  (0 < length time_patterns)%nat ->
  (Z.of_nat i < needed) ->
  replicate_patterns time_patterns needed !! i
  = time_patterns !! (i mod length time_patterns)%nat
  /\ is_Some (replicate_patterns time_patterns needed !! i).
Proof.
  intros Hlen Hi.
  assert (Hmod : is_Some (time_patterns !! (i mod length time_patterns)%nat)).
  { apply lookup_lt_is_Some. apply Nat.mod_upper_bound. lia. }
  cut (replicate_patterns time_patterns needed !! i
       = time_patterns !! (i mod length time_patterns)%nat).
  { intros ->. split; [reflexivity|exact Hmod]. }
  unfold replicate_patterns.
  destruct ((Z.of_nat (length time_patterns) =? 1) && (1 <? needed)) eqn:E1.
  - apply andb_true_iff in E1. destruct E1 as [E1 _]. apply Z.eqb_eq in E1.
    apply list_times_lookup. lia.
  - destruct ((2 <=? Z.of_nat (length time_patterns))
              && (Z.of_nat (length time_patterns) <? needed)) eqn:E2.
    + apply andb_true_iff in E2. destruct E2 as [E2 E3].
      apply Z.leb_le in E2. apply Z.ltb_lt in E3.
      rewrite lookup_take_lt by lia.
      apply list_times_lookup.
      set (len := Z.of_nat (length time_patterns)) in *.
      assert (Hreps : needed ≤ ((needed + len - 1) / len) * len).
      { pose proof (Z.div_mod (needed + len - 1) len ltac:(lia)) as Hdm.
        pose proof (Z.mod_pos_bound (needed + len - 1) len ltac:(lia)) as Hb. lia. }
      assert (0 ≤ (needed + len - 1) / len) by (apply Z.div_pos; lia).
      apply Nat2Z.inj_lt. rewrite Nat2Z.inj_mul, Z2Nat.id by lia. fold len. lia.
    + rewrite Nat.mod_small; [reflexivity|].
      apply andb_false_iff in E1. apply andb_false_iff in E2.
      rewrite Z.eqb_neq, Z.ltb_ge in E1. rewrite Z.leb_gt, Z.ltb_ge in E2. lia.
Qed.


(** ** Every commit of a run *)

Lemma role_ctx_proj employees cfg day busy shift_ids fbr role needed :
  let cx := role_ctx employees cfg day busy shift_ids fbr role needed in
  cx_cfg cx = cfg /\ cx_day cx = day /\ cx_shift_ids cx = shift_ids
  /\ cx_role cx = role /\ cx_needed cx = needed
  /\ cx_candidates cx = role_cohort employees role
  /\ cx_time_patterns cx
     = replicate_patterns (fst (base_time_patterns cfg role busy)) needed.
Proof.
  unfold role_ctx. destruct (base_time_patterns cfg role busy) as [tp label].
  cbn. repeat split; reflexivity.
Qed.

Lemma slot_step_detail cx st st' :
  slot_step cx st = Ok st' ->
  exists sid rr' start_hm end_hm chosen,
    match round_robin st with [] => cx_shift_ids cx | _ => round_robin st end = sid :: rr'
    /\ default (ds_start (default_shift (cx_cfg cx)), ds_end (default_shift (cx_cfg cx)))
               (cx_time_patterns cx !! Z.to_nat (slots_assigned st)) = (start_hm, end_hm)
    /\ idxmax (scored_pool cx (weekly_hours st) (assigned_today st) start_hm end_hm)
       = Some chosen
    /\ chosen ∈ cx_candidates cx
    /\ eligible_mask cx (weekly_hours st) (assigned_today st) start_hm end_hm chosen = true
    /\ weekly_hours st'
       = wh_add (weekly_hours st) (employee_id chosen)
           (slot_hours_of (cx_day cx) start_hm end_hm)
    /\ assignments st'
       = assignments st ++ [slot_assignment cx sid (employee_id chosen) start_hm end_hm]
    /\ assigned_today st' = assigned_today st ∪ {[employee_id chosen]}
    /\ round_robin st' = rr'
    /\ slots_assigned st' = slots_assigned st + 1.
Proof.
  unfold slot_step.
  destruct (match round_robin st with [] => cx_shift_ids cx | _ => round_robin st end)
    as [|sid rr']; [discriminate|].
  destruct (default _ (cx_time_patterns cx !! Z.to_nat (slots_assigned st)))
    as [start_hm end_hm].
  cbn [weekly_hours assigned_today backtrack_buffer assignments slots_assigned].
  destruct (slot_pool cx (weekly_hours st) (assigned_today st) start_hm end_hm) eqn:Hpool.
  - rewrite backtrack_swap_none by exact Hpool. cbn. discriminate.
  - clear Hpool.
    destruct (idxmax _) as [chosen|] eqn:Hsel; [|discriminate].
    intros [= <-].
    pose proof Hsel as Hsel'.
    apply idxmax_elem in Hsel. destruct Hsel as [sc Hin].
    apply scored_pool_elem in Hin. destruct Hin as [_ Hin].
    apply slot_pool_elem in Hin. destruct Hin as [Hmask Hcand].
    exists sid, rr', start_hm, end_hm, chosen.
    cbn. repeat split; try reflexivity; assumption.
Qed.

Section CommitInduction.

Variables (employees : list Employee) (shifts : list Shift) (cfg : SchedulerConfig).
Variable P : gmap Z Q -> list Assignment -> Prop.
Hypothesis P_commit : commit_stable employees shifts cfg P.

Lemma slot_loop_commits day fbr role needed fuel st st' :
  let cx := role_ctx employees cfg day (is_busy_day day cfg) (day_shift_ids shifts day)
              fbr role needed in
  (forall sid, sid ∈ round_robin st -> sid ∈ day_shift_ids shifts day) ->
  0 ≤ slots_assigned st ->
  slot_loop cx fuel st = Ok st' ->
  P (weekly_hours st) (assignments st) ->
  P (weekly_hours st') (assignments st').
Proof.
  intros cx.
  destruct (role_ctx_proj employees cfg day (is_busy_day day cfg)
              (day_shift_ids shifts day) fbr role needed)
    as (Hcfg & Hday & Hids & Hrole & Hneeded & Hcands & Hpat).
  fold cx in Hcfg, Hday, Hids, Hrole, Hneeded, Hcands, Hpat.
  revert st. induction fuel as [|fuel IH]; intros st Hrr Hslots; cbn [slot_loop].
  - destruct (slots_assigned st <? cx_needed cx); cbn; [discriminate|].
    intros [= <-] HP. exact HP.
  - destruct (slots_assigned st <? cx_needed cx) eqn:Hguard; cbn;
      [|intros [= <-] HP; exact HP].
    apply Z.ltb_lt in Hguard.
    destruct (slot_step cx st) as [st1| |] eqn:Hstep; cbn; try discriminate.
    intros Hloop HP.
    destruct (slot_step_detail cx st st1 Hstep)
      as (sid & rr' & start_hm & end_hm & chosen & Hrr' & Hwin & _ & Hcand & Hmask
          & Hwh & Hasg & _ & Hrr1 & Hslots1).
    assert (Hsid : sid ∈ day_shift_ids shifts day /\
                   forall x, x ∈ rr' -> x ∈ day_shift_ids shifts day).
    { destruct (round_robin st) as [|y rr] eqn:Err.
      - rewrite Hids in Hrr'. split; [rewrite Hrr'; left|].
        intros x Hx. rewrite Hrr'. right. exact Hx.
      - injection Hrr' as -> ->. split; [apply Hrr; left|].
        intros x Hx. apply Hrr. right. exact Hx. }
    destruct Hsid as [Hsid Hrest].
    apply (IH st1); [rewrite Hrr1; exact Hrest|lia|exact Hloop|].
    rewrite Hwh, Hasg.
    assert (Hw : (start_hm, end_hm) ∈ fst (base_time_patterns cfg role (is_busy_day day cfg))).
    { rewrite Hpat in Hwin.
      destruct (replicate_patterns_lookup
                  (fst (base_time_patterns cfg role (is_busy_day day cfg))) needed
                  (Z.to_nat (slots_assigned st))) as [Heq [w Hw]].
      - apply base_time_patterns_nonempty.
      - rewrite Z2Nat.id by lia. lia.
      - rewrite Hw in Hwin. simpl in Hwin. subst w.
        rewrite Heq in Hw. eapply list_elem_of_lookup_2. exact Hw. }
    apply eligible_mask_true in Hmask. destruct Hmask as (_ & Hcap & Hglob & Helig).
    rewrite Hcands in Hcand. unfold role_cohort in Hcand.
    apply list_elem_of_filter in Hcand. destruct Hcand as [Hur Hemp].
    rewrite Hcfg, Hday, Hrole in *.
    pose proof (P_commit day role (weekly_hours st) (assignments st)
                  (slot_assignment cx sid (employee_id chosen) start_hm end_hm) HP) as Hc.
    cbn in Hc. unfold asg_hours in Hc. cbn in Hc. rewrite Hday in Hc.
    apply Hc. exists chosen, start_hm, end_hm.
    cbn. rewrite Hday, Hrole. repeat split; try assumption; reflexivity.
Qed.

Lemma process_role_commits day fbr ds item ds' :
  process_role employees cfg day (is_busy_day day cfg) (day_shift_ids shifts day)
    fbr ds item = Ok ds' ->
  P (d_weekly_hours ds) (d_assignments ds) ->
  P (d_weekly_hours ds') (d_assignments ds').
Proof.
  unfold process_role. destruct item as [role needed].
  destruct (needed =? 0); [intros [= <-] H; exact H|].
  set (cx := role_ctx employees cfg day (is_busy_day day cfg)
               (day_shift_ids shifts day) fbr role needed).
  destruct (cx_candidates cx); [discriminate|].
  destruct (slot_loop cx (Z.to_nat needed) _) as [st1| |] eqn:Hloop; cbn; try discriminate.
  rewrite (weekend_fallback_block_skipped _ _ _ _ _ Hloop). cbn.
  intros [= <-] HP. cbn.
  apply (slot_loop_commits day fbr role needed _ _ _) in Hloop; cbn; try assumption.
  - intros sid H. exact H.
  - lia.
Qed.

Lemma process_roles_commits day fbr items ds ds' :
  process_roles employees cfg day (is_busy_day day cfg) (day_shift_ids shifts day)
    fbr ds items = Ok ds' ->
  P (d_weekly_hours ds) (d_assignments ds) ->
  P (d_weekly_hours ds') (d_assignments ds').
Proof.
  revert ds. induction items as [|item items IH]; intros ds; cbn [process_roles].
  - intros [= <-] H. exact H.
  - destruct (process_role _ _ _ _ _ _ ds item) as [ds1| |] eqn:Hrole; cbn; try discriminate.
    intros Hrest HP. apply (IH ds1 Hrest). eapply process_role_commits; eassumption.
Qed.

Lemma process_day_commits fsqrt acc day acc' :
  process_day fsqrt employees shifts cfg acc day = Ok acc' ->
  P (fst acc) (snd acc) ->
  P (fst acc') (snd acc').
Proof.
  unfold process_day. intros Hrun HP.
  fold (day_shift_ids shifts day) in Hrun.
  destruct (filter _ shifts) as [|s0 day_shifts] eqn:Hf.
  - injection Hrun as <-. exact HP.
  - destruct (Baseline.build_requirements_for_day day cfg) as [req_map| |];
      cbn in Hrun; try discriminate.
    destruct (process_roles _ _ _ _ _ _ _ req_map) as [ds| |] eqn:Hroles;
      cbn in Hrun; try discriminate.
    injection Hrun as <-. cbn.
    apply process_roles_commits in Hroles; assumption.
Qed.

Lemma process_days_commits fsqrt days acc acc' :
  process_days fsqrt employees shifts cfg acc days = Ok acc' ->
  P (fst acc) (snd acc) ->
  P (fst acc') (snd acc').
Proof.
  revert acc. induction days as [|day days IH]; intros acc; cbn [process_days].
  - intros [= <-] H. exact H.
  - destruct (process_day fsqrt employees shifts cfg acc day) as [acc1| |] eqn:Hday;
      cbn; try discriminate.
    intros Hrest HP. apply (IH acc1 Hrest). eapply process_day_commits; eassumption.
Qed.

End CommitInduction.

Lemma merge_sort_shifts_elem shifts s :
  s ∈ merge_sort shift_le shifts <-> s ∈ shifts.
Proof. rewrite merge_sort_Permutation. reflexivity. Qed.

Lemma greedy_schedule_commits fsqrt employees shifts cfg
  (P : gmap Z Q -> list Assignment -> Prop) out :
  commit_stable employees (merge_sort shift_le shifts) cfg P ->
  P ∅ [] ->
  greedy_schedule fsqrt employees shifts cfg = Ok out ->
  exists wh, P wh out.
Proof.
  intros Hstable H0. unfold greedy_schedule.
  destruct (process_days _ _ _ _ _ _) as [[wh asgs]| |] eqn:Hrun; cbn; try discriminate.
  intros [= <-]. exists wh.
  exact (process_days_commits employees _ cfg P Hstable fsqrt _ _ _ Hrun H0).
Qed.

Lemma commit_facts_wf employees shifts cfg day role wh a :
  commit_facts employees cfg day (day_shift_ids (merge_sort shift_le shifts) day) role wh a ->
  asg_wf employees shifts cfg a.
Proof.
  intros (chosen & start_hm & end_hm & Hin & Hrole & Helig & _ & _ & Hwin & Hemp & Hsid
          & Hstart & Hend & Harole).
  assert (Hdate : asg_date a = day) by (unfold asg_date; rewrite Hstart; reflexivity).
  apply is_role_eligible_spec in Helig. destruct Helig as [Hup Hroles].
  assert (Hr : upper role = role) by congruence.
  unfold asg_wf. rewrite Harole, Hdate, Hstart, Hend. cbn.
  split; [exists chosen; repeat split; congruence|].
  split; [rewrite <- Hr; exact Hroles|].
  split; [|split; [reflexivity|exact Hwin]].
  unfold day_shift_ids in Hsid. apply list_elem_of_fmap in Hsid.
  destruct Hsid as [s [Hid Hs]]. apply list_elem_of_filter in Hs. destruct Hs as [Hd Hs].
  apply (proj1 (merge_sort_shifts_elem _ _)) in Hs. exists s. repeat split; [exact Hs|congruence|exact Hd].
Qed.

Lemma greedy_schedule_wf fsqrt employees shifts cfg out :
  greedy_schedule fsqrt employees shifts cfg = Ok out ->
  Forall (asg_wf employees shifts cfg) out.
Proof.
  intros Hrun.
  destruct (greedy_schedule_commits fsqrt employees shifts cfg
              (fun _ asgs => Forall (asg_wf employees shifts cfg) asgs) out) as [_ H];
    [|constructor|exact Hrun|exact H].
  intros day role wh asgs a Hall Hfacts. apply Forall_app. split; [exact Hall|].
  constructor; [|constructor]. eapply commit_facts_wf, Hfacts.
Qed.



(** ** has_overlap *)

Lemma overlap_key_le_trans : Transitive Validator.overlap_key_le.
Proof. intros a b c. unfold Validator.overlap_key_le. lia. Qed.

Lemma overlap_key_le_total : Total Validator.overlap_key_le.
Proof. intros a b. unfold Validator.overlap_key_le. lia. Qed.

Lemma overlap_sorted l :
  StronglySorted Validator.overlap_key_le (merge_sort Validator.overlap_key_le l).
Proof.
  apply (@StronglySorted_merge_sort _ Validator.overlap_key_le _
           overlap_key_le_trans overlap_key_le_total).
Qed.

Lemma stamp_lt_spec a b : stamp_lt a b = true <-> utc_minutes a < utc_minutes b.
Proof. unfold stamp_lt. apply Z.ltb_lt. Qed.

Lemma adjacent_overlap_cons a b l :
  Validator.adjacent_overlap (a :: b :: l)
  = ((emp_id (r_assignment a) =? emp_id (r_assignment b))
     && (utc_date (row_start a) =? utc_date (row_start b))
     && stamp_lt (row_start b) (row_end a))
    || Validator.adjacent_overlap (b :: l).
Proof. reflexivity. Qed.

Lemma adjacent_overlap_split l :
  Validator.adjacent_overlap l = true ->
  exists l1 a b l2,
    l = l1 ++ a :: b :: l2
    /\ emp_id (r_assignment a) = emp_id (r_assignment b)
    /\ utc_date (row_start a) = utc_date (row_start b)
    /\ stamp_lt (row_start b) (row_end a) = true.
Proof.
  induction l as [|a l IH]; [discriminate|].
  destruct l as [|b l]; [discriminate|].
  rewrite adjacent_overlap_cons. intros H. apply orb_true_iff in H.
  destruct H as [H|H].
  - apply andb_true_iff in H. destruct H as [H Hlt].
    apply andb_true_iff in H. destruct H as [He Hd].
    apply Z.eqb_eq in He. apply Z.eqb_eq in Hd.
    exists [], a, b, l. repeat split; assumption.
  - destruct (IH H) as (l1 & a' & b' & l2 & Heq & He & Hd & Hlt).
    exists (a :: l1), a', b', l2. rewrite Heq. repeat split; assumption.
Qed.

(** has_overlap on a frame with rows: the [.dt] accessor, then the scan of
    the sorted rows. *)
Lemma has_overlap_rows rows b :
  Validator.has_overlap (Some rows) = Ok b
  <-> (rows = [] /\ b = false)
      \/ (rows <> [] /\ Validator.one_offset (map r_start_offset rows) = true
          /\ Validator.adjacent_overlap (merge_sort Validator.overlap_key_le rows) = b).
Proof.
  destruct rows as [|r rows].
  - cbn. split.
    + intros [= <-]. left. auto.
    + intros [[_ ->]|[H _]]; [reflexivity|contradiction].
  - cbn [Validator.has_overlap]. unfold Validator.dt_accessor.
    destruct (Validator.one_offset (map r_start_offset (r :: rows))); cbn [bind]; split.
    + intros [= <-]. right. split; [discriminate|]. split; reflexivity.
    + intros [[H _]|(_ & _ & ->)]; [discriminate|reflexivity].
    + discriminate.
    + intros [[H _]|(_ & H & _)]; discriminate.
Qed.

Lemma count_on_Permutation e d l1 l2 :
  l1 ≡ₚ l2 -> count_on e d l1 = count_on e d l2.
Proof. intros H. unfold count_on. rewrite H. reflexivity. Qed.

Lemma count_on_two e d l1 a b l2 :
  emp_id a = e -> asg_date a = d -> emp_id b = e -> asg_date b = d ->
  (2 <= count_on e d (l1 ++ a :: b :: l2))%nat.
Proof.
  intros Ha1 Ha2 Hb1 Hb2. unfold count_on.
  rewrite filter_app, length_app, !filter_cons.
  destruct (decide (emp_id a = e ∧ asg_date a = d)) as [_|Hn]; [|tauto].
  destruct (decide (emp_id b = e ∧ asg_date b = d)) as [_|Hn]; [|tauto].
  simpl. lia.
Qed.

Lemma valid_time_minutes t : valid_time t -> 0 ≤ minutes_of t < 1440.
Proof. unfold valid_time, minutes_of. lia. Qed.

Lemma row_of_assignments tz out : map r_assignment (map (row_of tz) out) = out.
Proof. rewrite map_map. cbn. apply map_id. Qed.

Lemma assignments_frame_rows tz out :
  out <> [] -> assignments_frame tz out = Some (map (row_of tz) out).
Proof. destruct out; [contradiction|reflexivity]. Qed.

Lemma one_offset_const (o : Z) offsets :
  (forall x, x ∈ offsets -> x = o) -> Validator.one_offset offsets = true.
Proof.
  intros H. apply one_offset_spec. intros x y Hx Hy.
  rewrite (H x Hx), (H y Hy). reflexivity.
Qed.

(** A schedule with at most one assignment per employee and local date,
    whose assignments end on the date they start at valid times of day,
    has no overlap for has_overlap when all its times carry one offset:
    two rows of one employee lie on different local dates, so the later
    one starts after the earlier one has ended. *)
Lemma has_overlap_unique tz o out :
  out <> [] ->
  (forall e d, (count_on e d out <= 1)%nat) ->
  (forall a, a ∈ out ->
     tz (start_time a) = o /\ tz (end_time a) = o
     /\ dt_date (end_time a) = asg_date a
     /\ valid_time (dt_time (start_time a)) /\ valid_time (dt_time (end_time a))) ->
  Validator.has_overlap (assignments_frame tz out) = Ok false.
Proof.
  intros Hne Huniq Hrows. rewrite (assignments_frame_rows tz out Hne).
  apply has_overlap_rows. right.
  split; [destruct out; [contradiction|discriminate]|].
  split.
  { apply (one_offset_const o). intros x Hx.
    apply list_elem_of_fmap in Hx. destruct Hx as (r & -> & Hr).
    apply list_elem_of_fmap in Hr. destruct Hr as (a & -> & Ha).
    cbn. apply (Hrows a Ha). }
  destruct (Validator.adjacent_overlap _) eqn:E; [exfalso|reflexivity].
  destruct (adjacent_overlap_split _ E) as (l1 & ra & rb & l2 & Heq & He & Hd & Hlt).
  pose proof (overlap_sorted (map (row_of tz) out)) as Hs.
  pose proof (merge_sort_Permutation Validator.overlap_key_le (map (row_of tz) out)) as Hp.
  rewrite Heq in Hs, Hp.
  assert (Hra : ra ∈ map (row_of tz) out).
  { rewrite <- Hp. apply elem_of_app. right. left. }
  assert (Hrb : rb ∈ map (row_of tz) out).
  { rewrite <- Hp. apply elem_of_app. right. right. left. }
  apply list_elem_of_fmap in Hra. destruct Hra as (a & -> & Ha).
  apply list_elem_of_fmap in Hrb. destruct Hrb as (b & -> & Hb).
  apply StronglySorted_app_1_r in Hs.
  inversion Hs as [|? ? _ Hall]; subst. inversion Hall as [|? ? Hab _]; subst.
  destruct (Hrows a Ha) as (Hsa & Hea & Hda & Hva & Hvea).
  destruct (Hrows b Hb) as (Hsb & _ & _ & Hvb & _).
  apply valid_time_minutes in Hva, Hvea, Hvb.
  destruct (decide (asg_date a = asg_date b)) as [Hsame|Hdiff].
  - pose proof (Huniq (emp_id a) (asg_date a)) as Hone.
    assert (Hperm : out ≡ₚ map r_assignment l1 ++ a :: b :: map r_assignment l2).
    { rewrite <- (row_of_assignments tz out), <- Hp, map_app. reflexivity. }
    rewrite (count_on_Permutation _ _ _ _ Hperm) in Hone.
    pose proof (count_on_two (emp_id a) (asg_date a) (map r_assignment l1) a b
                  (map r_assignment l2) eq_refl eq_refl) as Htwo.
    cbn in He. specialize (Htwo (eq_sym He) (eq_sym Hsame)). lia.
  - apply stamp_lt_spec in Hlt.
    assert (Hle : utc_minutes (row_start (row_of tz a))
                  ≤ utc_minutes (row_start (row_of tz b))).
    { unfold Validator.overlap_key_le in Hab. lia. }
    unfold utc_minutes, row_start, row_end, row_of, to_iso_with_tz in Hle, Hlt.
    cbn in Hle, Hlt. unfold asg_date in *. lia.
Qed.

(** ** The engine's output before the validator *)

Lemma astype_int_int64 x : int64 x -> astype_int x = x.
Proof.
  unfold int64, astype_int. intros H.
  rewrite Z.mod_small by lia. lia.
Qed.

Lemma greedy_schedule_referential fsqrt employees shifts cfg out tz :
  greedy_schedule fsqrt employees shifts cfg = Ok out ->
  out <> [] ->
  (forall s, s ∈ shifts -> int64 (s_shift_id s)) ->
  Validator.referential_integrity employees shifts (assignments_frame tz out) = Ok tt.
Proof.
  intros Hrun Hne Hids. apply greedy_schedule_wf in Hrun. rewrite Forall_forall in Hrun.
  rewrite (assignments_frame_rows tz out Hne).
  unfold Validator.referential_integrity. cbn [Validator.column bind].
  rewrite (proj2 (check_ok _ _)); [cbn [bind]|].
  2:{ apply forallb_elem. intros r Hr. apply bool_decide_eq_true.
      apply list_elem_of_fmap in Hr. destruct Hr as (a & -> & Ha). cbn.
      destruct (Hrun a Ha) as [(e & He & Hid & _) _].
      rewrite <- Hid. apply list_elem_of_fmap. eauto. }
  apply check_ok, forallb_elem. intros r Hr. apply bool_decide_eq_true.
  apply list_elem_of_fmap in Hr. destruct Hr as (a & -> & Ha). cbn.
  destruct (Hrun a Ha) as (_ & _ & (s & Hs & Hid & _) & _).
  rewrite <- Hid, (astype_int_int64 _ (Hids s Hs)). apply list_elem_of_fmap. eauto.
Qed.

Lemma greedy_schedule_no_overlap fsqrt employees shifts cfg out tz o :
  greedy_schedule fsqrt employees shifts cfg = Ok out ->
  out <> [] ->
  (forall a, a ∈ out ->
     tz (start_time a) = o /\ tz (end_time a) = o
     /\ valid_time (dt_time (start_time a)) /\ valid_time (dt_time (end_time a))) ->
  Validator.has_overlap (assignments_frame tz out) = Ok false.
Proof.
  intros Hrun Hne Hrows. apply (has_overlap_unique tz o out Hne).
  - destruct (greedy_schedule_inv _ _ _ _ _ Hrun) as (seen & wh & Hinv).
    exact (wk_unique _ _ _ _ _ Hinv).
  - pose proof (greedy_schedule_wf _ _ _ _ _ Hrun) as Hwf. rewrite Forall_forall in Hwf.
    intros a Ha. destruct (Hrows a Ha) as (H1 & H2 & H3 & H4).
    destruct (Hwf a Ha) as (_ & _ & _ & Hend & _). auto.
Qed.

(** ** Coverage of the requirements *)

Lemma assignment_count_app l1 l2 d r :
  assignment_count (l1 ++ l2) d r = assignment_count l1 d r + assignment_count l2 d r.
Proof.
  unfold assignment_count. rewrite filter_app, length_app. lia.
Qed.

Lemma assignment_count_block block day role d r :
  Forall (fun a => asg_date a = day /\ asg_role a = role) block ->
  assignment_count block d r
  = if decide (d = day /\ r = role) then Z.of_nat (length block) else 0.
Proof.
  intros Hall. unfold assignment_count.
  induction Hall as [|a block [Hd Hr] _ IH]; [destruct (decide _); reflexivity|].
  rewrite filter_cons.
  destruct (decide (d = day /\ r = role)) as [[-> ->]|Hn].
  - destruct (decide (asg_date a = day ∧ asg_role a = role)) as [_|Hn]; [|tauto].
    simpl length. lia.
  - destruct (decide (asg_date a = d ∧ asg_role a = r)) as [[? ?]|_]; [|exact IH].
    exfalso. apply Hn. split; congruence.
Qed.

Lemma slot_loop_block cx fuel st st' :
  slot_loop cx fuel st = Ok st' ->
  exists block,
    assignments st' = assignments st ++ block
    /\ Z.of_nat (length block) = Z.max 0 (cx_needed cx - slots_assigned st)
    /\ Forall (fun a => asg_date a = cx_day cx /\ asg_role a = cx_role cx) block.
Proof.
  revert st. induction fuel as [|fuel IH]; intros st; cbn [slot_loop].
  - destruct (slots_assigned st <? cx_needed cx) eqn:E; cbn; [discriminate|].
    intros [= <-]. apply Z.ltb_ge in E. exists [].
    rewrite app_nil_r. split; [reflexivity|]. split; [simpl; lia|constructor].
  - destruct (slots_assigned st <? cx_needed cx) eqn:E; cbn.
    + apply Z.ltb_lt in E.
      destruct (slot_step cx st) as [st1| |] eqn:Hstep; cbn; try discriminate.
      intros Hloop. destruct (IH st1 Hloop) as (block & Hasg & Hlen & Hall).
      destruct (slot_step_ok cx st st1 Hstep)
        as (start_hm & end_hm & chosen & a & _ & _ & _ & Hdate & _ & Hrole & _ & Hasg1
            & _ & Hslots).
      exists (a :: block). rewrite Hasg, Hasg1, <- app_assoc. split; [reflexivity|].
      split; [simpl length; lia|]. constructor; [split; assumption|exact Hall].
    + intros [= <-]. apply Z.ltb_ge in E. exists [].
      rewrite app_nil_r. split; [reflexivity|]. split; [simpl; lia|constructor].
Qed.

Lemma process_role_block employees cfg day busy shift_ids fbr ds role needed ds' :
  process_role employees cfg day busy shift_ids fbr ds (role, needed) = Ok ds' ->
  exists block,
    d_assignments ds' = d_assignments ds ++ block
    /\ Z.of_nat (length block) = Z.max 0 needed
    /\ Forall (fun a => asg_date a = day /\ asg_role a = role) block.
Proof.
  unfold process_role.
  destruct (needed =? 0) eqn:E0.
  - apply Z.eqb_eq in E0. intros [= <-]. exists []. rewrite app_nil_r.
    split; [reflexivity|]. split; [simpl; lia|constructor].
  - destruct (role_ctx_proj employees cfg day busy shift_ids fbr role needed)
      as (_ & Hday & _ & Hrole & Hneeded & _).
    set (cx := role_ctx employees cfg day busy shift_ids fbr role needed) in *.
    destruct (cx_candidates cx); [discriminate|].
    destruct (slot_loop cx (Z.to_nat needed) _) as [st1| |] eqn:Hloop; cbn; try discriminate.
    rewrite (weekend_fallback_block_skipped _ _ _ _ _ Hloop). cbn.
    intros [= <-]. cbn.
    destruct (slot_loop_block _ _ _ _ Hloop) as (block & Hasg & Hlen & Hall).
    cbn in Hasg, Hlen. rewrite Hday, Hrole in Hall. rewrite Hneeded, Z.sub_0_r in Hlen.
    exists block. auto.
Qed.

Lemma required_of_cons role0 n0 rest role :
  role0 ∉ map fst rest ->
  required_of ((role0, n0) :: rest) role
  = (if decide (role = role0) then Z.max 0 n0 else 0) + required_of rest role.
Proof.
  intros Hnew. unfold required_of. simpl.
  destruct (decide (role = role0)) as [->|Hne].
  - apply dict_get_None_keys in Hnew. rewrite Hnew.
    destruct (decide (role0 = role0)); [lia|congruence].
  - destruct (dict_get role rest); [lia|].
    destruct (decide (role0 = role)); [congruence|lia].
Qed.

Lemma process_roles_count employees cfg day busy shift_ids fbr items ds ds' :
  NoDup (map fst items) ->
  process_roles employees cfg day busy shift_ids fbr ds items = Ok ds' ->
  forall d r,
    assignment_count (d_assignments ds') d r
    = assignment_count (d_assignments ds) d r
      + (if decide (d = day) then required_of items r else 0).
Proof.
  revert ds. induction items as [|[role needed] items IH]; intros ds Hnd; cbn [process_roles].
  - intros [= <-] d r. unfold required_of. simpl. destruct (decide _); lia.
  - simpl in Hnd. apply NoDup_cons in Hnd. destruct Hnd as [Hnew Hnd].
    destruct (process_role _ _ _ _ _ _ ds (role, needed)) as [ds1| |] eqn:Hrole;
      cbn; try discriminate.
    intros Hrest d r. rewrite (IH ds1 Hnd Hrest d r).
    destruct (process_role_block _ _ _ _ _ _ _ _ _ _ Hrole) as (block & Hasg & Hlen & Hall).
    rewrite Hasg, assignment_count_app, (assignment_count_block block day role d r Hall).
    rewrite required_of_cons by exact Hnew. rewrite Hlen.
    destruct (decide (d = day)) as [->|Hd].
    + destruct (decide (r = role)) as [->|Hr].
      * destruct (decide (day = day /\ role = role)); [lia|tauto].
      * destruct (decide (day = day /\ r = role)); [tauto|lia].
    + destruct (decide (d = day /\ r = role)); [tauto|lia].
Qed.

Lemma process_day_count fsqrt employees shifts cfg acc day acc' :
  NoDup (map fst (default_requirements cfg)) ->
  day ∈ map s_date shifts ->
  process_day fsqrt employees shifts cfg acc day = Ok acc' ->
  forall d r,
    assignment_count (snd acc') d r
    = assignment_count (snd acc) d r
      + (if decide (d = day)
         then required_of (Services.build_requirements_for_day day cfg) r else 0).
Proof.
  intros Hnd Hday. unfold process_day. intros Hrun.
  destruct (filter _ shifts) as [|s0 day_shifts] eqn:Hf.
  - exfalso. apply list_elem_of_fmap in Hday. destruct Hday as [s [-> Hs]].
    eapply (filter_nil_not_elem_of _ _ s Hf); [reflexivity|exact Hs].
  - destruct (Baseline.build_requirements_for_day day cfg) as [req_map| |] eqn:Hreq;
      cbn in Hrun; try discriminate.
    apply baseline_requirements_services in Hreq. subst req_map.
    destruct (process_roles _ _ _ _ _ _ _ _) as [ds| |] eqn:Hroles;
      cbn in Hrun; try discriminate.
    injection Hrun as <-. cbn.
    intros d r.
    assert (Hk : NoDup (map fst (Services.build_requirements_for_day day cfg))).
    { destruct (services_requirements_keys day cfg) as (added & _ & _ & H). apply H, Hnd. }
    rewrite (process_roles_count _ _ _ _ _ _ _ _ _ Hk Hroles). reflexivity.
Qed.

Lemma process_days_count fsqrt employees shifts cfg days acc acc' :
  NoDup (map fst (default_requirements cfg)) ->
  NoDup days ->
  (forall d, d ∈ days -> d ∈ map s_date shifts) ->
  process_days fsqrt employees shifts cfg acc days = Ok acc' ->
  forall d r,
    assignment_count (snd acc') d r
    = assignment_count (snd acc) d r
      + (if decide (d ∈ days)
         then required_of (Services.build_requirements_for_day d cfg) r else 0).
Proof.
  intros Hkeys. revert acc. induction days as [|day days IH]; intros acc Hnd Hin;
    cbn [process_days].
  - intros [= <-] d r. destruct (decide (d ∈ [])) as [H|_]; [inversion H|lia].
  - apply NoDup_cons in Hnd. destruct Hnd as [Hnew Hnd].
    destruct (process_day fsqrt employees shifts cfg acc day) as [acc1| |] eqn:Hday;
      cbn; try discriminate.
    intros Hrest d r.
    rewrite (IH acc1 Hnd (fun x Hx => Hin x (list_elem_of_further _ _ _ Hx)) Hrest d r).
    rewrite (process_day_count _ _ _ _ _ _ _ Hkeys (Hin day (list_elem_of_here _ _)) Hday d r).
    destruct (decide (d = day)) as [->|Hd].
    + destruct (decide (day ∈ days)); [contradiction|].
      destruct (decide (day ∈ day :: days)) as [_|Hn]; [lia|]. exfalso. apply Hn. left.
    + destruct (decide (d ∈ days)) as [Hi|Hni].
      * destruct (decide (d ∈ day :: days)) as [_|Hn]; [lia|]. exfalso. apply Hn. right. exact Hi.
      * destruct (decide (d ∈ day :: days)) as [Hi|_]; [|lia].
        apply elem_of_cons in Hi. tauto.
Qed.

Lemma schedule_days_elem shifts cfg d :
  d ∈ schedule_days shifts cfg <-> d ∈ map s_date shifts.
Proof.
  unfold schedule_days. destruct (schedule_busy_days_first cfg).
  - rewrite merge_sort_Permutation. apply unique_elem_iff.
  - apply unique_elem_iff.
Qed.

Lemma sorted_shift_dates shifts d :
  d ∈ map s_date (merge_sort shift_le shifts) <-> d ∈ map s_date shifts.
Proof. rewrite merge_sort_Permutation. reflexivity. Qed.

Lemma greedy_schedule_counts fsqrt employees shifts cfg out :
  NoDup (map fst (default_requirements cfg)) ->
  greedy_schedule fsqrt employees shifts cfg = Ok out ->
  forall d r,
    assignment_count out d r
    = if decide (d ∈ map s_date shifts)
      then required_of (Services.build_requirements_for_day d cfg) r else 0.
Proof.
  intros Hkeys. unfold greedy_schedule.
  destruct (process_days _ _ _ _ _ _) as [[wh asgs]| |] eqn:Hrun; cbn; try discriminate.
  intros [= <-] d r.
  pose proof (process_days_count _ _ _ _ _ _ _ Hkeys (schedule_days_NoDup _ _)
                (fun x Hx => proj1 (schedule_days_elem _ _ x) Hx) Hrun d r) as Hc.
  cbn [fst snd] in Hc. rewrite Hc. clear Hc.
  unfold assignment_count at 1. simpl.
  destruct (decide (d ∈ schedule_days (merge_sort shift_le shifts) cfg)) as [Hi|Hni];
    destruct (decide (d ∈ map s_date shifts)) as [Hj|Hnj]; try reflexivity.
  - exfalso. apply Hnj. apply (proj1 (sorted_shift_dates shifts d)).
    apply (proj1 (schedule_days_elem _ cfg d)). exact Hi.
  - exfalso. apply Hni. apply (proj2 (schedule_days_elem _ cfg d)).
    apply (proj2 (sorted_shift_dates shifts d)). exact Hj.
Qed.

Lemma dict_get_elem_NoDup {K V} `{EqDecision K} (k : K) (v : V) (d : dict K V) :
  NoDup (map fst d) -> (k, v) ∈ d -> dict_get k d = Some v.
Proof.
  induction d as [|[k' v'] d IH]; intros Hnd Hin; [inversion Hin|].
  simpl in Hnd. apply NoDup_cons in Hnd. destruct Hnd as [Hnew Hnd].
  apply elem_of_cons in Hin. simpl. destruct Hin as [[= <- <-]|Hin].
  - apply dict_get_None_keys in Hnew. rewrite Hnew.
    destruct (decide (k = k)); [reflexivity|congruence].
  - rewrite (IH Hnd Hin). reflexivity.
Qed.


Lemma filtered_ids_NoDup d r (l : list Assignment) :
  (forall e, (count_on e d l <= 1)%nat) ->
  NoDup (map emp_id (filter (fun a => asg_date a = d /\ asg_role a = r) l)).
Proof.
  induction l as [|a l IH]; intros Huniq; [constructor|].
  assert (Hl : forall e, (count_on e d l <= 1)%nat).
  { intros e. specialize (Huniq e). unfold count_on in *. rewrite filter_cons in Huniq.
    destruct (decide _); simpl in Huniq; lia. }
  rewrite filter_cons. destruct (decide (asg_date a = d ∧ asg_role a = r)) as [[Hd Hr]|_];
    [|exact (IH Hl)].
  simpl. apply NoDup_cons. split; [|exact (IH Hl)].
  intros Hin. apply list_elem_of_fmap in Hin. destruct Hin as [b [Hb Hin]].
  apply list_elem_of_filter in Hin. destruct Hin as [[Hbd _] Hin].
  apply list_elem_of_split in Hin. destruct Hin as (l1 & l2 & ->).
  specialize (Huniq (emp_id a)). unfold count_on in Huniq.
  rewrite filter_cons, filter_app, filter_cons in Huniq.
  destruct (decide (emp_id a = emp_id a ∧ asg_date a = d)) as [_|Hn]; [|tauto].
  destruct (decide (emp_id b = emp_id a ∧ asg_date b = d)) as [_|Hn];
    [|destruct Hn; split; congruence].
  simpl in Huniq. rewrite length_app in Huniq. simpl in Huniq. lia.
Qed.


(** ** The validator on the engine's output *)

(** Without configured windows for a role, its windows are the default shift,
    or the fixed early windows of SANDWICH. *)
Lemma base_time_patterns_default cfg role busy w :
  dict_get role (role_time_windows cfg) = None ->
  w ∈ fst (base_time_patterns cfg role busy) ->
  if String.eqb role "SANDWICH"
  then w ∈ [(HM 5 0, HM 13 30); (HM 6 0, HM 13 30); (HM 5 0, HM 12 0)]
  else w = (ds_start (default_shift cfg), ds_end (default_shift cfg)).
Proof.
  intros Hnone. unfold base_time_patterns. rewrite Hnone. cbn.
  case_bool_decide as Hbw.
  - assert (Hs : String.eqb role "SANDWICH" = false).
    { rewrite !elem_of_cons in Hbw. destruct Hbw as [->|[->|H]]; [reflexivity..|inversion H]. }
    rewrite Hs. destruct busy; cbn; rewrite ?elem_of_cons; intros H;
      repeat (destruct H as [H|H]; [exact H|]); inversion H.
  - destruct (String.eqb role "SANDWICH").
    + destruct busy; cbn; rewrite !elem_of_cons; tauto.
    + cbn. intros H. apply list_elem_of_singleton in H. exact H.
Qed.

Lemma merge_roles_elem employees rows r role :
  (r, role) ∈ Validator.merge_roles employees rows ->
  r ∈ rows
  /\ match role with
     | Some ro => exists e, e ∈ employees /\ employee_id e = emp_id (r_assignment r)
                            /\ ro = upper (primary_role e)
     | None => forall e, e ∈ employees -> employee_id e <> emp_id (r_assignment r)
     end.
Proof.
  unfold Validator.merge_roles. intros H.
  apply (proj1 (list_elem_of_In _ _)), in_flat_map in H.
  destruct H as [r' [Hr' H]].
  apply (proj2 (list_elem_of_In _ _)) in Hr'. apply (proj2 (list_elem_of_In _ _)) in H.
  destruct (filter (fun e => employee_id e = emp_id (r_assignment r')) employees)
    as [|e0 es] eqn:Ef.
  - apply list_elem_of_singleton in H. injection H as -> ->. split; [exact Hr'|].
    intros e He Hid.
    assert (Hin : e ∈ filter (fun e => employee_id e = emp_id (r_assignment r')) employees)
      by (apply list_elem_of_filter; split; assumption).
    rewrite Ef in Hin. inversion Hin.
  - apply list_elem_of_fmap in H. destruct H as [e [Heq He]]. injection Heq as -> ->.
    split; [exact Hr'|]. rewrite <- Ef in He. apply list_elem_of_filter in He.
    destruct He as [Hid He]. exists e. repeat split; assumption.
Qed.

(** The cafe-hours section passes when the two time columns carry one
    offset each and every row is inside the hours of its kind. *)
Lemma cafe_hours_ok merged :
  Validator.one_offset (map (fun m => r_start_offset (fst m)) merged) = true ->
  Validator.one_offset (map (fun m => r_end_offset (fst m)) merged) = true ->
  (forall m, m ∈ merged -> snd m ≠ Some "SANDWICH" ->
     7 ≤ hour (dt_time (start_time (r_assignment (fst m))))
     /\ hour (dt_time (end_time (r_assignment (fst m)))) ≤ 15
     /\ minute (dt_time (end_time (r_assignment (fst m)))) = 0) ->
  (forall m, m ∈ merged -> snd m = Some "SANDWICH" ->
     hour (dt_time (end_time (r_assignment (fst m)))) ≤ 15) ->
  Validator.cafe_hours merged = Ok tt.
Proof.
  intros Hso Heo Hns Hsw. apply dt_accessor_ok in Hso, Heo.
  unfold Validator.cafe_hours.
  assert (Hfirst :
    match filter (fun m => snd m ≠ Some "SANDWICH") merged with
    | [] => Ok tt
    | _ :: _ =>
        do _ <- Validator.dt_accessor (map (fun m => r_start_offset (fst m)) merged);
        do _ <- Validator.check
                  (forallb (fun m => negb (hour (dt_time (start_time
                                             (r_assignment (fst m)))) <? 7))
                           (filter (fun m => snd m ≠ Some "SANDWICH") merged))
                  "Non-SANDWICH shifts start before cafe hours (07:00)";
        do _ <- Validator.dt_accessor (map (fun m => r_end_offset (fst m)) merged);
        do _ <- Validator.check
                  (forallb (fun m => negb (15 <? hour (dt_time (end_time
                                             (r_assignment (fst m))))))
                           (filter (fun m => snd m ≠ Some "SANDWICH") merged))
                  "Non-SANDWICH shifts end after cafe hours (15:00)";
        Validator.check
          (forallb (fun m => minute (dt_time (end_time (r_assignment (fst m)))) =? 0)
                   (filter (fun m => snd m ≠ Some "SANDWICH") merged))
          "Non-SANDWICH shifts don't end on the hour"
    end = Ok tt).
  { destruct (filter (fun m => snd m ≠ Some "SANDWICH") merged) as [|n ns] eqn:En;
      [reflexivity|]. rewrite <- En. rewrite Hso, Heo. cbn [bind].
    rewrite (proj2 (check_ok _ _)); [cbn [bind]|].
    2:{ apply forallb_elem. intros m Hin. apply list_elem_of_filter in Hin.
        destruct Hin as [Hn Hin]. apply negb_true_iff, Z.ltb_ge.
        apply (Hns m Hin Hn). }
    rewrite (proj2 (check_ok _ _)); [cbn [bind]|].
    2:{ apply forallb_elem. intros m Hin. apply list_elem_of_filter in Hin.
        destruct Hin as [Hn Hin]. apply negb_true_iff, Z.ltb_ge.
        apply (Hns m Hin Hn). }
    apply check_ok, forallb_elem. intros m Hin. apply list_elem_of_filter in Hin.
    destruct Hin as [Hn Hin]. apply Z.eqb_eq. apply (Hns m Hin Hn). }
  rewrite Hfirst. cbn [bind].
  destruct (filter (fun m => snd m = Some "SANDWICH") merged) as [|n ns] eqn:En;
    [reflexivity|]. rewrite <- En. rewrite Heo. cbn [bind].
  apply check_ok, forallb_elem. intros m Hin. apply list_elem_of_filter in Hin.
  destruct Hin as [Hn Hin]. apply negb_true_iff, Z.ltb_ge. apply (Hsw m Hin Hn).
Qed.

(** Without configured windows, the times of a schedule the engine returns
    are those of the default shift, or the fixed early windows of
    SANDWICH. *)
Lemma greedy_schedule_windows fsqrt employees shifts cfg out a :
  role_time_windows cfg = [] ->
  greedy_schedule fsqrt employees shifts cfg = Ok out ->
  a ∈ out ->
  if String.eqb (asg_role a) "SANDWICH"
  then (dt_time (start_time a), dt_time (end_time a))
       ∈ [(HM 5 0, HM 13 30); (HM 6 0, HM 13 30); (HM 5 0, HM 12 0)]
  else (dt_time (start_time a), dt_time (end_time a))
       = (ds_start (default_shift cfg), ds_end (default_shift cfg)).
Proof.
  intros Hrtw Hrun Ha.
  pose proof (greedy_schedule_wf _ _ _ _ _ Hrun) as Hwf. rewrite Forall_forall in Hwf.
  destruct (Hwf a Ha) as (_ & _ & _ & _ & Hwin).
  eapply base_time_patterns_default; [rewrite Hrtw; reflexivity|exact Hwin].
Qed.

Lemma greedy_schedule_valid_times fsqrt employees shifts cfg out a :
  role_time_windows cfg = [] ->
  valid_time (ds_start (default_shift cfg)) ->
  valid_time (ds_end (default_shift cfg)) ->
  greedy_schedule fsqrt employees shifts cfg = Ok out ->
  a ∈ out ->
  valid_time (dt_time (start_time a)) /\ valid_time (dt_time (end_time a)).
Proof.
  intros Hrtw Hvs Hve Hrun Ha.
  pose proof (greedy_schedule_windows _ _ _ _ _ a Hrtw Hrun Ha) as Hw.
  destruct (String.eqb (asg_role a) "SANDWICH").
  - rewrite !elem_of_cons in Hw.
    destruct Hw as [Hw|[Hw|[Hw|Hw]]]; [| | |inversion Hw];
      injection Hw as -> ->; unfold valid_time; cbn; lia.
  - injection Hw as -> ->. auto.
Qed.

Lemma greedy_schedule_cafe_hours fsqrt employees shifts cfg out tz o :
  NoDup (map employee_id employees) ->
  role_time_windows cfg = [] ->
  7 ≤ hour (ds_start (default_shift cfg)) ->
  hour (ds_end (default_shift cfg)) ≤ 15 ->
  minute (ds_end (default_shift cfg)) = 0 ->
  greedy_schedule fsqrt employees shifts cfg = Ok out ->
  (forall a, a ∈ out -> tz (start_time a) = o /\ tz (end_time a) = o) ->
  Validator.cafe_hours (Validator.merge_roles employees (map (row_of tz) out)) = Ok tt.
Proof.
  intros Hnd Hrtw Hs He Hm Hrun Htz.
  pose proof (greedy_schedule_wf _ _ _ _ _ Hrun) as Hwf. rewrite Forall_forall in Hwf.
  assert (Hrow : forall m, m ∈ Validator.merge_roles employees (map (row_of tz) out) ->
            exists a, a ∈ out /\ fst m = row_of tz a /\ snd m = Some (asg_role a)).
  { intros [r role] Hin. cbn [fst snd]. apply merge_roles_elem in Hin.
    destruct Hin as [Hr Hrole].
    apply list_elem_of_fmap in Hr. destruct Hr as (a & -> & Ha).
    exists a. split; [exact Ha|]. split; [reflexivity|].
    destruct (Hwf a Ha) as ((e0 & He0 & Hid & Hup) & _).
    destruct role as [ro|].
    - destruct Hrole as (e & He' & Hide & ->). cbn in Hide.
      rewrite (nodup_map_inj employee_id employees e e0 Hnd He' He0) by congruence.
      rewrite Hup. reflexivity.
    - exfalso. exact (Hrole e0 He0 Hid). }
  apply cafe_hours_ok.
  - apply (one_offset_const o). intros x Hx.
    apply list_elem_of_fmap in Hx. destruct Hx as (m & -> & Hm').
    destruct (Hrow m Hm') as (a & Ha & -> & _). cbn. apply (Htz a Ha).
  - apply (one_offset_const o). intros x Hx.
    apply list_elem_of_fmap in Hx. destruct Hx as (m & -> & Hm').
    destruct (Hrow m Hm') as (a & Ha & -> & _). cbn. apply (Htz a Ha).
  - intros m Hin Hns. destruct (Hrow m Hin) as (a & Ha & -> & Hsnd). cbn.
    pose proof (greedy_schedule_windows _ _ _ _ _ a Hrtw Hrun Ha) as Hw.
    destruct (String.eqb (asg_role a) "SANDWICH") eqn:E.
    + apply String.eqb_eq in E. exfalso. apply Hns. rewrite Hsnd, E. reflexivity.
    + injection Hw as -> ->. auto.
  - intros m Hin Hsw. destruct (Hrow m Hin) as (a & Ha & -> & Hsnd). cbn.
    pose proof (greedy_schedule_windows _ _ _ _ _ a Hrtw Hrun Ha) as Hw.
    rewrite Hsnd in Hsw. injection Hsw as Hsw. rewrite Hsw in Hw. cbn in Hw.
    rewrite !elem_of_cons in Hw.
    destruct Hw as [Hw|[Hw|[Hw|Hw]]]; [| | |inversion Hw];
      injection Hw as _ ->; cbn; lia.
Qed.

Lemma tz_convert_ok offsets :
  offsets <> [] -> Validator.one_offset offsets = true ->
  Validator.tz_convert offsets = Ok tt.
Proof.
  intros Hne Ho. unfold Validator.tz_convert.
  rewrite (proj2 (dt_accessor_ok _) Ho). cbn [bind].
  destruct offsets; [contradiction|reflexivity].
Qed.

(** The coverage section counts a row under the local date of its start
    when the start, moved to UTC, stays on that date. *)
Lemma utc_date_local tz o a :
  tz (start_time a) = o ->
  0 ≤ minutes_of (dt_time (start_time a)) - o < 1440 ->
  utc_date (row_start (row_of tz a)) = asg_date a.
Proof.
  intros Ho Hm. unfold utc_date, utc_minutes, row_start, row_of, to_iso_with_tz, asg_date.
  cbn. rewrite Ho. symmetry.
  apply (Z.div_unique _ 1440 _ (minutes_of (dt_time (start_time a)) - o)); lia.
Qed.

Lemma utc_count_local tz o out date role :
  (forall a, a ∈ out ->
     tz (start_time a) = o /\ 0 ≤ minutes_of (dt_time (start_time a)) - o < 1440) ->
  utc_count (map (row_of tz) out) date role = assignment_count out date role.
Proof.
  unfold utc_count, assignment_count. intros H. f_equal.
  induction out as [|a out IH]; [reflexivity|].
  cbn [map]. rewrite !filter_cons.
  destruct (H a ltac:(left)) as [Ho Hm].
  rewrite (utc_date_local tz o a Ho Hm).
  change (r_assignment (row_of tz a)) with a.
  specialize (IH (fun x Hx => H x (list_elem_of_further _ _ _ Hx))).
  destruct (decide (asg_date a = date ∧ asg_role a = role)); cbn [length]; rewrite IH;
    reflexivity.
Qed.

(** ** Hard constraints of the service layer *)

Lemma is_role_eligible_known primary role :
  role ∈ ROLES ->
  is_role_eligible primary role = String.eqb (upper primary) (upper role).
Proof.
  intros Hrole.
  assert (Hup : upper role = role).
  { unfold ROLES in Hrole. rewrite !elem_of_cons in Hrole.
    destruct Hrole as [->|[->|[->|[->|H]]]]; [reflexivity..|inversion H]. }
  destruct (String.eqb (upper primary) (upper role)) eqn:E.
  - apply is_role_eligible_spec. apply String.eqb_eq in E. split; [exact E|].
    rewrite Hup. exact Hrole.
  - destruct (is_role_eligible primary role) eqn:E'; [|reflexivity].
    apply is_role_eligible_spec in E'. destruct E' as [E' _].
    apply String.eqb_neq in E. contradiction.
Qed.


Lemma pair_overlap_split l :
  ServicesConstraints.pair_overlap l = true <->
  exists l1 a1 l2 a2 l3,
    l = l1 ++ a1 :: l2 ++ a2 :: l3 /\ ServicesConstraints.overlaps a1 a2 = true.
Proof.
  induction l as [|a l IH]; cbn [ServicesConstraints.pair_overlap].
  - split; [discriminate|]. intros (l1 & a1 & l2 & a2 & l3 & H & _).
    destruct l1; discriminate.
  - rewrite orb_true_iff, IH, existsb_exists. split.
    + intros [(a2 & Hin & Hov)|(l1 & a1 & l2 & a2 & l3 & -> & Hov)].
      * apply (proj2 (list_elem_of_In _ _)), list_elem_of_split in Hin.
        destruct Hin as (l2 & l3 & ->). exists [], a, l2, a2, l3. split; [reflexivity|exact Hov].
      * exists (a :: l1), a1, l2, a2, l3. split; [reflexivity|exact Hov].
    + intros (l1 & a1 & l2 & a2 & l3 & Heq & Hov). destruct l1 as [|b l1].
      * injection Heq as <- ->. left. exists a2. split; [|exact Hov].
        apply (proj1 (list_elem_of_In _ _)). apply elem_of_app. right. left.
      * injection Heq as <- ->. right. exists l1, a1, l2, a2, l3. split; [reflexivity|exact Hov].
Qed.

Lemma filter_split {A} (P : A -> Prop) `{forall x, Decision (P x)} (l : list A) g1 a g2 :
  filter P l = g1 ++ a :: g2 ->
  exists l1 l2, l = l1 ++ a :: l2 /\ filter P l1 = g1 /\ filter P l2 = g2 /\ P a.
Proof.
  revert g1. induction l as [|x l IH]; intros g1 Heq.
  - destruct g1; discriminate.
  - rewrite filter_cons in Heq. destruct (decide (P x)) as [Hx|Hx].
    + destruct g1 as [|y g1].
      * injection Heq as -> Heq. exists [], l. repeat split; [exact Heq|exact Hx].
      * injection Heq as -> Heq. destruct (IH g1 Heq) as (l1 & l2 & -> & H1 & H2 & Ha).
        exists (y :: l1), l2. repeat split; [|exact H2|exact Ha].
        rewrite filter_cons. destruct (decide (P y)); [|contradiction]. rewrite H1. reflexivity.
    + destruct (IH g1 Heq) as (l1 & l2 & -> & H1 & H2 & Ha).
      exists (x :: l1), l2. repeat split; [|exact H2|exact Ha].
      rewrite filter_cons. destruct (decide (P x)); [contradiction|]. exact H1.
Qed.

Lemma filter_filter_and {A} (P Q : A -> Prop) `{forall x, Decision (P x)}
  `{forall x, Decision (Q x)} (l : list A) :
  filter P (filter Q l) = filter (fun x => Q x /\ P x) l.
Proof.
  induction l as [|x l IH]; [reflexivity|].
  rewrite !filter_cons. destruct (decide (Q x)) as [Hq|Hq].
  - rewrite filter_cons. destruct (decide (P x)) as [Hp|Hp].
    + destruct (decide (Q x ∧ P x)); [|tauto]. rewrite IH. reflexivity.
    + destruct (decide (Q x ∧ P x)); [tauto|]. exact IH.
  - destruct (decide (Q x ∧ P x)); [tauto|]. exact IH.
Qed.

(** The overlap step finds an overlap exactly when two assignments of one
    employee on one date overlap. *)
Lemma overlap_step_spec assignments :
  existsb (fun by_emp =>
             existsb (fun by_date =>
                        (1 <? length (snd by_date))%nat
                        && ServicesConstraints.pair_overlap (snd by_date))
                     (snd by_emp))
          (ServicesConstraints.emp_by_date assignments) = true
  <-> exists l1 a1 l2 a2 l3,
        assignments = l1 ++ a1 :: l2 ++ a2 :: l3
        /\ emp_id a1 = emp_id a2 /\ asg_date a1 = asg_date a2
        /\ ServicesConstraints.overlaps a1 a2 = true.
Proof.
  rewrite existsb_exists. split.
  - intros ([e groups] & Hin & Hex). apply (proj2 (list_elem_of_In _ _)) in Hin.
    unfold ServicesConstraints.emp_by_date in Hin. apply list_elem_of_fmap in Hin.
    destruct Hin as (e' & [= -> ->] & _). cbn [snd] in Hex.
    apply existsb_exists in Hex. destruct Hex as ([d g] & Hin & Hg).
    apply (proj2 (list_elem_of_In _ _)), list_elem_of_fmap in Hin.
    destruct Hin as (d' & [= -> ->] & _). cbn [snd] in Hg.
    apply andb_true_iff in Hg. destruct Hg as [_ Hg].
    apply pair_overlap_split in Hg. destruct Hg as (g1 & a1 & g2 & a2 & g3 & Heq & Hov).
    rewrite filter_filter_and in Heq.
    apply filter_split in Heq. destruct Heq as (l1 & l' & -> & _ & Heq & [He1 Hd1]).
    apply filter_split in Heq. destruct Heq as (l2 & l3 & -> & _ & _ & [He2 Hd2]).
    exists l1, a1, l2, a2, l3. repeat split; [congruence|congruence|exact Hov].
  - intros (l1 & a1 & l2 & a2 & l3 & -> & He & Hd & Hov).
    set (l := l1 ++ a1 :: l2 ++ a2 :: l3).
    assert (H1 : a1 ∈ l) by (subst l; apply elem_of_app; right; left).
    set (mine := filter (fun a => emp_id a = emp_id a1) l).
    exists (emp_id a1,
            map (fun d => (d, filter (fun a => asg_date a = d) mine))
                (unique (map asg_date mine))).
    split.
    + apply (proj1 (list_elem_of_In _ _)). unfold ServicesConstraints.emp_by_date.
      apply list_elem_of_fmap. exists (emp_id a1). split; [reflexivity|].
      apply unique_elem_iff, list_elem_of_fmap. exists a1. split; [reflexivity|exact H1].
    + cbn [snd]. apply existsb_exists.
      exists (asg_date a1, filter (fun a => asg_date a = asg_date a1) mine). split.
      * apply (proj1 (list_elem_of_In _ _)), list_elem_of_fmap. exists (asg_date a1).
        split; [reflexivity|]. apply unique_elem_iff, list_elem_of_fmap. exists a1.
        split; [reflexivity|]. subst mine. apply list_elem_of_filter. split; [reflexivity|exact H1].
      * cbn [snd]. subst mine. rewrite filter_filter_and. subst l.
        rewrite filter_app, filter_cons, filter_app, filter_cons.
        destruct (decide (emp_id a1 = emp_id a1 ∧ asg_date a1 = asg_date a1)); [|tauto].
        destruct (decide (emp_id a2 = emp_id a1 ∧ asg_date a2 = asg_date a1)) as [_|Hn];
          [|exfalso; apply Hn; split; congruence].
        apply andb_true_iff. split.
        -- apply Nat.ltb_lt. rewrite length_app. cbn [length]. rewrite length_app. cbn [length]. lia.
        -- apply pair_overlap_split. eexists _, a1, _, a2, _. split; [reflexivity|exact Hov].
Qed.

Lemma cafe_hours_loop_ok employees assignments :
  ServicesConstraints.cafe_hours_loop employees assignments = Ok tt
  <-> forall a emp,
        a ∈ assignments ->
        ServicesConstraints.emp_lookup employees (emp_id a) = Some emp ->
        primary_role emp <> "SANDWICH" ->
        7 ≤ hour (dt_time (start_time a)) /\ hour (dt_time (end_time a)) ≤ 15.
Proof.
  induction assignments as [|a0 rest IH]; cbn [ServicesConstraints.cafe_hours_loop].
  - split; [|reflexivity]. intros _ a emp Hin. inversion Hin.
  - destruct (ServicesConstraints.emp_lookup employees (emp_id a0)) as [emp0|] eqn:El.
    + destruct (String.eqb (primary_role emp0) "SANDWICH") eqn:Es; cbn [negb bind].
      * apply String.eqb_eq in Es. rewrite IH. split.
        -- intros H a emp Hin Hl Hns. apply elem_of_cons in Hin.
           destruct Hin as [->|Hin]; [congruence|exact (H a emp Hin Hl Hns)].
        -- intros H a emp Hin. apply H. right. exact Hin.
      * apply String.eqb_neq in Es.
        destruct (hour (dt_time (start_time a0)) <? 7) eqn:E1; cbn.
        { apply Z.ltb_lt in E1. split; [discriminate|]. intros H.
          destruct (H a0 emp0 ltac:(left) El Es). lia. }
        destruct (15 <? hour (dt_time (end_time a0))) eqn:E2; cbn.
        { apply Z.ltb_lt in E2. split; [discriminate|]. intros H.
          destruct (H a0 emp0 ltac:(left) El Es). lia. }
        apply Z.ltb_ge in E1. apply Z.ltb_ge in E2. rewrite IH. split.
        -- intros H a emp Hin Hl Hns. apply elem_of_cons in Hin.
           destruct Hin as [->|Hin]; [split; assumption|exact (H a emp Hin Hl Hns)].
        -- intros H a emp Hin. apply H. right. exact Hin.
    + cbn [bind]. rewrite IH. split.
      * intros H a emp Hin Hl Hns. apply elem_of_cons in Hin.
        destruct Hin as [->|Hin]; [congruence|exact (H a emp Hin Hl Hns)].
      * intros H a emp Hin. apply H. right. exact Hin.
Qed.


(** ** Skills from history *)

Lemma update_employee_identity emp avg :
  employee_id (SkillLoader.update_employee emp avg) = employee_id emp
  /\ primary_role (SkillLoader.update_employee emp avg) = primary_role emp.
Proof.
  unfold SkillLoader.update_employee.
  destruct (avg !! employee_id emp); destruct emp; split; reflexivity.
Qed.

Lemma overwrite_idem average current :
  SkillLoader.overwrite average (SkillLoader.overwrite average current)
  = SkillLoader.overwrite average current.
Proof. destruct average; reflexivity. Qed.

Lemma update_employee_idem emp avg :
  SkillLoader.update_employee (SkillLoader.update_employee emp avg) avg
  = SkillLoader.update_employee emp avg.
Proof.
  destruct (update_employee_identity emp avg) as [Hid _].
  unfold SkillLoader.update_employee at 1. rewrite Hid.
  unfold SkillLoader.update_employee.
  destruct (avg !! employee_id emp) as [skills|]; [|reflexivity].
  destruct emp. cbn. rewrite !overwrite_idem. reflexivity.
Qed.


(** ** The verdict of validate_cp_sat_schedule *)

Lemma validate_assignment_constraints_raises assignments employees cfg :
  ServicesConstraints.validate_assignment_constraints assignments employees cfg = Ok tt
  \/ exists msg,
       ServicesConstraints.validate_assignment_constraints assignments employees cfg
       = Raise (ValueError msg).
Proof.
  unfold ServicesConstraints.validate_assignment_constraints.
  repeat (match goal with |- context [raise_unless ?b ?m] =>
            destruct b; cbn; [|right; eexists; reflexivity] end).
  induction assignments as [|a rest IH]; cbn [ServicesConstraints.cafe_hours_loop]; [left; reflexivity|].
  destruct (ServicesConstraints.emp_lookup employees (emp_id a)) as [emp|]; [|exact IH].
  destruct (negb (String.eqb (primary_role emp) "SANDWICH")); [|exact IH].
  repeat (match goal with |- context [raise_unless ?b ?m] =>
            destruct b; cbn; [|right; eexists; reflexivity] end).
  exact IH.
Qed.

Lemma multiple_assignments_nil assignments :
  CpSatVerdict.multiple_assignments assignments = []
  <-> forall e d, (count_on e d assignments <= 1)%nat.
Proof.
  unfold CpSatVerdict.multiple_assignments, ServicesConstraints.emp_by_date.
  rewrite flat_map_nil. split.
  - intros H e d.
    destruct (decide (count_on e d assignments <= 1)%nat) as [Hle|Hgt]; [exact Hle|exfalso].
    unfold count_on in Hgt.
    destruct (filter (fun a => emp_id a = e ∧ asg_date a = d) assignments) as [|a l] eqn:Ef;
      [simpl in Hgt; lia|].
    assert (Ha : a ∈ filter (fun a => emp_id a = e ∧ asg_date a = d) assignments)
      by (rewrite Ef; left).
    apply list_elem_of_filter in Ha. destruct Ha as [[He Hd] Ha].
    set (mine := filter (fun a => emp_id a = e) assignments).
    specialize (H (e, map (fun d => (d, filter (fun a => asg_date a = d) mine))
                         (unique (map asg_date mine)))).
    cbn [fst snd] in H. rewrite flat_map_nil in H.
    assert (Hin : e ∈ unique (map emp_id assignments)).
    { apply unique_elem_iff, list_elem_of_fmap. exists a. split; [congruence|exact Ha]. }
    specialize (H ltac:(apply list_elem_of_fmap; exists e; split; [reflexivity|exact Hin])
                  (d, filter (fun a => asg_date a = d) mine)).
    cbn [fst snd] in H.
    assert (Hd' : d ∈ unique (map asg_date mine)).
    { apply unique_elem_iff, list_elem_of_fmap. exists a. split; [congruence|].
      subst mine. apply list_elem_of_filter. split; assumption. }
    specialize (H ltac:(apply list_elem_of_fmap; exists d; split; [reflexivity|exact Hd'])).
    subst mine. rewrite filter_filter_and, Ef in H.
    destruct (1 <? length (a :: l))%nat eqn:E; [discriminate|].
    apply Nat.ltb_ge in E. lia.
  - intros H [e groups] Hin. apply list_elem_of_fmap in Hin.
    destruct Hin as (e' & [= -> ->] & _). cbn [snd fst]. apply flat_map_nil.
    intros [d g] Hg. apply list_elem_of_fmap in Hg. destruct Hg as (d' & [= -> ->] & _).
    cbn [snd fst]. rewrite filter_filter_and. specialize (H e' d'). unfold count_on in H.
    destruct (1 <? _)%nat eqn:E; [|reflexivity]. apply Nat.ltb_lt in E. lia.
Qed.

Lemma role_mismatches_nil assignments employees :
  CpSatVerdict.role_mismatches assignments employees = []
  <-> forall a emp,
        a ∈ assignments ->
        ServicesConstraints.emp_lookup employees (emp_id a) = Some emp ->
        asg_role a <> EmptyString ->
        upper (primary_role emp) = upper (asg_role a).
Proof.
  unfold CpSatVerdict.role_mismatches. split.
  - intros H a emp Ha Hl Hr.
    destruct (String.eqb (upper (primary_role emp)) (upper (asg_role a))) eqn:E;
      [apply String.eqb_eq; exact E|exfalso].
    assert (Hin : a ∈ filter (fun assign => CpSatVerdict.role_mismatch employees assign = true)
                       assignments).
    { apply list_elem_of_filter. split; [|exact Ha].
      unfold CpSatVerdict.role_mismatch. rewrite Hl, E.
      apply String.eqb_neq in Hr. rewrite Hr. reflexivity. }
    rewrite H in Hin. inversion Hin.
  - intros H.
    destruct (filter _ assignments) as [|a l] eqn:Ef; [reflexivity|exfalso].
    assert (Hin : a ∈ filter (fun assign => CpSatVerdict.role_mismatch employees assign = true)
                       assignments) by (rewrite Ef; left).
    apply list_elem_of_filter in Hin. destruct Hin as [Hm Ha].
    unfold CpSatVerdict.role_mismatch in Hm.
    destruct (ServicesConstraints.emp_lookup employees (emp_id a)) as [emp|] eqn:Hl;
      [|discriminate].
    apply andb_true_iff in Hm. destruct Hm as [Hr Hne].
    apply negb_true_iff in Hr, Hne. apply String.eqb_neq in Hr. apply String.eqb_neq in Hne.
    exact (Hne (H a emp Ha Hl Hr)).
Qed.

(** ** has_overlap, completely *)

Lemma adjacent_overlap_app l1 l2 :
  Validator.adjacent_overlap l2 = true -> Validator.adjacent_overlap (l1 ++ l2) = true.
Proof.
  intros H. induction l1 as [|x l1 IH]; [exact H|].
  cbn [app]. destruct (l1 ++ l2) as [|y l] eqn:E; [discriminate IH|].
  rewrite adjacent_overlap_cons, IH. apply orb_true_r.
Qed.

Lemma adjacent_overlap_head a c rest :
  emp_id (r_assignment a) = emp_id (r_assignment c) ->
  utc_date (row_start a) = utc_date (row_start c) ->
  stamp_lt (row_start c) (row_end a) = true ->
  Validator.adjacent_overlap (a :: c :: rest) = true.
Proof.
  intros He Hd Hlt. rewrite adjacent_overlap_cons.
  rewrite (proj2 (Z.eqb_eq _ _) He), (proj2 (Z.eqb_eq _ _) Hd), Hlt. reflexivity.
Qed.

(** In a sorted list, a row that starts before an earlier row of its group
    ends is caught at the earlier row's successor. *)
Lemma sorted_pair_detected s1 a t1 b t2 :
  StronglySorted Validator.overlap_key_le (s1 ++ a :: t1 ++ b :: t2) ->
  emp_id (r_assignment a) = emp_id (r_assignment b) ->
  utc_date (row_start a) = utc_date (row_start b) ->
  stamp_lt (row_start b) (row_end a) = true ->
  Validator.adjacent_overlap (s1 ++ a :: t1 ++ b :: t2) = true.
Proof.
  intros Hs He Hd Hlt. apply adjacent_overlap_app.
  apply StronglySorted_app_1_r in Hs.
  destruct t1 as [|c t1]; [apply adjacent_overlap_head; assumption|].
  cbn [app] in *. inversion Hs as [|? ? Hs' Ha]; subst.
  inversion Ha as [|? ? Hac _]; subst.
  inversion Hs' as [|? ? _ Hc]; subst.
  assert (Hcb : Validator.overlap_key_le c b).
  { rewrite Forall_forall in Hc. apply Hc. apply elem_of_app. right. left. }
  unfold Validator.overlap_key_le in Hac, Hcb.
  apply stamp_lt_spec in Hlt.
  apply adjacent_overlap_head; [lia|lia|].
  apply stamp_lt_spec. lia.
Qed.

Lemma adjacent_overlap_complete l a b rest :
  l ≡ₚ a :: b :: rest ->
  emp_id (r_assignment a) = emp_id (r_assignment b) ->
  utc_date (row_start a) = utc_date (row_start b) ->
  stamp_lt (row_start a) (row_end b) = true ->
  stamp_lt (row_start b) (row_end a) = true ->
  Validator.adjacent_overlap (merge_sort Validator.overlap_key_le l) = true.
Proof.
  intros Hperm He Hd Hab Hba.
  pose proof (overlap_sorted l) as Hs.
  pose proof (merge_sort_Permutation Validator.overlap_key_le l) as Hp.
  set (s := merge_sort Validator.overlap_key_le l) in *.
  rewrite Hperm in Hp.
  assert (Ha : a ∈ s) by (rewrite Hp; left).
  apply list_elem_of_split in Ha. destruct Ha as (s1 & s2 & Hs12).
  rewrite Hs12 in Hp. rewrite <- Permutation_middle in Hp.
  apply Permutation_cons_inv in Hp.
  assert (Hb : b ∈ s1 ++ s2) by (rewrite Hp; left).
  rewrite Hs12 in Hs |- *.
  apply elem_of_app in Hb. destruct Hb as [Hb|Hb];
    apply list_elem_of_split in Hb; destruct Hb as (t1 & t2 & ->).
  - rewrite <- app_assoc in Hs |- *. cbn [app] in Hs |- *.
    apply sorted_pair_detected; [exact Hs|congruence|congruence|exact Hab].
  - apply sorted_pair_detected; assumption.
Qed.

Lemma adjacent_overlap_pair l :
  (forall r, r ∈ l -> stamp_lt (row_start r) (row_end r) = true) ->
  Validator.adjacent_overlap (merge_sort Validator.overlap_key_le l) = true ->
  exists a b rest,
    l ≡ₚ a :: b :: rest
    /\ emp_id (r_assignment a) = emp_id (r_assignment b)
    /\ utc_date (row_start a) = utc_date (row_start b)
    /\ stamp_lt (row_start a) (row_end b) = true
    /\ stamp_lt (row_start b) (row_end a) = true.
Proof.
  intros Hwf H.
  pose proof (overlap_sorted l) as Hs.
  pose proof (merge_sort_Permutation Validator.overlap_key_le l) as Hp.
  destruct (adjacent_overlap_split _ H) as (l1 & a & b & l2 & Heq & He & Hd & Hlt).
  rewrite Heq in Hs, Hp.
  exists a, b, (l1 ++ l2). split.
  { rewrite <- Hp. rewrite <- !Permutation_middle. reflexivity. }
  split; [exact He|]. split; [exact Hd|]. split; [|exact Hlt].
  apply StronglySorted_app_1_r in Hs.
  inversion Hs as [|? ? _ Ha]; subst. inversion Ha as [|? ? Hab _]; subst.
  assert (Hb : b ∈ l).
  { rewrite <- Hp. apply elem_of_app. right. right. left. }
  specialize (Hwf b Hb). apply stamp_lt_spec in Hwf. apply stamp_lt_spec.
  unfold Validator.overlap_key_le in Hab. lia.
Qed.

(** ** Weekend shifts need the weekend requirements *)

Lemma process_days_builds fsqrt employees shifts cfg days acc acc' :
  process_days fsqrt employees shifts cfg acc days = Ok acc' ->
  forall day, day ∈ days -> day ∈ map s_date shifts ->
    exists req, Baseline.build_requirements_for_day day cfg = Ok req.
Proof.
  revert acc. induction days as [|d days IH]; intros acc; cbn [process_days].
  - intros _ day Hin. inversion Hin.
  - destruct (process_day fsqrt employees shifts cfg acc d) as [acc1| |] eqn:Hday;
      cbn; try discriminate.
    intros Hrest day Hin Hshift. apply elem_of_cons in Hin.
    destruct Hin as [->|Hin]; [|exact (IH acc1 Hrest day Hin Hshift)].
    unfold process_day in Hday.
    destruct (filter (fun s => s_date s = d) shifts) as [|s0 day_shifts] eqn:Ef.
    + exfalso. apply list_elem_of_fmap in Hshift. destruct Hshift as (s & -> & Hs).
      assert (H : s ∈ filter (fun s' => s_date s' = s_date s) shifts)
        by (apply list_elem_of_filter; split; [reflexivity|exact Hs]).
      rewrite Ef in H. inversion H.
    + destruct (Baseline.build_requirements_for_day d cfg) as [req| |];
        cbn in Hday; try discriminate.
      exists req. reflexivity.
Qed.

Lemma greedy_schedule_weekend fsqrt employees shifts cfg out s :
  greedy_schedule fsqrt employees shifts cfg = Ok out ->
  s ∈ shifts ->
  is_weekend (s_date s) = true ->
  is_Some (weekend_requirements cfg).
Proof.
  unfold greedy_schedule.
  destruct (process_days _ _ _ _ _ _) as [final| |] eqn:Hrun; cbn; try discriminate.
  intros _ Hs Hw.
  assert (Hd : s_date s ∈ map s_date shifts)
    by (apply list_elem_of_fmap; exists s; split; [reflexivity|exact Hs]).
  destruct (process_days_builds _ _ _ _ _ _ _ Hrun (s_date s)) as [req Hreq].
  - apply (proj2 (schedule_days_elem _ cfg (s_date s))).
    apply (proj2 (sorted_shift_dates shifts (s_date s))). exact Hd.
  - apply (proj2 (sorted_shift_dates shifts (s_date s))). exact Hd.
  - rewrite baseline_requirements_cases, Hw in Hreq. cbn in Hreq.
    destruct (weekend_requirements cfg) as [wr|]; [eexists; reflexivity|].
    cbn in Hreq. discriminate.
Qed.

(** ** Properties of listed inputs *)

Lemma Forall_by_decide {A} (P : A -> Prop) `{!forall x, Decision (P x)} (l : list A) :
  bool_decide (Forall P l) -> forall x, x ∈ l -> P x.
Proof. intros Hb. apply Forall_forall. exact (bool_decide_unpack _ Hb). Qed.

(** * Further properties of the code *)

(** ** Roles and requirements *)

(** X1: is_role_eligible holds exactly when the two roles are the same
    after upper-casing and that role is one of MANAGER, BARISTA, WAITER and
    SANDWICH; no role is eligible for another role's slot. *)
Theorem X1_role_eligible_iff_same_known_role :
  forall primary required,
    is_role_eligible primary required = true
    <-> upper primary = upper required /\ upper required ∈ ROLES.
Proof. exact is_role_eligible_spec. Qed.

(** X2: the resolved requirement map lists the default roles first, in
    their configured order, followed by the roles only the weekend overlay
    or the date override names; when the default roles are distinct, so
    are the roles of the resolved map. *)
Theorem X2_requirement_map_keys :
  forall date cfg,
    exists added,
      map fst (Services.build_requirements_for_day date cfg)
      = map fst (default_requirements cfg) ++ added
      /\ (forall role, role ∈ added -> role ∉ map fst (default_requirements cfg))
      /\ (NoDup (map fst (default_requirements cfg)) ->
          NoDup (map fst (Services.build_requirements_for_day date cfg))).
Proof. exact services_requirements_keys. Qed.

(** X3: under a config that passes _validate_config, every count of the
    resolved requirement map of a date is non-negative, provided the
    weekend overlay, which _validate_config does not check, is
    non-negative when the date is a Saturday or Sunday. *)
Theorem X3_validated_config_requirements_nonneg cfg date role c :
  _validate_config cfg = Ok tt ->
  (is_weekend date = true ->
   forall r n, (r, n) ∈ default [] (weekend_requirements cfg) -> 0 ≤ n) ->
  dict_get role (Services.build_requirements_for_day date cfg) = Some c ->
  0 ≤ c.
Proof.
  intros Hok Hwk. apply validate_config_ok in Hok.
  destruct Hok as (_ & _ & Hdef & Hov & _).
  rewrite services_requirements_layered. unfold layered_requirement.
  assert (Hbase : forall n, dict_get role (default_requirements cfg) = Some n -> 0 ≤ n).
  { intros n Hn. apply dict_get_Some_elem in Hn. eapply Hdef, Hn. }
  assert (Hw : forall n,
             (if is_weekend date
              then match dict_get role (default [] (weekend_requirements cfg)) with
                   | Some c0 => Some c0
                   | None => dict_get role (default_requirements cfg)
                   end
              else dict_get role (default_requirements cfg)) = Some n -> 0 ≤ n).
  { intros n. destruct (is_weekend date); [|apply Hbase].
    destruct (dict_get role (default [] (weekend_requirements cfg))) as [w|] eqn:E;
      [|apply Hbase].
    intros [= <-]. apply dict_get_Some_elem in E. eapply Hwk; [reflexivity|exact E]. }
  destruct (dict_get date (overrides cfg)) as [ov|] eqn:Eov; [|apply Hw].
  destruct (dict_get role ov) as [n|] eqn:En; [|apply Hw].
  intros [= <-]. apply dict_get_Some_elem in Eov. apply dict_get_Some_elem in En.
  eapply Hov; eassumption.
Qed.

Lemma X3_validated_config_requirements_nonneg_witness :
  _validate_config default_cfg = Ok tt /\ 0 ≤ 2.
Proof.
  assert (Hok : _validate_config default_cfg = Ok tt) by (vm_compute; reflexivity).
  split; [exact Hok|].
  refine (X3_validated_config_requirements_nonneg default_cfg monday "BARISTA" 2 Hok _ _).
  - intros Hw. vm_compute in Hw. discriminate.
  - vm_compute. reflexivity.
Defined.

(** X4: for shifts that include a Saturday or Sunday, under a config
    without a [weekend_requirements] attribute (the dataclass declares
    none), the engine never returns a schedule: the run ends in an
    exception. *)
Theorem X4_weekend_shift_needs_weekend_requirements :
  forall fsqrt employees shifts cfg s,
    weekend_requirements cfg = None ->
    s ∈ shifts ->
    is_weekend (s_date s) = true ->
    exists e, greedy_schedule fsqrt employees shifts cfg = Raise e.
Proof.
  intros fsqrt employees shifts cfg s Hnone Hs Hw.
  destruct (greedy_schedule fsqrt employees shifts cfg) as [out|e|] eqn:Hrun.
  - destruct (greedy_schedule_weekend _ _ _ _ _ _ Hrun Hs Hw) as [wr Hwr]. congruence.
  - exists e. reflexivity.
  - exfalso. exact (greedy_schedule_terminates _ _ _ _ Hrun).
Qed.

Lemma X4_weekend_shift_needs_weekend_requirements_witness :
  exists e, greedy_schedule approx_sqrt employees_basic saturday_shift default_cfg = Raise e.
Proof.
  refine (X4_weekend_shift_needs_weekend_requirements approx_sqrt employees_basic
            saturday_shift default_cfg {| s_shift_id := 6; s_date := saturday |} eq_refl _ _).
  - left.
  - vm_compute. reflexivity.
Defined.

(** ** Fitness and penalties *)



(** X6: the baseline fairness penalty keeps the employee ids of the hours
    series in order, is never negative, and is 0 for every employee whose
    hours do not exceed the cohort median, whatever the standard deviation
    (for a square root that is never negative and a non-negative factor). *)
Theorem X6_fairness_penalty_zero_up_to_median fsqrt series role w :
  (forall x, (0 <= fsqrt x)%Q) ->
  (0 <= fairness_penalty_per_std_above_median w)%Q ->
  map fst (fairness_penalty fsqrt series role w) = map fst series
  /\ Forall (fun kv => (0 <= snd kv)%Q) (fairness_penalty fsqrt series role w)
  /\ (forall i e h,
         series !! i = Some (e, h) ->
         (h <= median series.*2)%Q ->
         exists p, fairness_penalty fsqrt series role w !! i = Some (e, p) /\ p == 0).
Proof.
  intros Hsqrt Hw. unfold fairness_penalty. unfold dict in *.
  destruct series as [|kv0 series0].
  { split; [reflexivity|]. split; [constructor|]. intros i e h Hi. destruct i; discriminate. }
  cbv beta iota. remember (kv0 :: series0) as series eqn:Hs. clear Hs.
  set (med := median series.*2). set (sd := std fsqrt series.*2).
  assert (Hsd : (0 <= sd)%Q) by apply Hsqrt.
  destruct (Qeq_bool sd 0) eqn:E.
  - split; [rewrite map_map; reflexivity|]. split.
    + apply Forall_forall. intros kv Hkv. apply list_elem_of_fmap in Hkv.
      destruct Hkv as [x [-> _]]. simpl. apply Qle_refl.
    + intros i e h Hi _. exists 0%Q. split; [|reflexivity].
      rewrite lookup_map, Hi. reflexivity.
  - apply Qeq_bool_neq in E.
    assert (Hpos : (0 < sd)%Q).
    { apply Qle_lteq in Hsd. destruct Hsd as [H|H]; [exact H|]. exfalso. apply E. symmetry. exact H. }
    split; [rewrite map_map; reflexivity|]. split.
    + apply Forall_forall. intros kv Hkv. apply list_elem_of_fmap in Hkv.
      destruct Hkv as [x [-> _]]. simpl.
      apply Qmult_le_0_compat; [apply Q.le_max_l|exact Hw].
    + intros i e h Hi Hle. eexists. split.
      * rewrite lookup_map, Hi. reflexivity.
      * simpl. rewrite Qmax_0_nonpos; [lra|].
        unfold Qdiv. apply Qle_trans with (0 * / sd)%Q.
        -- apply Qmult_le_compat_r; [lra|]. apply Qlt_le_weak, Qinv_lt_0_compat, Hpos.
        -- rewrite Qmult_0_l. apply Qle_refl.
Qed.

Lemma X6_fairness_penalty_zero_up_to_median_witness :
  exists p,
    fairness_penalty approx_sqrt [(1, 0%Q); (2, 8%Q); (3, 8%Q)] "BARISTA" (weights default_cfg)
    !! 1%nat = Some (2, p) /\ p == 0.
Proof.
  refine (proj2 (proj2 (X6_fairness_penalty_zero_up_to_median approx_sqrt
                          [(1, 0%Q); (2, 8%Q); (3, 8%Q)] "BARISTA" (weights default_cfg)
                          approx_sqrt_nonneg _)) 1%nat 2 8%Q eq_refl _).
  - vm_compute. discriminate.
  - vm_compute. discriminate.
Defined.

(** X7: the services rotation penalty is never negative and never
    decreases when the hours grow: within a cohort, fewer hours never cost
    more (for a non-negative factor). *)
Theorem X7_services_fairness_monotone cohort e1 e2 h1 h2 factor :
  (0 <= factor)%Q ->
  (h1 <= h2)%Q ->
  (0 <= ServicesScoring.calculate_fairness_penalty e1 h1 cohort factor)%Q
  /\ (ServicesScoring.calculate_fairness_penalty e1 h1 cohort factor
      <= ServicesScoring.calculate_fairness_penalty e2 h2 cohort factor)%Q.
Proof.
  intros Hf Hh. unfold ServicesScoring.calculate_fairness_penalty.
  destruct (size cohort <=? 1)%nat; [split; apply Qle_refl|].
  set (m := ServicesScoring.min_hours cohort).
  destruct (Qleb h1 m) eqn:E1; destruct (Qleb h2 m) eqn:E2.
  - split; apply Qle_refl.
  - split; [apply Qle_refl|].
    assert (Hm : (m < h2)%Q).
    { apply Qnot_le_lt. intros H. apply Qleb_true in H. congruence. }
    apply Qmult_le_0_compat; [exact Hf|lra].
  - apply Qleb_true in E2.
    assert (Hm : (m < h1)%Q).
    { apply Qnot_le_lt. intros H. apply Qleb_true in H. congruence. }
    lra.
  - assert (Hm1 : (m < h1)%Q).
    { apply Qnot_le_lt. intros H. apply Qleb_true in H. congruence. }
    split.
    + apply Qmult_le_0_compat; [exact Hf|lra].
    + assert (H : (0 <= factor * (h2 - h1))%Q) by (apply Qmult_le_0_compat; lra).
      lra.
Qed.

Lemma X7_services_fairness_monotone_witness :
  (ServicesScoring.calculate_fairness_penalty 1 0 cohort_0_8 (1 # 4)
   <= ServicesScoring.calculate_fairness_penalty 2 8 cohort_0_8 (1 # 4))%Q.
Proof.
  refine (proj2 (X7_services_fairness_monotone cohort_0_8 1 2 0 8 (1 # 4) _ _)).
  - vm_compute. discriminate.
  - vm_compute. discriminate.
Defined.



(** ** The slot loop *)

(** X10: slot [i] of a role takes the base window of index [i] modulo the
    number of base windows, and the replicated list of windows never runs
    short of the needed count, so the default-shift fallback of the lookup
    is never taken. *)
Theorem X10_slot_window_cycles :
  forall (time_patterns : list (hm * hm)) (needed : Z) (i : nat),
    (0 < length time_patterns)%nat ->
    Z.of_nat i < needed ->
    replicate_patterns time_patterns needed !! i
    = time_patterns !! (i mod length time_patterns)%nat
    /\ is_Some (replicate_patterns time_patterns needed !! i).
Proof. exact replicate_patterns_lookup. Qed.

Lemma X10_slot_window_cycles_witness :
  replicate_patterns (fst (base_time_patterns default_cfg "BARISTA" true)) 3 !! 2%nat
  = fst (base_time_patterns default_cfg "BARISTA" true) !! 0%nat.
Proof.
  refine (proj1 (X10_slot_window_cycles
                   (fst (base_time_patterns default_cfg "BARISTA" true)) 3 2 _ _)).
  - vm_compute. lia.
  - lia.
Defined.

(** X11: the strict re-filter of the pool on the role hard cap removes
    nothing: every row of the pool already passed the same test in the
    eligibility mask. *)
Theorem X11_strict_filter_keeps_pool :
  forall cx wh today start_hm end_hm,
    strict_pool cx wh start_hm end_hm (slot_pool cx wh today start_hm end_hm)
    = slot_pool cx wh today start_hm end_hm.
Proof. exact strict_pool_id. Qed.

(** X12: the backtracking swap never replaces an assignment.  It runs only
    when the pool of the slot is empty, and then no candidate passes its
    own eligibility test either, whatever the buffer holds. *)
Theorem X12_backtracking_never_swaps :
  forall cx start_hm end_hm st buffer_rev,
    slot_pool cx (weekly_hours st) (assigned_today st) start_hm end_hm = [] ->
    backtrack_swap cx start_hm end_hm st buffer_rev = Ok None.
Proof. exact backtrack_swap_none. Qed.

Lemma X12_backtracking_never_swaps_witness :
  backtrack_swap (barista_monday_cx employees_basic default_cfg) (HM 7 0) (HM 15 0)
    baristas_taken (rev (backtrack_buffer baristas_taken)) = Ok None.
Proof.
  refine (X12_backtracking_never_swaps (barista_monday_cx employees_basic default_cfg)
            (HM 7 0) (HM 15 0) baristas_taken (rev (backtrack_buffer baristas_taken)) _).
  vm_compute. reflexivity.
Defined.

(** X13: the weekend fallback block never assigns anyone and never raises:
    it is reached only after the slot loop has returned, and then every
    slot is filled and its guard is false. *)
Theorem X13_weekend_fallback_never_runs :
  forall cx fuel busy st st',
    slot_loop cx fuel st = Ok st' ->
    weekend_fallback_block cx busy st' = Ok st'.
Proof. exact weekend_fallback_block_skipped. Qed.

Lemma X13_weekend_fallback_never_runs_witness :
  match slot_loop (barista_monday_cx employees_basic default_cfg) 1 (loop_start [1]) with
  | Ok st' =>
      weekend_fallback_block (barista_monday_cx employees_basic default_cfg) true st' = Ok st'
  | _ => False
  end.
Proof.
  destruct (slot_loop (barista_monday_cx employees_basic default_cfg) 1 (loop_start [1]))
    as [st'| |] eqn:Hrun.
  - exact (X13_weekend_fallback_never_runs _ 1%nat true (loop_start [1]) st' Hrun).
  - vm_compute in Hrun. discriminate.
  - vm_compute in Hrun. discriminate.
Defined.

(** X14: the slot loop needs at most one iteration per open slot, each
    iteration either raising or committing one assignment: given that many
    iterations it never runs out, and when it returns it has appended
    exactly one assignment per open slot, all of the role and the day. *)
Theorem X14_slot_loop_fills_or_raises :
  forall cx fuel st,
    cx_needed cx - slots_assigned st ≤ Z.of_nat fuel ->
    slot_loop cx fuel st <> OutOfFuel
    /\ forall st',
         slot_loop cx fuel st = Ok st' ->
         exists block,
           assignments st' = assignments st ++ block
           /\ Z.of_nat (length block) = Z.max 0 (cx_needed cx - slots_assigned st)
           /\ Forall (fun a => asg_date a = cx_day cx /\ asg_role a = cx_role cx) block.
Proof.
  intros cx fuel st Hfuel. split; [exact (slot_loop_fuel cx fuel st Hfuel)|].
  intros st'. apply slot_loop_block.
Qed.

Lemma X14_slot_loop_fills_or_raises_witness :
  slot_loop (barista_monday_cx employees_basic default_cfg) 1 (loop_start [1]) <> OutOfFuel.
Proof.
  refine (proj1 (X14_slot_loop_fills_or_raises
                   (barista_monday_cx employees_basic default_cfg) 1 (loop_start [1]) _)).
  vm_compute. discriminate.
Defined.

(** ** The schedule the engine returns *)

(** X15: every assignment of a returned schedule names a row of the
    employees table whose upper-cased primary role is the assignment's
    role, one of the four known roles; its shift id is the 64-bit cast
    ([astype(int)]) of the id of a shift of the input with the assignment's
    date, which is that id when it fits 64 signed bits; and its start and
    end times lie on that date and are taken from one of the role's windows
    for the day. *)
Theorem X15_committed_assignments_well_formed :
  forall fsqrt employees shifts cfg out,
    greedy_schedule fsqrt employees shifts cfg = Ok out ->
    Forall (asg_wf employees shifts cfg) out.
Proof. exact greedy_schedule_wf. Qed.

Lemma X15_committed_assignments_well_formed_witness :
  Forall (asg_wf employees_basic shifts_5_days default_cfg) schedule_basic.
Proof.
  refine (X15_committed_assignments_well_formed approx_sqrt employees_basic shifts_5_days
            default_cfg schedule_basic _).
  vm_compute. reflexivity.
Defined.



(** X17: a returned schedule covers every role exactly: on each date that
    has a shift, the number of assignments of a role is the count the
    requirement map of the date gives it (0 for a role the map does not
    name, or names with a negative count), and no assignment falls on
    another date.  The default roles are distinct, as the keys of a dict. *)
Theorem X17_engine_coverage_exact :
  forall fsqrt employees shifts cfg out,
    NoDup (map fst (default_requirements cfg)) ->
    greedy_schedule fsqrt employees shifts cfg = Ok out ->
    forall d r,
      assignment_count out d r
      = if decide (d ∈ map s_date shifts)
        then required_of (Services.build_requirements_for_day d cfg) r else 0.
Proof. exact greedy_schedule_counts. Qed.

Lemma X17_engine_coverage_exact_witness :
  assignment_count schedule_basic monday "BARISTA"
  = if decide (monday ∈ map s_date shifts_5_days)
    then required_of (Services.build_requirements_for_day monday default_cfg) "BARISTA"
    else 0.
Proof.
  refine (X17_engine_coverage_exact approx_sqrt employees_basic shifts_5_days default_cfg
            schedule_basic _ _ monday "BARISTA").
  - apply (bool_decide_unpack (NoDup (map fst (default_requirements default_cfg)))).
    vm_compute. exact I.
  - vm_compute. reflexivity.
Defined.

(** X18: the engine returns only when every role is staffed: on each date
    with a shift, the count required of a role is at most the number of
    employees whose upper-cased primary role is that role. *)
Theorem X18_engine_needs_enough_staff fsqrt employees shifts cfg out :
  NoDup (map fst (default_requirements cfg)) ->
  greedy_schedule fsqrt employees shifts cfg = Ok out ->
  forall d role,
    d ∈ map s_date shifts ->
    required_of (Services.build_requirements_for_day d cfg) role
    ≤ Z.of_nat (length (role_cohort employees role)).
Proof.
  intros Hkeys Hrun d role Hd.
  pose proof (greedy_schedule_counts _ _ _ _ _ Hkeys Hrun d role) as Hcount.
  destruct (decide (d ∈ map s_date shifts)); [|contradiction].
  rewrite <- Hcount. unfold assignment_count. apply inj_le.
  destruct (greedy_schedule_inv _ _ _ _ _ Hrun) as (seen & wh & Hinv).
  pose proof (greedy_schedule_wf _ _ _ _ _ Hrun) as Hwf. rewrite Forall_forall in Hwf.
  rewrite <- (length_map emp_id), <- (length_map employee_id (role_cohort employees role)).
  apply submseteq_length, NoDup_submseteq.
  - apply filtered_ids_NoDup. intros e'. exact (wk_unique _ _ _ _ _ Hinv e' d).
  - intros e' He. apply list_elem_of_fmap in He. destruct He as [a [-> Ha]].
    apply list_elem_of_filter in Ha. destruct Ha as [[_ Hr] Ha].
    destruct (Hwf a Ha) as [(r & Hin & Hid & Hrole) _].
    apply list_elem_of_fmap. exists r. split; [congruence|].
    unfold role_cohort. apply list_elem_of_filter. split; [congruence|exact Hin].
Qed.

Lemma X18_engine_needs_enough_staff_witness :
  required_of (Services.build_requirements_for_day monday default_cfg) "BARISTA"
  ≤ Z.of_nat (length (role_cohort employees_basic "BARISTA")).
Proof.
  refine (X18_engine_needs_enough_staff approx_sqrt employees_basic shifts_5_days default_cfg
            schedule_basic _ _ monday "BARISTA" _).
  - apply (bool_decide_unpack (NoDup (map fst (default_requirements default_cfg)))).
    vm_compute. exact I.
  - vm_compute. reflexivity.
  - apply (list_elem_of_lookup_2 _ 0%nat). reflexivity.
Defined.

(** ** Validation of a schedule *)

(** X19: has_overlap groups the rows by employee and by the UTC date of
    their start.  On rows that end after they start it reports an overlap
    exactly when the start times carry one UTC offset and two rows of one
    employee whose starts fall on one UTC date overlap as instants;
    comparing each row with its successor in start order misses no such
    pair. *)
Theorem X19_has_overlap_iff_overlapping_pair :
  forall rows,
    (forall r, r ∈ rows -> stamp_lt (row_start r) (row_end r) = true) ->
    Validator.has_overlap (Some rows) = Ok true
    <-> Validator.one_offset (map r_start_offset rows) = true
        /\ exists a b rest,
             rows ≡ₚ a :: b :: rest
             /\ emp_id (r_assignment a) = emp_id (r_assignment b)
             /\ utc_date (row_start a) = utc_date (row_start b)
             /\ stamp_lt (row_start a) (row_end b) = true
             /\ stamp_lt (row_start b) (row_end a) = true.
Proof.
  intros rows Hwf. rewrite has_overlap_rows. split.
  - intros [[_ H]|(_ & Ho & Hadj)]; [discriminate|].
    split; [exact Ho|]. exact (adjacent_overlap_pair rows Hwf Hadj).
  - intros (Ho & a & b & rest & Hp & He & Hd & H1 & H2). right.
    split; [intros ->; apply Permutation_length in Hp; discriminate|].
    split; [exact Ho|].
    exact (adjacent_overlap_complete rows a b rest Hp He Hd H1 H2).
Qed.

Lemma X19_has_overlap_iff_overlapping_pair_witness :
  Validator.one_offset (map r_start_offset (map (row_of utc_zone) overlapping_pair)) = true
  /\ exists a b rest,
       map (row_of utc_zone) overlapping_pair ≡ₚ a :: b :: rest
       /\ emp_id (r_assignment a) = emp_id (r_assignment b)
       /\ utc_date (row_start a) = utc_date (row_start b)
       /\ stamp_lt (row_start a) (row_end b) = true
       /\ stamp_lt (row_start b) (row_end a) = true.
Proof.
  refine (proj1 (X19_has_overlap_iff_overlapping_pair
                   (map (row_of utc_zone) overlapping_pair) _) _).
  - intros r Hr. unfold overlapping_pair in Hr. cbn [map] in Hr.
    rewrite !elem_of_cons in Hr.
    destruct Hr as [->|[->|Hr]]; [reflexivity|reflexivity|inversion Hr].
  - vm_compute. reflexivity.
Defined.

(** X20: a schedule the engine returns, turned into the DataFrame of lines
    387-402, passes the referential-integrity section of
    validate_assignments and has no overlap for has_overlap, when it is not
    empty, the shift ids fit 64 signed bits, all its times carry one UTC
    offset and are valid times of day. *)
Theorem X20_engine_output_passes_integrity_and_overlap :
  forall fsqrt employees shifts cfg out tz o,
    greedy_schedule fsqrt employees shifts cfg = Ok out ->
    out <> [] ->
    (forall s, s ∈ shifts -> int64 (s_shift_id s)) ->
    (forall a, a ∈ out ->
       tz (start_time a) = o /\ tz (end_time a) = o
       /\ valid_time (dt_time (start_time a)) /\ valid_time (dt_time (end_time a))) ->
    Validator.referential_integrity employees shifts (assignments_frame tz out) = Ok tt
    /\ Validator.has_overlap (assignments_frame tz out) = Ok false.
Proof.
  intros fsqrt employees shifts cfg out tz o Hrun Hne Hids Hrows. split.
  - exact (greedy_schedule_referential _ _ _ _ _ tz Hrun Hne Hids).
  - exact (greedy_schedule_no_overlap _ _ _ _ _ tz o Hrun Hne Hrows).
Qed.

Lemma X20_engine_output_passes_integrity_and_overlap_witness :
  Validator.referential_integrity employees_basic shifts_5_days
    (assignments_frame sydney_standard schedule_basic) = Ok tt
  /\ Validator.has_overlap (assignments_frame sydney_standard schedule_basic) = Ok false.
Proof.
  refine (X20_engine_output_passes_integrity_and_overlap approx_sqrt employees_basic
            shifts_5_days default_cfg schedule_basic sydney_standard 600 _ _ _ _).
  - vm_compute. reflexivity.
  - intros H. vm_compute in H. discriminate H.
  - apply (Forall_by_decide (fun s => int64 (s_shift_id s))). vm_compute. exact I.
  - apply (Forall_by_decide
             (fun a => sydney_standard (start_time a) = 600
                       /\ sydney_standard (end_time a) = 600
                       /\ valid_time (dt_time (start_time a))
                       /\ valid_time (dt_time (end_time a)))).
    vm_compute. exact I.
Defined.

(** X21: with unique employee ids, shift ids that fit 64 signed bits, no
    configured role windows and a default shift of valid times inside
    07:00-15:00 that ends on the hour, a schedule the engine returns that
    is not empty and whose times carry one UTC offset passes the
    cafe-hours section as well, so validate_assignments raises NameError on
    [per_role_caps] for it: the generate command of the CLI does not get
    past validation. *)
Theorem X21_generate_reaches_name_error :
  forall fsqrt employees shifts cfg out tz o start_hm end_hm reqs,
    NoDup (map employee_id employees) ->
    (forall s, s ∈ shifts -> int64 (s_shift_id s)) ->
    role_time_windows cfg = [] ->
    valid_time (ds_start (default_shift cfg)) ->
    valid_time (ds_end (default_shift cfg)) ->
    7 ≤ hour (ds_start (default_shift cfg)) ->
    hour (ds_end (default_shift cfg)) ≤ 15 ->
    minute (ds_end (default_shift cfg)) = 0 ->
    greedy_schedule fsqrt employees shifts cfg = Ok out ->
    out <> [] ->
    (forall a, a ∈ out -> tz (start_time a) = o /\ tz (end_time a) = o) ->
    Validator.cafe_hours (Validator.merge_roles employees (map (row_of tz) out)) = Ok tt
    /\ Validator.validate_assignments employees shifts (assignments_frame tz out)
         start_hm end_hm reqs
       = Raise (NameError "per_role_caps").
Proof.
  intros fsqrt employees shifts cfg out tz o start_hm end_hm reqs
         Hnd Hids Hrtw Hvs Hve Hs He Hm Hrun Hne Htz.
  pose proof (greedy_schedule_cafe_hours _ _ _ _ _ tz o Hnd Hrtw Hs He Hm Hrun Htz) as Hcafe.
  split; [exact Hcafe|].
  apply validate_assignments_name_error.
  - exact (greedy_schedule_referential _ _ _ _ _ tz Hrun Hne Hids).
  - rewrite (assignments_frame_rows tz out Hne). exact Hcafe.
  - apply (greedy_schedule_no_overlap _ _ _ _ _ tz o Hrun Hne).
    intros a Ha. destruct (Htz a Ha) as [H1 H2].
    destruct (greedy_schedule_valid_times _ _ _ _ _ a Hrtw Hvs Hve Hrun Ha) as [H3 H4].
    auto.
Qed.

Lemma X21_generate_reaches_name_error_witness :
  Validator.cafe_hours
    (Validator.merge_roles employees_basic (map (row_of sydney_standard) schedule_basic))
  = Ok tt
  /\ Validator.validate_assignments employees_basic shifts_5_days
       (assignments_frame sydney_standard schedule_basic)
       (HM 7 0) (HM 15 0) (Some requirements_basic)
     = Raise (NameError "per_role_caps").
Proof.
  refine (X21_generate_reaches_name_error approx_sqrt employees_basic shifts_5_days
            default_cfg schedule_basic sydney_standard 600 (HM 7 0) (HM 15 0)
            (Some requirements_basic) _ _ eq_refl _ _ _ _ eq_refl _ _ _).
  - apply (bool_decide_unpack (NoDup (map employee_id employees_basic))). vm_compute. exact I.
  - apply (Forall_by_decide (fun s => int64 (s_shift_id s))). vm_compute. exact I.
  - unfold valid_time. cbn. lia.
  - unfold valid_time. cbn. lia.
  - vm_compute. discriminate.
  - vm_compute. discriminate.
  - vm_compute. reflexivity.
  - intros H. vm_compute in H. discriminate H.
  - apply (Forall_by_decide
             (fun a => sydney_standard (start_time a) = 600
                       /\ sydney_standard (end_time a) = 600)).
    vm_compute. exact I.
Defined.

(** X22: the coverage section of validate_assignments counts a row under
    the UTC date of its start.  It accepts a schedule the engine returns,
    for a requirement map that gives dates of the shifts their resolved
    requirements, as the CLI builds it, when no required count is
    negative, the schedule is not empty, its start times carry one UTC
    offset, and every start stays on its local date when moved to UTC. *)
Theorem X22_engine_output_passes_coverage_check
  fsqrt employees shifts cfg out reqs tz o :
  NoDup (map fst (default_requirements cfg)) ->
  greedy_schedule fsqrt employees shifts cfg = Ok out ->
  out <> [] ->
  (forall a, a ∈ out ->
     tz (start_time a) = o /\ 0 ≤ minutes_of (dt_time (start_time a)) - o < 1440) ->
  (forall date req, (date, req) ∈ reqs ->
     date ∈ map s_date shifts
     /\ req = Services.build_requirements_for_day date cfg
     /\ forall role n, (role, n) ∈ req -> 0 ≤ n) ->
  Validator.coverage_check (map (row_of tz) out) (Some reqs) = Ok tt.
Proof.
  intros Hkeys Hrun Hne Htz Hreqs.
  unfold Validator.coverage_check.
  rewrite tz_convert_ok; [cbn [bind]| |].
  2:{ destruct out; [contradiction|discriminate]. }
  2:{ apply (one_offset_const o). intros x Hx.
      apply list_elem_of_fmap in Hx. destruct Hx as (r & -> & Hr).
      apply list_elem_of_fmap in Hr. destruct Hr as (a & -> & Ha).
      cbn. apply (Htz a Ha). }
  apply check_ok, forallb_elem. intros [date req] Hd. cbn [fst snd].
  apply forallb_elem. intros [role n] Hr.
  unfold Validator.coverage_pair_ok. cbn [fst snd]. apply Z.eqb_eq.
  destruct (Hreqs date req Hd) as (Hdate & -> & Hnn).
  rewrite (utc_count_local tz o _ date role Htz).
  rewrite (greedy_schedule_counts _ _ _ _ _ Hkeys Hrun date role).
  destruct (decide (date ∈ map s_date shifts)); [|contradiction].
  unfold required_of. rewrite (dict_get_elem_NoDup role n _); [|
    destruct (services_requirements_keys date cfg) as (added & _ & _ & H); apply H, Hkeys
    |exact Hr].
  specialize (Hnn role n Hr). lia.
Qed.

Lemma X22_engine_output_passes_coverage_check_witness :
  Validator.coverage_check (map (row_of utc_zone) schedule_basic)
    (Some [(monday, Services.build_requirements_for_day monday default_cfg)]) = Ok tt.
Proof.
  refine (X22_engine_output_passes_coverage_check approx_sqrt employees_basic shifts_5_days
            default_cfg schedule_basic
            [(monday, Services.build_requirements_for_day monday default_cfg)]
            utc_zone 0 _ _ _ _ _).
  - apply (bool_decide_unpack (NoDup (map fst (default_requirements default_cfg)))).
    vm_compute. exact I.
  - vm_compute. reflexivity.
  - intros H. vm_compute in H. discriminate H.
  - apply (Forall_by_decide
             (fun a => utc_zone (start_time a) = 0
                       /\ 0 ≤ minutes_of (dt_time (start_time a)) - 0 < 1440)).
    vm_compute. exact I.
  - intros date req Hin. apply list_elem_of_singleton in Hin. injection Hin as -> ->.
    split; [apply (list_elem_of_lookup_2 _ 0%nat); reflexivity|].
    split; [reflexivity|].
    intros role n Hr. vm_compute in Hr.
    repeat (apply elem_of_cons in Hr; destruct Hr as [Hr|Hr]; [injection Hr as -> ->; lia|]).
    inversion Hr.
Defined.

(** X29: has_overlap compares only rows whose starts fall on one UTC date.
    Two shifts of one employee on one Saturday, 07:00-15:00 and
    12:00-16:00 at +10:00, overlap by three hours; the first starts on the
    Friday in UTC and the second on the Saturday, and has_overlap returns
    False for them.  Stamped in UTC the same pair is reported, and the
    service layer, which groups by the local date, rejects it. *)
Theorem X29_has_overlap_misses_overlap_across_utc_midnight :
  Validator.has_overlap (assignments_frame sydney_standard overlapping_pair) = Ok false
  /\ map (fun r => utc_date (row_start r)) (map (row_of sydney_standard) overlapping_pair)
     = [saturday - 1; saturday]
  /\ Forall (fun r => stamp_lt (row_start r) (row_end r) = true)
            (map (row_of sydney_standard) overlapping_pair)
  /\ (exists a b,
         map (row_of sydney_standard) overlapping_pair = [a; b]
         /\ emp_id (r_assignment a) = emp_id (r_assignment b)
         /\ stamp_lt (row_start a) (row_end b) = true
         /\ stamp_lt (row_start b) (row_end a) = true)
  /\ Validator.has_overlap (assignments_frame utc_zone overlapping_pair) = Ok true
  /\ ServicesConstraints.validate_assignment_constraints overlapping_pair employees_basic
       default_cfg
     = Raise (ValueError "Employee has overlapping assignments").
Proof.
  split; [vm_compute; reflexivity|]. split; [vm_compute; reflexivity|].
  split; [repeat constructor|].
  split; [do 2 eexists; repeat split; reflexivity|].
  split; vm_compute; reflexivity.
Qed.

(** X30: greedy_schedule builds its DataFrame from the list of assignments,
    so a schedule without assignments is a frame without columns, and
    validate_assignments raises KeyError on [emp_id] for it at its first
    check.  The engine returns such a schedule when the configuration
    requires no one, which _validate_config accepts. *)
Theorem X30_empty_schedule_raises_key_error :
  (forall tz employees shifts start_hm end_hm reqs,
      Validator.validate_assignments employees shifts (assignments_frame tz [])
        start_hm end_hm reqs
      = Raise (ColumnKeyError "emp_id"))
  /\ _validate_config cfg_no_one_required = Ok tt
  /\ greedy_schedule approx_sqrt employees_basic shifts_5_days cfg_no_one_required = Ok [].
Proof.
  split; [reflexivity|]. split; vm_compute; reflexivity.
Qed.

(** ** The service layer *)

(** X23: for a known role whose policy has a hard cap, under a config with
    a global cap, the engine's eligibility mask and can_assign_employee
    take the same decision on every employee row. *)
Theorem X23_eligible_mask_agrees_with_can_assign cx wh today start_hm end_hm r g :
  cx_role cx ∈ ROLES ->
  global_hard_cap (cx_cfg cx) = Some g ->
  is_Some (dict_get (cx_role cx) (hours_policy (cx_cfg cx)) ≫= hard_cap) ->
  eligible_mask cx wh today start_hm end_hm r
  = ServicesConstraints.can_assign_employee r (cx_role cx)
      (slot_hours_of (cx_day cx) start_hm end_hm) today wh
      (hours_policy (cx_cfg cx)) g.
Proof.
  intros Hrole Hg [cap Hcap].
  assert (Hup : upper (cx_role cx) = cx_role cx).
  { unfold ROLES in Hrole. rewrite !elem_of_cons in Hrole.
    destruct Hrole as [->|[->|[->|[->|H]]]]; [reflexivity..|inversion H]. }
  unfold eligible_mask, ServicesConstraints.can_assign_employee, role_hard_cap.
  cbv zeta. rewrite Hg, (is_role_eligible_known _ _ Hrole), Hup, Hcap. cbn [default].
  destruct (String.eqb (upper (primary_role r)) (cx_role cx)); cbn [negb];
    repeat (match goal with |- context [if ?b then _ else _] => destruct b end);
    reflexivity.
Qed.

Lemma X23_eligible_mask_agrees_with_can_assign_witness :
  eligible_mask (barista_monday_cx employees_basic cfg_policy_and_cap) ∅ ∅
    (HM 7 0) (HM 15 0) barista_2
  = ServicesConstraints.can_assign_employee barista_2 "BARISTA"
      (slot_hours_of monday (HM 7 0) (HM 15 0)) ∅ ∅ policy_16_24 50.
Proof.
  refine (X23_eligible_mask_agrees_with_can_assign
            (barista_monday_cx employees_basic cfg_policy_and_cap) ∅ ∅
            (HM 7 0) (HM 15 0) barista_2 50 _ eq_refl _).
  - apply (list_elem_of_lookup_2 _ 1%nat). reflexivity.
  - exists 40%Q. reflexivity.
Defined.

(** X24: validate_assignment_constraints returns exactly when no two
    assignments of one employee on one date overlap, the hours of every
    known employee are within the hard cap of the employee's role as
    stored (40 hours without one), and every assignment of a known
    employee who is not SANDWICH starts at hour 7 or later and ends at hour
    15 or earlier. *)
Theorem X24_validate_assignment_constraints_iff assignments employees cfg :
  ServicesConstraints.validate_assignment_constraints assignments employees cfg = Ok tt
  <-> (forall l1 a1 l2 a2 l3,
          assignments = l1 ++ a1 :: l2 ++ a2 :: l3 ->
          emp_id a1 = emp_id a2 -> asg_date a1 = asg_date a2 ->
          ServicesConstraints.overlaps a1 a2 = false)
      /\ (forall a emp,
             a ∈ assignments ->
             ServicesConstraints.emp_lookup employees (emp_id a) = Some emp ->
             (total_hours (emp_id a) assignments <= ServicesConstraints.hard_cap_of cfg emp)%Q)
      /\ (forall a emp,
             a ∈ assignments ->
             ServicesConstraints.emp_lookup employees (emp_id a) = Some emp ->
             primary_role emp <> "SANDWICH" ->
             7 ≤ hour (dt_time (start_time a)) /\ hour (dt_time (end_time a)) ≤ 15).
Proof.
  unfold ServicesConstraints.validate_assignment_constraints.
  match goal with |- context [raise_unless (negb ?b) ?m] =>
    pose proof (overlap_step_spec assignments) as Hov; destruct b eqn:Eov end; cbn.
  { split; [discriminate|]. intros [H _]. exfalso.
    destruct (proj1 Hov eq_refl) as (l1 & a1 & l2 & a2 & l3 & Heq & He & Hd & Ht).
    rewrite (H _ _ _ _ _ Heq He Hd) in Ht. discriminate. }
  assert (H1 : forall l1 a1 l2 a2 l3,
             assignments = l1 ++ a1 :: l2 ++ a2 :: l3 ->
             emp_id a1 = emp_id a2 -> asg_date a1 = asg_date a2 ->
             ServicesConstraints.overlaps a1 a2 = false).
  { intros l1 a1 l2 a2 l3 Heq He Hd.
    destruct (ServicesConstraints.overlaps a1 a2) eqn:Ht; [|reflexivity].
    assert (Hf : false = true); [|discriminate Hf].
    apply Hov. exists l1, a1, l2, a2, l3. auto. }
  match goal with |- context [raise_unless (forallb ?f ?l) ?m] =>
    pose proof (forallb_elem f l) as Hcap; destruct (forallb f l) eqn:Ecap end; cbn.
  - rewrite cafe_hours_loop_ok. split.
    + intros H3. split; [exact H1|]. split; [|exact H3].
      intros a emp Hin Hl.
      pose proof (proj1 Hcap eq_refl (emp_id a)) as Hc. cbv beta in Hc. rewrite Hl in Hc.
      apply Qltb_false, negb_true_iff, Hc, unique_elem_iff, list_elem_of_fmap.
      exists a. split; [reflexivity|exact Hin].
    + intros (_ & _ & H3). exact H3.
  - split; [discriminate|]. intros (_ & H2 & _).
    assert (Hf : false = true); [|discriminate Hf].
    apply Hcap. intros e He. apply unique_elem_iff, list_elem_of_fmap in He.
    destruct He as (a & -> & Hin).
    destruct (ServicesConstraints.emp_lookup employees (emp_id a)) as [emp|] eqn:Hl;
      [|reflexivity].
    apply negb_true_iff. apply Qltb_false. exact (H2 a emp Hin Hl).
Qed.

(** X26: validate_cp_sat_schedule always returns a verdict, and the
    verdict is valid exactly when the constraint validator accepts the
    schedule, every (date, role) count equals its requirement, no employee
    has two assignments on one date, and every assignment that has a role
    and a known employee carries that employee's primary role. *)
Theorem X26_cp_sat_verdict assignments employees shifts cfg :
  (exists b, CpSatVerdict.valid assignments employees shifts cfg = Ok b)
  /\ (CpSatVerdict.valid assignments employees shifts cfg = Ok true
      <-> ServicesConstraints.validate_assignment_constraints assignments employees cfg = Ok tt
          /\ CpSatValidator.coverage_errors assignments shifts cfg = []
          /\ (forall e d, (count_on e d assignments <= 1)%nat)
          /\ (forall a emp,
                 a ∈ assignments ->
                 ServicesConstraints.emp_lookup employees (emp_id a) = Some emp ->
                 asg_role a <> EmptyString ->
                 upper (primary_role emp) = upper (asg_role a))).
Proof.
  unfold CpSatVerdict.valid.
  rewrite <- multiple_assignments_nil, <- role_mismatches_nil.
  destruct (validate_assignment_constraints_raises assignments employees cfg)
    as [-> | [msg ->]].
  - split; [eexists; reflexivity|]. split.
    + intros [= H]. apply andb_true_iff in H. destruct H as [H H3].
      apply andb_true_iff in H. destruct H as [H1 H2].
      apply bool_decide_eq_true in H1, H2, H3. auto.
    + intros (_ & H1 & H2 & H3). f_equal.
      rewrite !andb_true_iff, !bool_decide_eq_true. auto.
  - split; [eexists; reflexivity|]. split; [discriminate|]. intros [H _]. discriminate.
Qed.

(** X27: updating the employees' skills from history changes no employee
    id and no role, so the cohort of a role after the update is the
    updated cohort; and a second update with the same averages changes
    nothing. *)
Theorem X27_skill_update_idempotent employees avg :
  map employee_id (SkillLoader.update_employee_skills_from_history employees avg)
  = map employee_id employees
  /\ (forall role,
         role_cohort (SkillLoader.update_employee_skills_from_history employees avg) role
         = SkillLoader.update_employee_skills_from_history (role_cohort employees role) avg)
  /\ SkillLoader.update_employee_skills_from_history
       (SkillLoader.update_employee_skills_from_history employees avg) avg
     = SkillLoader.update_employee_skills_from_history employees avg.
Proof.
  unfold SkillLoader.update_employee_skills_from_history. split; [|split].
  - rewrite map_map. apply map_ext. intros emp. apply update_employee_identity.
  - intros role. unfold role_cohort. induction employees as [|emp l IH]; [reflexivity|].
    cbn [map]. rewrite !filter_cons.
    destruct (update_employee_identity emp avg) as [_ ->].
    destruct (decide (upper (primary_role emp) = role)); cbn [map]; rewrite IH; reflexivity.
  - rewrite map_map. apply map_ext. intros emp. apply update_employee_idem.
Qed.

(** ** The greedy choice *)

(** X28: a slot the loop fills goes to a candidate of the role who is not
    yet assigned that day and is within the caps, and no eligible
    candidate of the slot scores higher: the committed employee attains
    the maximal score among all rows the eligibility mask accepts. *)
Theorem X28_slot_goes_to_best_eligible_candidate :
  forall cx st st',
    slot_step cx st = Ok st' ->
    exists sid start_hm end_hm chosen,
      assignments st'
      = assignments st ++ [slot_assignment cx sid (employee_id chosen) start_hm end_hm]
      /\ chosen ∈ cx_candidates cx
      /\ eligible_mask cx (weekly_hours st) (assigned_today st) start_hm end_hm chosen = true
      /\ forall r,
           r ∈ cx_candidates cx ->
           eligible_mask cx (weekly_hours st) (assigned_today st) start_hm end_hm r = true ->
           (score_row cx (weekly_hours st) start_hm end_hm r
            <= score_row cx (weekly_hours st) start_hm end_hm chosen)%Q.
Proof.
  intros cx st st' Hstep.
  destruct (slot_step_detail cx st st' Hstep)
    as (sid & rr' & start_hm & end_hm & chosen & _ & _ & Hsel & Hcand & Hmask & _ & Hasg & _).
  exists sid, start_hm, end_hm, chosen.
  split; [exact Hasg|]. split; [exact Hcand|]. split; [exact Hmask|].
  intros r Hr Hrmask.
  destruct (idxmax_first_max _ _ Hsel) as (sc & before & after & Heq & Hb & Ha).
  assert (Hsc : sc = score_row cx (weekly_hours st) start_hm end_hm chosen).
  { assert (Hin : (chosen, sc) ∈ scored_pool cx (weekly_hours st) (assigned_today st)
                                    start_hm end_hm).
    { rewrite Heq. apply elem_of_app. right. left. }
    apply scored_pool_elem in Hin. tauto. }
  assert (Hin : (r, score_row cx (weekly_hours st) start_hm end_hm r)
                ∈ scored_pool cx (weekly_hours st) (assigned_today st) start_hm end_hm).
  { unfold scored_pool. rewrite strict_pool_id.
    apply (list_elem_of_fmap_2 (fun r => (r, score_row cx (weekly_hours st) start_hm end_hm r))).
    apply slot_pool_elem. split; assumption. }
  rewrite Heq in Hin. rewrite <- Hsc.
  rewrite Forall_forall in Hb, Ha.
  apply elem_of_app in Hin. destruct Hin as [Hin|Hin].
  - specialize (Hb _ Hin). cbn in Hb. lra.
  - apply elem_of_cons in Hin. destruct Hin as [Hin|Hin].
    + injection Hin as _ ->. lra.
    + specialize (Ha _ Hin). cbn in Ha. exact Ha.
Qed.

Lemma X28_slot_goes_to_best_eligible_candidate_witness :
  match slot_step (barista_monday_cx employees_basic default_cfg) (loop_start [1]) with
  | Ok st' =>
      exists sid start_hm end_hm chosen,
        assignments st'
        = [] ++ [slot_assignment (barista_monday_cx employees_basic default_cfg) sid
                   (employee_id chosen) start_hm end_hm]
        /\ chosen ∈ cx_candidates (barista_monday_cx employees_basic default_cfg)
        /\ eligible_mask (barista_monday_cx employees_basic default_cfg) ∅ ∅
             start_hm end_hm chosen = true
        /\ forall r,
             r ∈ cx_candidates (barista_monday_cx employees_basic default_cfg) ->
             eligible_mask (barista_monday_cx employees_basic default_cfg) ∅ ∅
               start_hm end_hm r = true ->
             (score_row (barista_monday_cx employees_basic default_cfg) ∅ start_hm end_hm r
              <= score_row (barista_monday_cx employees_basic default_cfg) ∅
                   start_hm end_hm chosen)%Q
  | _ => False
  end.
Proof.
  destruct (slot_step (barista_monday_cx employees_basic default_cfg) (loop_start [1]))
    as [st'| |] eqn:Hstep.
  - exact (X28_slot_goes_to_best_eligible_candidate _ (loop_start [1]) st' Hstep).
  - vm_compute in Hstep. discriminate.
  - vm_compute in Hstep. discriminate.
Defined.
